(** * QMLA: the search orchestrator of the Quantum Model Learning Agent

    A shallow embedding of the parts of [qmla/database_framework.py],
    [qmla/tree.py] and [qmla/quantum_model_learning_agent.py] that decide
    the registry, tournament and reconciliation properties, together with
    the theorems that settle them.

    Conventions.
    - Python [int] is [Z]; Python [float] is an IEEE binary64 value, taken
      from the Standard Library's executable specification [spec_float]
      with [prec = 53] and [emax = 1024].
    - Python [str] is [string]; a [dict] is a [gmap] when only lookups
      matter and an association list when the iteration order matters.
    - A function that can raise returns an [outcome]; the orchestrator's
      methods, which mutate [self], are state transformers that hand back
      the mutated state also when they raise. *)

From Stdlib Require Import ZArith Bool List String Ascii Lia.
From Stdlib Require Import Floats.SpecFloat Sorting.Sorted.
From Stdlib Require OrderedTypeEx.
From stdpp Require Import base option list gmap strings.
From coqutil Require Import Datatypes.RecordSettersUsingExistingGetters.

Import ListNotations.
Local Open Scope Z_scope.

(** ** Exceptions and outcomes *)

Inductive exn : Type :=
  | UnboundLocalError
  | TypeError
  | KeyError
  | ValueError
  | IndexError
  | ZeroDivisionError
  | OverflowError
  | RecursionError
  | NameError (msg : string).

Inductive outcome (A : Type) : Type :=
  | Ok (a : A)
  | Raise (e : exn).
Arguments Ok {A} a.
Arguments Raise {A} e.

Definition obind {A B} (x : outcome A) (k : A -> outcome B) : outcome B :=
  match x with
  | Ok a => k a
  | Raise e => Raise e
  end.

(** ** Python floats *)

Module PyFloat.

Definition prec : Z := 53.
Definition emax : Z := 1024.

Definition float := spec_float.

Definition nan : float := S754_nan.
Definition is_nan (x : float) : bool :=
  match x with S754_nan => true | _ => false end.
Definition is_inf (x : float) : bool :=
  match x with S754_infinity _ => true | _ => false end.
Definition is_zero (x : float) : bool :=
  match x with S754_zero _ => true | _ => false end.

(** [x == y], [x < y], [x > y] on floats: false whenever a NaN is
    involved. *)
Definition eqb (x y : float) : bool := SFeqb x y.
Definition ltb (x y : float) : bool := SFltb x y.
Definition gtb (x y : float) : bool := SFltb y x.

(** The nearest binary64 value of an integer, ties to even; an integer
    beyond the range rounds to an infinity. *)
Definition round_Z (n : Z) : float := binary_normalize prec emax n 0 false.

(** [float(n)] for an [int]: raises when [n] is out of range. *)
Definition of_int (n : Z) : outcome float :=
  let x := round_Z n in
  if is_inf x then Raise OverflowError else Ok x.

(** A literal that is an integer in range, such as [1.0] or [1e5]. *)
Definition lit (n : Z) : float := round_Z n.

(** [x / y] on two floats: Python raises on a zero divisor and
    otherwise performs the IEEE division. *)
Definition div (x y : float) : outcome float :=
  if is_zero y then Raise ZeroDivisionError
  else Ok (SFdiv prec emax x y).

(** [a / b] on two [int]s (true division): the exact quotient rounded
    once to the nearest float, [OverflowError] when that is out of
    range.  The integers enter the division unrounded, as mantissas
    with exponent zero. *)
Definition as_exact (n : Z) : float :=
  match n with
  | Z0 => S754_zero false
  | Zpos p => S754_finite false p 0
  | Zneg p => S754_finite true p 0
  end.

Definition int_truediv (a b : Z) : outcome float :=
  if b =? 0 then Raise ZeroDivisionError
  else
    let q := SFdiv prec emax (as_exact a) (as_exact b) in
    if is_inf q then Raise OverflowError else Ok q.

(** [x / n] for a float and an [int]: the [int] is converted first. *)
Definition div_int (x : float) (n : Z) : outcome float :=
  obind (of_int n) (fun y => div x y).

(** The integer a float denotes, when it denotes one. *)
Definition int_value (x : float) : option Z :=
  match x with
  | S754_zero _ => Some 0
  | S754_finite s m e =>
      let v :=
        match e with
        | Z0 => Some (Zpos m)
        | Zpos _ => Some (Zpos m * 2 ^ e)
        | Zneg k =>
            if (Zpos m mod 2 ^ Zpos k =? 0) then Some (Zpos m / 2 ^ Zpos k)
            else None
        end in
      if s then Z.opp <$> v else v
  | _ => None
  end.

End PyFloat.

(** ** [qmla/tree.py]: the number of pairs of a branch *)

Module Tree.

Fixpoint fact (n : nat) : Z :=
  match n with
  | O => 1
  | S k => Z.of_nat n * fact k
  end.

(** [math.factorial] *)
Definition factorial (n : Z) : outcome Z :=
  if n <? 0 then Raise ValueError else Ok (fact (Z.to_nat n)).

(** What [num_pairs_in_list] returns: the [int] 0 or a [float]. *)
Inductive number : Type :=
  | Int (n : Z)
  | Float (x : PyFloat.float).

(** The body of the [try]: both locals are bound only if neither
    statement raises. *)
Definition try_body (n k : Z) : outcome (PyFloat.float * Z) :=
  obind (factorial n) (fun fn =>
  obind (factorial k) (fun fk =>
  obind (PyFloat.int_truediv fn fk) (fun a =>
  obind (factorial (n - k)) (fun b =>
  Ok (a, b))))).

Definition num_pairs_in_list (num_models : Z) : outcome number :=
  if num_models <=? 1 then Ok (Int 0)
  else
    let n := num_models in
    let k := 2 in
    match try_body n k with
    | Ok (a, b) => obind (PyFloat.div_int a b) (fun r => Ok (Float r))
    | Raise _ =>
        (* [except BaseException: print(...)]: [a] was never bound *)
        Raise UnboundLocalError
    end.

(** The integer a returned number denotes. *)
Definition number_value (r : number) : option Z :=
  match r with
  | Int n => Some n
  | Float x => PyFloat.int_value x
  end.

End Tree.


(** ** Python string methods used by the naming functions *)

Module PyStr.

Local Open Scope nat_scope.

(** [s.count(sub)] for a non-empty [sub]: occurrences are counted from
    the left without overlap.  [skip] is the number of characters of
    the last match still to step over. *)
Fixpoint count_from (skip : nat) (sub s : string) : nat :=
  match s with
  | EmptyString => 0
  | String _ s' =>
      match skip with
      | S k => count_from k sub s'
      | O =>
          if String.prefix sub s
          then S (count_from (String.length sub - 1) sub s')
          else count_from 0 sub s'
      end
  end.

Definition count (s sub : string) : nat := count_from 0 sub s.

(** [sub in s] *)
Fixpoint contains (s sub : string) : bool :=
  String.prefix sub s
  || match s with
     | EmptyString => false
     | String _ s' => contains s' sub
     end.

Fixpoint split_from (skip : nat) (sep s : string) : list string :=
  match s with
  | EmptyString => [EmptyString]
  | String c s' =>
      match skip with
      | S k => split_from k sep s'
      | O =>
          if String.prefix sep s
          then EmptyString :: split_from (String.length sep - 1) sep s'
          else
            match split_from 0 sep s' with
            | h :: t => String c h :: t
            | [] => [String c EmptyString]
            end
      end
  end.

(** [s.split(sep)]: an empty separator is a [ValueError]. *)
Definition split (s sep : string) : outcome (list string) :=
  match sep with
  | EmptyString => Raise ValueError
  | _ => Ok (split_from 0 sep s)
  end.

(** [sep.join(l)] *)
Definition join (sep : string) (l : list string) : string :=
  String.concat sep l.

(** [sorted(l)] on strings: ascending in the order of the code units,
    by insertion from the right, which keeps equal items in order. *)
Fixpoint insert_sorted (x : string) (l : list string) : list string :=
  match l with
  | [] => [x]
  | y :: l' =>
      if String.leb x y then x :: l else y :: insert_sorted x l'
  end.

Definition sorted (l : list string) : list string :=
  fold_right insert_sorted [] l.

End PyStr.

(** ** [qmla/database_framework.py]: names *)

Module DatabaseFramework.

Local Open Scope nat_scope.

(** The [while] loop of [find_max_letter]: [letter_str] grows by one
    [letter] as long as the longer run still occurs in [string].  A run
    that occurs is no longer than [string], which bounds the number of
    turns by [fuel]. *)
Fixpoint grow_run (fuel : nat) (s letter letter_str : string) : string :=
  match fuel with
  | O => letter_str
  | S fuel' =>
      if Nat.ltb 0 (PyStr.count s (letter_str +:+ letter))
      then grow_run fuel' s letter (letter_str +:+ letter)
      else letter_str
  end.

Definition find_max_letter (s letter : string) : nat * string :=
  let letter_str := grow_run (S (String.length s)) s letter ""%string in
  (String.length letter_str, letter_str).

Definition get_t_p_strings (name : string) : string * string * nat * nat :=
  let t_str := grow_run (S (String.length name)) name "T"%string ""%string in
  let p_str := grow_run (S (String.length name)) name "P"%string ""%string in
  (t_str, p_str, String.length t_str, String.length p_str).

(** [for i in range(len(l)): l[i] = f(l[i])], stopping at the first
    call that raises. *)
Fixpoint map_outcome {A B} (f : A -> outcome B) (l : list A)
  : outcome (list B) :=
  match l with
  | [] => Ok []
  | x :: l' =>
      obind (f x) (fun y =>
      obind (map_outcome f l') (fun ys => Ok (y :: ys)))
  end.

(** [alph]: every recursive call is on a piece of [name] cut at a
    separator that occurs in it, so the depth is bounded by the length
    of [name]; [fuel] counts the remaining depth and its exhaustion
    is reported as [RecursionError]. *)
Fixpoint alph_fuel (fuel : nat) (name : string) : outcome string :=
  match fuel with
  | O => Raise RecursionError
  | S fuel' =>
      let '(t_max, t_str) := find_max_letter name "T"%string in
      let '(p_max, p_str) := find_max_letter name "P"%string in
      let '(m_max, m_str) := find_max_letter name "M"%string in
      if (p_max =? 0) && (t_max =? 0) && (p_max =? 0) then Ok name
      else
        let '(ltr, string) :=
          if (t_max <? p_max) && (m_max <? p_max) then ("P"%string, p_str)
          else if p_max <=? t_max then ("T"%string, t_str)
          else if p_max <=? m_max then ("M"%string, m_str)
          else if m_max <? t_max then ("T"%string, t_str)
          else ("M"%string, m_str) in
        obind (PyStr.split name string) (fun spread =>
        if (p_max =? m_max) && (t_max <? p_max) then
          obind (PyStr.split name p_str) (fun list_elements =>
          obind (map_outcome (alph_fuel fuel') list_elements) (fun l =>
          Ok (PyStr.join p_str (PyStr.sorted l))))
        else if String.eqb ltr "P"%string && (p_max =? 1) then
          Ok (PyStr.join string (PyStr.sorted spread))
        else if String.eqb ltr "P"%string && (1 <? p_max) then
          obind (PyStr.split name string) (fun list_elements =>
          let sorted_list := PyStr.sorted list_elements in
          obind (map_outcome (alph_fuel fuel') sorted_list) (fun l =>
          Ok (PyStr.join string l)))
        else
          obind (map_outcome (alph_fuel fuel') spread) (fun l =>
          Ok (PyStr.join string l)))
  end.

Definition alph (name : string) : outcome string :=
  alph_fuel (S (String.length name)) name.

(** [int(s)] on the decimal forms: blanks around, one sign, digits
    that single underscores may separate.  Anything else is a
    [ValueError]. *)
Definition is_space (c : ascii) : bool :=
  let n := nat_of_ascii c in
  (n =? 32) || ((9 <=? n) && (n <=? 13)).

Fixpoint lstrip (s : string) : string :=
  match s with
  | String c s' => if is_space c then lstrip s' else s
  | EmptyString => s
  end.

Fixpoint rstrip (s : string) : string :=
  match s with
  | EmptyString => EmptyString
  | String c s' =>
      match rstrip s' with
      | EmptyString => if is_space c then EmptyString else String c EmptyString
      | r => String c r
      end
  end.

Definition digit_value (c : ascii) : option Z :=
  let n := nat_of_ascii c in
  if (48 <=? n) && (n <=? 57) then Some (Z.of_nat (n - 48)) else None.

(** [after_digit] tells whether the previous character was a digit, the
    only place where an underscore or the end may come. *)
Fixpoint digits (after_digit : bool) (acc : Z) (s : string) : option Z :=
  match s with
  | EmptyString => if after_digit then Some acc else None
  | String c s' =>
      match digit_value c with
      | Some d => digits true (10 * acc + d)%Z s'
      | None =>
          if Ascii.eqb c "_"%char && after_digit then digits false acc s'
          else None
      end
  end.

Definition py_int (s : string) : outcome Z :=
  let body := rstrip (lstrip s) in
  let '(neg, ds) :=
    match body with
    | String "-"%char r => (true, r)
    | String "+"%char r => (false, r)
    | _ => (false, body)
    end in
  match digits false 0%Z ds with
  | Some n => Ok (if neg then (- n)%Z else n)
  | None => Raise ValueError
  end.

Definition verbose_naming_mechanism_separate_terms (name : string)
  : outcome (list string) :=
  let '(t_str, p_str, max_t, max_p) := get_t_p_strings name in
  if max_p <=? max_t then Ok [name] else PyStr.split name p_str.

Definition get_constituent_names_from_name (name : string)
  : outcome (list string) :=
  if existsb (PyStr.contains name) ["T"%string; "P"%string; "M"%string]
  then verbose_naming_mechanism_separate_terms name
  else PyStr.split name "+"%string.

(** [s[1:]] and [l[-1]] *)
Definition tail_of (s : string) : string :=
  match s with
  | EmptyString => EmptyString
  | String _ s' => s'
  end.

Definition names_dimension (term : string) : bool :=
  String.eqb (String.substring 0 1 term) "h_"%string
  || PyStr.contains term "1Dising"%string
  || PyStr.contains term "Heis"%string
  || PyStr.contains term "nv"%string
  || PyStr.contains term "pauliSet"%string
  || PyStr.contains term "transverse"%string
  || PyStr.contains term "FH"%string.

Definition get_num_qubits (name : string) : outcome Z :=
  obind (get_constituent_names_from_name name) (fun individual_terms =>
  match List.find names_dimension individual_terms with
  | Some term =>
      obind (PyStr.split term "_"%string) (fun terms =>
      let dim_term := List.last terms EmptyString in
      py_int (tail_of dim_term))
  | None =>
      let t_str := grow_run (S (String.length name)) name "T"%string ""%string in
      Ok (Z.of_nat (String.length t_str) + 1)%Z
  end).

(** [unique_model_pair_identifier]: the two ids in ascending order,
    which the source joins with a comma into the key of the result
    store. *)
Definition unique_model_pair_identifier (model_a_id model_b_id : Z)
  : Z * Z :=
  (Z.min model_a_id model_b_id, Z.max model_a_id model_b_id).

End DatabaseFramework.

(** ** [qmla/quantum_model_learning_agent.py]: the agent *)

Module QMLA.

Import DatabaseFramework.

Abbreviation float := PyFloat.float.

(** A row of the pandas table [self.db].  [row_BayesFactors] is the
    [BayesFactors] dictionary of the row's model instance: for every
    opponent the list of the ratios seen so far. *)
Record row : Type := {
  row_Name : string;
  row_ModelID : Z;
  row_branchID : Z;
  row_Status : string;
  row_Completed : bool;
  row_BayesFactors : gmap Z (list float)
}.

(** The redis stores shared with the workers.  [any_job_failed] is
    [true] when its ['Status'] entry reads [b'1']. *)
Record redis_databases : Type := {
  bayes_factors_db : gmap (Z * Z) float;
  active_branches_learning_models : gmap Z Z;
  active_branches_bayes : gmap Z Z;
  any_job_failed : bool
}.

(** The attributes of [self] that the modelled methods read or write.
    [jobs_done] is not an attribute: it counts the comparison jobs that
    have been answered, which is how the answers of the external
    comparator are told apart. *)
Record qmla : Type := {
  BayesLower : float;
  BayesUpper : float;
  use_rq : bool;
  growth_rules_list : list string;
  UniqueGrowthClasses : gmap string string;
  db : list row;
  model_lists : gmap Z (list string);
  redis : redis_databases;
  model_name_id_map : gmap Z string;
  NumModels : Z;
  HighestModelID : Z;
  ModelsBranches : gmap Z Z;
  bayes_factor_pair_computed : list (Z * Z);
  HighestBranchID : Z;
  BranchModels : gmap Z (list string);
  BranchModelIds : gmap Z (list Z);
  BranchPrecomputedModels : gmap Z (list string);
  BranchNumModelsPreComputed : gmap Z Z;
  NumModelsPerBranch : gmap Z Z;
  NumModelPairsPerBranch : gmap Z Tree.number;
  BranchAllModelsLearned : gmap Z bool;
  BranchComparisonsComplete : gmap Z bool;
  BranchBayesComputed : gmap Z bool;
  Branchget_growth_rule : gmap Z string;
  BranchGrowthClasses : gmap Z string;
  branch_parents : gmap Z Z;
  ghost_branch_list : list Z;
  branch_rankings : gmap Z (list Z);
  branch_bayes_points : gmap Z (list (Z * Z));
  BranchChampions : gmap Z Z;
  ActiveBranchChampList : list Z;
  BranchChampsByNumQubits : gmap string (gmap Z (list string));
  TreesCompleted : gmap string bool;
  NumTreesCompleted : Z;
  NumTrees : Z;
  spawn_depthByGrowthRule : gmap string Z;
  spawn_depth : Z;
  SpawnStage : gmap string (list (option string));
  jobs_done : nat
}.

(** *** Methods as state transformers

    A method returns its outcome together with the state it leaves:
    what was written before an exception stays written. *)
Definition M (A : Type) : Type := qmla -> outcome A * qmla.

Definition ret {A} (a : A) : M A := fun s => (Ok a, s).
Definition raise {A} (e : exn) : M A := fun s => (Raise e, s).
Definition bind {A B} (c : M A) (k : A -> M B) : M B :=
  fun s =>
    match c s with
    | (Ok a, s') => k a s'
    | (Raise e, s') => (Raise e, s')
    end.
Definition get : M qmla := fun s => (Ok s, s).
Definition modify (f : qmla -> qmla) : M unit := fun s => (Ok tt, f s).
Definition lift {A} (x : outcome A) : M A := fun s => (x, s).

(** [d[k]] on a dictionary: a missing key is a [KeyError]. *)
Definition item `{Countable K} {V} (d : gmap K V) (k : K) : M V :=
  match d !! k with
  | Some v => ret v
  | None => raise KeyError
  end.

(** [try: c except BaseException: h] *)
Definition try_except {A} (c : M A) (h : M A) : M A :=
  fun s =>
    match c s with
    | (Ok a, s') => (Ok a, s')
    | (Raise _, s') => h s'
    end.

Declare Scope qmla_scope.
Delimit Scope qmla_scope with qmla.
Notation "x <- c ;; k" := (bind c (fun x => k))
  (at level 100, c at next level, right associativity) : qmla_scope.
Notation "c ;; k" := (bind c (fun _ => k))
  (at level 100, right associativity) : qmla_scope.
Local Open Scope qmla_scope.

(** [for x in l: body(x)] *)
Fixpoint for_each {A} (l : list A) (body : A -> M unit) : M unit :=
  match l with
  | [] => ret tt
  | x :: l' => body x ;; for_each l' body
  end.

(** *** The table *)

Definition rows_with_id (model_id : Z) (d : list row) : list row :=
  filter (fun r => row_ModelID r = model_id) d.

(** [reduced_model_instance_from_id]: the first row with that id;
    [.index[0]] on an empty selection is an [IndexError]. *)
Definition get_model_storage_instance_by_id (model_id : Z) : M row :=
  s <- get ;;
  match rows_with_id model_id (db s) with
  | r :: _ => ret r
  | [] => raise IndexError
  end.

(** [update_field]: every row selected by name, or else by id, gets
    the new value; no row selected changes nothing. *)
Definition set_status (v : string) (r : row) : row :=
  r <| row_Status := v |>.

Definition update_status_by_id (model_id : Z) (v : string) : M unit :=
  modify (fun s => s <| db ::=
    map (fun r => if decide (row_ModelID r = model_id)
                  then set_status v r else r) |>).

Definition update_status_by_name (name : string) (v : string) : M unit :=
  modify (fun s => s <| db ::=
    map (fun r => if decide (row_Name r = name)
                  then set_status v r else r) |>).

(** [mod.BayesFactors[other].append(x)], or [= [x]] for a new key, on
    the instance found for [model_id]. *)
Definition record_ratio (other : Z) (x : float) (r : row) : row :=
  r <| row_BayesFactors ::=
    (fun d => <[other := default [] (d !! other) ++ [x]]> d) |>.

Fixpoint update_first (model_id : Z) (f : row -> row) (d : list row)
  : list row :=
  match d with
  | [] => []
  | r :: d' =>
      if decide (row_ModelID r = model_id) then f r :: d'
      else r :: update_first model_id f d'
  end.

Definition append_bayes_factor (model_id other : Z) (x : float) : M unit :=
  modify (fun s => s <| db ::= update_first model_id (record_ratio other x) |>).

(** The ratios model [a] has recorded against [b], oldest first, and
    the latest of them: the score of [a] against [b]. *)
Definition cache (s : qmla) (a b : Z) : list float :=
  match rows_with_id a (db s) with
  | r :: _ => default [] (row_BayesFactors r !! b)
  | [] => []
  end.

Definition score (s : qmla) (a b : Z) : option float :=
  last (cache s a b).

(** *** [processRemoteBayesPair]

    Called with two ids.  The ratio is read from the result store; a
    missing entry makes [float(None)] a [TypeError], which is caught
    and logged, and leaves [bayes_factor] unbound. *)
Definition processRemoteBayesPair (a b : Z) : M Z :=
  s <- get ;;
  let bayes_threshold := BayesLower s in
  let pair := unique_model_pair_identifier a b in
  let bayes_factor := bayes_factors_db (redis s) !! pair in
  let lower_id := Z.min a b in
  let higher_id := Z.max a b in
  mod_low <- get_model_storage_instance_by_id lower_id ;;
  mod_high <- get_model_storage_instance_by_id higher_id ;;
  bf <- match bayes_factor with
        | Some x => ret x
        | None => raise UnboundLocalError
        end ;;
  append_bayes_factor lower_id higher_id bf ;;
  inv <- lift (PyFloat.div (PyFloat.lit 1) bf) ;;
  append_bayes_factor higher_id lower_id inv ;;
  if PyFloat.gtb bf bayes_threshold then ret (row_ModelID mod_low)
  else
    bound <- lift (PyFloat.div (PyFloat.lit 1) bayes_threshold) ;;
    if PyFloat.ltb bf bound then ret (row_ModelID mod_high)
    else raise UnboundLocalError.

(** *** Dictionaries whose order matters

    [models_points] is iterated, so it is kept in insertion order. *)
Fixpoint dict_set (k v : Z) (d : list (Z * Z)) : list (Z * Z) :=
  match d with
  | [] => [(k, v)]
  | (k', v') :: d' =>
      if decide (k' = k) then (k, v) :: d' else (k', v') :: dict_set k v d'
  end.

Fixpoint dict_get (k : Z) (d : list (Z * Z)) : option Z :=
  match d with
  | [] => None
  | (k', v') :: d' => if decide (k' = k) then Some v' else dict_get k d'
  end.

(** [d[k] += 1] *)
Definition dict_incr (k : Z) (d : list (Z * Z)) : outcome (list (Z * Z)) :=
  match dict_get k d with
  | Some v => Ok (dict_set k (v + 1) d)
  | None => Raise KeyError
  end.

(** [max(d.values())]: a [ValueError] on an empty dictionary. *)
Definition max_value (d : list (Z * Z)) : outcome Z :=
  match d with
  | [] => Raise ValueError
  | (_, v) :: d' => Ok (fold_left Z.max (map snd d') v)
  end.

(** [[key for key, val in d.items() if val == m]] *)
Definition keys_with (m : Z) (d : list (Z * Z)) : list Z :=
  map fst (filter (fun kv => snd kv = m) d).

(** [max(d, key=d.get)]: the first key that carries the largest
    value. *)
Definition argmax (d : list (Z * Z)) : outcome Z :=
  obind (max_value d) (fun m =>
  match keys_with m d with
  | k :: _ => Ok k
  | [] => Raise ValueError
  end).

(** [sorted(d, key=d.get, reverse=True)]: larger values first, equal
    values in the order they had. *)
Fixpoint insert_desc (kv : Z * Z) (l : list (Z * Z)) : list (Z * Z) :=
  match l with
  | [] => [kv]
  | kv' :: l' =>
      if snd kv' <? snd kv then kv :: l else kv' :: insert_desc kv l'
  end.

Definition sorted_desc (d : list (Z * Z)) : list Z :=
  map fst (fold_left (fun acc kv => insert_desc kv acc) d []).

(** The pairs [(l[i], l[j])] for [i] in [range(len(l))] and [j] in
    [range(i, len(l))], in the order of the two nested loops. *)
Fixpoint index_pairs (l : list Z) : list (Z * Z) :=
  match l with
  | [] => []
  | a :: l' => map (pair a) (a :: l') ++ index_pairs l'
  end.

(** *** The comparator *)

Record job : Type := { job_a : Z; job_b : Z; job_branch : option Z }.

Section Agent.

(** The external comparator: the ratio that the [n]-th answered job
    reports for the pair [(lower, higher)]. *)
Variable Comparator : nat -> Z -> Z -> float.

(** Modelled from the spec: [qmla.remote_bayes_factor.BayesFactorRemote]
    is not among the sources.  The spec has the comparator signal its
    result through the coordination store: the ratio goes to the
    per-pair result cache under the key (min id, max id), and the
    completed-comparison count of the job's branch, if it has one,
    goes up by one. *)
Definition BayesFactorRemote (model_a_id model_b_id : Z)
  (branch : option Z) : M unit :=
  modify (fun s =>
    let pair := unique_model_pair_identifier model_a_id model_b_id in
    let ratio := Comparator (jobs_done s) (fst pair) (snd pair) in
    s <| redis ::= (fun r =>
           r <| bayes_factors_db ::= insert pair ratio |>
             <| active_branches_bayes ::=
                  (fun d => match branch with
                            | Some br => <[br := default 0 (d !! br) + 1]> d
                            | None => d
                            end) |>) |>
      <| jobs_done ::= S |>).

Definition run_job (j : job) : M unit :=
  BayesFactorRemote (job_a j) (job_b j) (job_branch j).

(** [get_pairwise_bayes_factor] as its callers use it, without
    [wait_on_result]: with workers the job is queued and handed back
    if asked for, without workers the comparison runs at once. *)
Definition get_pairwise_bayes_factor (model_a_id model_b_id : Z)
  (return_job : bool) (branch : option Z) : M (option job) :=
  let unique_id := unique_model_pair_identifier model_a_id model_b_id in
  modify (fun s =>
    if decide (unique_id ∈ bayes_factor_pair_computed s) then s
    else s <| bayes_factor_pair_computed ::= (fun l => l ++ [unique_id]) |>) ;;
  s <- get ;;
  if use_rq s then
    let j := {| job_a := model_a_id; job_b := model_b_id;
                job_branch := branch |} in
    ret (if return_job then Some j else None)
  else
    BayesFactorRemote model_a_id model_b_id branch ;;
    ret None.

(** [for] over the pairs, collecting what the calls return *)
Fixpoint collect_jobs (recompute : bool) (wait_on_result : bool)
  (pairs : list (Z * Z)) : M (list (option job)) :=
  match pairs with
  | [] => ret []
  | (a, b) :: pairs' =>
      if decide (a = b) then collect_jobs recompute wait_on_result pairs'
      else
        s <- get ;;
        let unique_id := unique_model_pair_identifier a b in
        if negb (bool_decide (unique_id ∈ bayes_factor_pair_computed s))
           || recompute
        then
          j <- get_pairwise_bayes_factor a b wait_on_result None ;;
          js <- collect_jobs recompute wait_on_result pairs' ;;
          ret (j :: js)
        else collect_jobs recompute wait_on_result pairs'
  end.

(** Waiting on a queued job ends when a worker has run it. *)
Definition wait_for (j : option job) : M unit :=
  match j with
  | Some j => run_job j
  | None => ret tt
  end.

Definition get_bayes_factors_from_list (model_id_list : list Z)
  (wait_on_result recompute : bool) : M unit :=
  remote_jobs <- collect_jobs recompute wait_on_result
                   (index_pairs model_id_list) ;;
  s <- get ;;
  if wait_on_result && use_rq s then for_each remote_jobs wait_for
  else ret tt.

(** *** Tournaments *)

(** The two nested loops that hand out the points. *)
Fixpoint award_points (pairs : list (Z * Z)) (models_points : list (Z * Z))
  : M (list (Z * Z)) :=
  match pairs with
  | [] => ret models_points
  | (mod1, mod2) :: pairs' =>
      if decide (mod1 = mod2) then award_points pairs' models_points
      else
        res <- processRemoteBayesPair mod1 mod2 ;;
        models_points' <- lift (dict_incr res models_points) ;;
        award_points pairs' models_points'
  end.

Definition zero_points (ids : list Z) : list (Z * Z) :=
  fold_left (fun d k => dict_set k 0 d) ids [].

(** [model_name_from_id]: [.item()] wants exactly one row. *)
Definition model_name_from_id (model_id : Z) : M string :=
  s <- get ;;
  match rows_with_id model_id (db s) with
  | [r] => ret (row_Name r)
  | _ => raise ValueError
  end.

(** [compare_models_from_list].  [depth] is the number of nested
    calls the interpreter still allows; going beyond it is Python's
    [RecursionError]. *)
Fixpoint compare_models_from_list (depth : nat) (model_list : list Z)
  : M Z :=
  match depth with
  | O => raise RecursionError
  | S depth' =>
      models_points <- award_points (index_pairs model_list)
                         (zero_points model_list) ;;
      max_points <- lift (max_value models_points) ;;
      let max_points_branches := keys_with max_points models_points in
      champ_id <-
        (if 1 <? Z.of_nat (length max_points_branches) then
           for_each max_points_branches
             (fun i => model_name_from_id i ;; ret tt) ;;
           get_bayes_factors_from_list max_points_branches true true ;;
           compare_models_from_list depth' max_points_branches
         else lift (argmax models_points)) ;;
      s <- get ;;
      item (model_name_id_map s) champ_id ;;
      ret champ_id
  end.

(** [ActiveBranchChampList.remove(x)] inside [try ... except: pass] *)
Fixpoint remove_first (x : Z) (l : list Z) : list Z :=
  match l with
  | [] => []
  | y :: l' => if decide (y = x) then l' else y :: remove_first x l'
  end.

(** [if self.BranchBayesComputed[branchID] == False:] with its two
    assignments: only the first time a branch is considered is its
    ranking stored. *)
Definition record_ranking (branchID : Z) (ranked_model_list : list Z)
  : M unit :=
  s <- get ;;
  computed <- item (BranchBayesComputed s) branchID ;;
  if computed then ret tt
  else
    modify (fun s => s <| branch_rankings ::= insert branchID ranked_model_list |>
                       <| BranchBayesComputed ::= insert branchID true |>).

Definition compare_all_models_in_branch (depth : nat) (branchID : Z)
  : M (list (Z * Z) * Z) :=
  s <- get ;;
  active_models_in_branch <- item (BranchModelIds s) branchID ;;
  models_points <- award_points (index_pairs active_models_in_branch)
                     (zero_points active_models_in_branch) ;;
  max_points <- lift (max_value models_points) ;;
  let max_points_branches := keys_with max_points models_points in
  champ_id <-
    (if 1 <? Z.of_nat (length max_points_branches) then
       get_bayes_factors_from_list max_points_branches true true ;;
       compare_models_from_list depth max_points_branches
     else lift (argmax models_points)) ;;
  s <- get ;;
  champ_name <- item (model_name_id_map s) champ_id ;;
  champ_num_qubits <- lift (get_num_qubits champ_name) ;;
  modify (fun s => s <| BranchChampions ::= insert branchID champ_id |>) ;;
  modify (fun s =>
    if decide (champ_id ∈ ActiveBranchChampList s) then s
    else s <| ActiveBranchChampList ::= (fun l => l ++ [champ_id]) |>) ;;
  s <- get ;;
  growth_rule <- item (Branchget_growth_rule s) branchID ;;
  by_qubits <- item (BranchChampsByNumQubits s) growth_rule ;;
  modify (fun s => s <| BranchChampsByNumQubits ::=
    insert growth_rule
      (<[champ_num_qubits :=
           default [] (by_qubits !! champ_num_qubits) ++ [champ_name]]>
         by_qubits) |>) ;;
  for_each active_models_in_branch
    (fun model_id => update_status_by_id model_id "Deactivated") ;;
  s <- get ;;
  champ_name' <- item (model_name_id_map s) champ_id ;;
  update_status_by_name champ_name' "Active" ;;
  let ranked_model_list := sorted_desc models_points in
  record_ranking branchID ranked_model_list ;;
  modify (fun s => s <| branch_bayes_points ::= insert branchID models_points |>) ;;
  s <- get ;;
  (if decide (branchID ∈ ghost_branch_list s) then
     let models_to_deactivate :=
       remove_dups (filter (fun m => m <> champ_id) active_models_in_branch) in
     for_each models_to_deactivate (fun losing_model_id =>
       update_status_by_id losing_model_id "Deactivated" ;;
       modify (fun s => s <| ActiveBranchChampList ::= remove_first losing_model_id |>))
   else ret tt) ;;
  ret (models_points, champ_id).


(** *** The registry *)

(** [consider_new_model]: [true] stands for ['New'], [false] for
    ['Previously Considered']. *)
Definition consider_new_model (name : string) : M bool :=
  s <- get ;;
  al_name <- lift (alph name) ;;
  n_qub <- lift (get_num_qubits name) ;;
  bucket <- item (model_lists s) n_qub ;;
  ret (negb (bool_decide (al_name ∈ bucket))).

Definition check_model_exists (model_name : string) : M bool :=
  is_new <- consider_new_model model_name ;;
  ret (negb is_new).

Definition new_row (model_name : string) (modelID branch : Z) : row :=
  {| row_Name := model_name; row_ModelID := modelID;
     row_branchID := branch; row_Status := "Ready";
     row_Completed := false; row_BayesFactors := ∅ |}.

(** Modelled from the spec: [qmla.database_launch.add_model] is not
    among the sources.  The spec's registry canonicalises the name,
    looks it up by canonical name and qubit count, and only for a
    name not found creates the model under the id it is given; the
    lookup is [consider_new_model], whose docstring names [add_model]
    as its caller.  A created model gets a row that carries the name
    it was passed, its id, its branch and the status [Ready], and its
    canonical name joins the bucket of its qubit count.  The result
    tells whether a model was created. *)
Definition add_model (model_name : string) (branch modelID : Z) : M bool :=
  is_new <- consider_new_model model_name ;;
  if is_new then
    alph_model_name <- lift (alph model_name) ;;
    model_num_qubits <- lift (get_num_qubits model_name) ;;
    modify (fun s =>
      s <| model_lists ::= (fun d =>
             <[model_num_qubits :=
                 default [] (d !! model_num_qubits) ++ [alph_model_name]]> d) |>
        <| db ::= (fun d => d ++ [new_row model_name modelID branch]) |>) ;;
    ret true
  else ret false.

(** [database_framework.model_id_from_name]: the name is
    canonicalised again before the rows are searched. *)
Definition model_id_from_name (name : string) : M Z :=
  name' <- lift (alph name) ;;
  s <- get ;;
  match filter (fun r => row_Name r = name') (db s) with
  | [r] => ret (row_ModelID r)
  | _ => raise ValueError
  end.

(** [add_model_to_database] returns [(is_new_model, model_id)].  The
    bookkeeping of the true model's id is left out. *)
Definition add_model_to_database (model : string) (branch : Z)
  : M (bool * Z) :=
  model <- lift (alph model) ;;
  s <- get ;;
  tryAddModel <- add_model model branch (NumModels s) ;;
  if tryAddModel then
    s <- get ;;
    let model_id := NumModels s in
    modify (fun s =>
      s <| HighestModelID ::= Z.add 1 |>
        <| model_name_id_map ::= insert model_id model |>
        <| NumModels ::= Z.add 1 |>) ;;
    ret (true, model_id)
  else
    model_id <- model_id_from_name model ;;
    ret (false, model_id).

(** The order in which [list(set(l))] lists the members of a set is
    not fixed by the language; [set_names] and [set_ids] stand for
    it. *)
Variable set_names : list string -> list string.
Variable set_ids : list Z -> list Z.

(** The loop of [new_branch] over the models: the ids, the number of
    models seen before, and their names. *)
Fixpoint register_models (branch : Z) (model_list : list string)
  : M (list Z * Z * list string) :=
  match model_list with
  | [] => ret ([], 0, [])
  | model :: rest =>
      add_model_info <- add_model_to_database model branch ;;
      let '(is_new_model, model_id) := add_model_info in
      (if is_new_model
       then modify (fun s => s <| ModelsBranches ::= insert model_id branch |>)
       else ret tt) ;;
      r <- register_models branch rest ;;
      let '(ids, n, pre) := r in
      ret (model_id :: ids,
           (if is_new_model then n else n + 1),
           (if is_new_model then pre else model :: pre))
  end.

Definition new_branch (growth_rule : string) (model_list : list string)
  : M Z :=
  let model_list := set_names model_list in
  modify (fun s => s <| HighestBranchID ::= Z.add 1 |>) ;;
  s <- get ;;
  let branchID := HighestBranchID s in
  modify (fun s => s <| BranchBayesComputed ::= insert branchID false |>) ;;
  let num_models := Z.of_nat (length model_list) in
  modify (fun s => s <| NumModelsPerBranch ::= insert branchID num_models |>) ;;
  num_pairs <- lift (Tree.num_pairs_in_list num_models) ;;
  modify (fun s =>
    s <| NumModelPairsPerBranch ::= insert branchID num_pairs |>
      <| BranchAllModelsLearned ::= insert branchID false |>
      <| BranchComparisonsComplete ::= insert branchID false |>
      <| Branchget_growth_rule ::= insert branchID growth_rule |>) ;;
  s <- get ;;
  growth_class <- item (UniqueGrowthClasses s) growth_rule ;;
  modify (fun s => s <| BranchGrowthClasses ::= insert branchID growth_class |>) ;;
  r <- register_models branchID model_list ;;
  let '(model_id_list, num_models_already_computed_this_branch,
        pre_computed_models) := r in
  modify (fun s =>
    s <| BranchNumModelsPreComputed ::=
           insert branchID num_models_already_computed_this_branch |>
      <| BranchModels ::= insert branchID model_list |>
      <| BranchPrecomputedModels ::= insert branchID pre_computed_models |>
      <| BranchModelIds ::= insert branchID model_id_list |>) ;;
  ret branchID.

(** *** Dispatch *)

(** Modelled from the spec: [qmla.remote_model_learning.learnModelRemote]
    is not among the sources.  The learner signals a finished model
    through the learned count of its branch in the coordination
    store. *)
Definition learnModelRemote (branch : Z) : M unit :=
  modify (fun s => s <| redis ::= (fun r =>
    r <| active_branches_learning_models ::=
           (fun d => <[branch := default 0 (d !! branch) + 1]> d) |>) |>).

(** [learn_model]: with workers the job is queued and the learner's
    signal comes later, from outside; without them the learner runs
    at once. *)
Definition learn_model (model_name : string) : M unit :=
  exists_ <- check_model_exists model_name ;;
  if exists_ then
    modelID <- model_id_from_name model_name ;;
    s <- get ;;
    branch <- item (ModelsBranches s) modelID ;;
    item (Branchget_growth_rule s) branch ;;
    if use_rq s then ret tt else learnModelRemote branch
  else ret tt.

Definition set_completed (r : row) : row := r <| row_Completed := true |>.

Definition learn_models_on_given_branch (branchID : Z) : M unit :=
  s <- get ;;
  model_list <- item (BranchModels s) branchID ;;
  num_models_already_set_this_branch <-
    item (BranchNumModelsPreComputed s) branchID ;;
  modify (fun s => s <| redis ::= (fun r =>
    r <| active_branches_learning_models ::=
           insert branchID num_models_already_set_this_branch |>) |>) ;;
  precomputed <- item (BranchPrecomputedModels s) branchID ;;
  let unlearned_models_this_branch :=
    set_names (filter (fun m => m ∉ precomputed) model_list) in
  (if decide (unlearned_models_this_branch = [])
   then modify (fun s => s <| ghost_branch_list ::= (fun l => l ++ [branchID]) |>)
   else ret tt) ;;
  for_each unlearned_models_this_branch (fun model_name =>
    learn_model model_name ;;
    modify (fun s => s <| db ::=
      map (fun r => if decide (row_Name r = model_name)
                    then set_completed r else r) |>)).

(** The loop of [get_bayes_factors_by_branch_id] over the pairs. *)
Fixpoint dispatch_pairs (branchID : Z) (recompute : bool)
  (pairs : list (Z * Z)) : M unit :=
  match pairs with
  | [] => ret tt
  | (a, b) :: pairs' =>
      (if decide (a = b) then ret tt
       else
         s <- get ;;
         let unique_id := unique_model_pair_identifier a b in
         if negb (bool_decide (unique_id ∈ bayes_factor_pair_computed s))
            || recompute
         then get_pairwise_bayes_factor a b false (Some branchID) ;; ret tt
         else
           modify (fun s => s <| redis ::= (fun r =>
             r <| active_branches_bayes ::=
                    (fun d => <[branchID := default 0 (d !! branchID) + 1]> d) |>) |>)) ;;
      dispatch_pairs branchID recompute pairs'
  end.

Definition get_bayes_factors_by_branch_id (branchID : Z) : M unit :=
  s <- get ;;
  model_id_list <- item (BranchModelIds s) branchID ;;
  modify (fun s => s <| redis ::= (fun r =>
    r <| active_branches_bayes ::= insert branchID 0 |>) |>) ;;
  dispatch_pairs branchID false (index_pairs model_id_list).

(** *** Spawning *)

(** What the growth rule is shown when it is asked for the next
    generation. *)
Record growth_input : Type := {
  gi_model_list : list string;
  gi_spawn_step : Z;
  gi_branch_champs_by_qubit_num : gmap Z (list string);
  gi_model_dict : gmap Z (list string);
  gi_current_champs : list string;
  gi_spawn_stage : list (option string);
  gi_branch_model_points : list (Z * Z);
  gi_model_names_ids : gmap Z string
}.

(** The external growth rule, by the name of its class: the names it
    proposes together with the spawn stage it leaves (a list that
    starts as [[None]]), and its verdict on whether the tree is
    complete. *)
Variable generate_models :
  string -> growth_input -> list string * list (option string).
Variable check_tree_completed : string -> Z -> Z -> bool.

(** [l[0]] *)
Definition first_item {A} (l : list A) : M A :=
  match l with
  | x :: _ => ret x
  | [] => raise IndexError
  end.

Fixpoint names_of (ids : list Z) : M (list string) :=
  match ids with
  | [] => ret []
  | i :: ids' =>
      s <- get ;;
      n <- item (model_name_id_map s) i ;;
      ns <- names_of ids' ;;
      ret (n :: ns)
  end.

(** [spawn_from_branch].  The champions shown to the growth rule are
    listed by branch id here; the source lists them in the order in
    which the branches got their first champion. *)
Definition spawn_from_branch (branchID : Z) (growth_rule : string)
  (num_models : nat) : M bool :=
  s <- get ;;
  depth_now <- item (spawn_depthByGrowthRule s) growth_rule ;;
  modify (fun s =>
    s <| spawn_depthByGrowthRule ::= insert growth_rule (depth_now + 1) |>
      <| spawn_depth ::= Z.add 1 |>) ;;
  all_models_this_branch <- item (branch_rankings s) branchID ;;
  let best_models := take num_models all_models_this_branch in
  best_model_names <- names_of best_models ;;
  current_champs <- names_of (map snd (map_to_list (BranchChampions s))) ;;
  growth_class <- item (BranchGrowthClasses s) branchID ;;
  champs_by_qubits <- item (BranchChampsByNumQubits s) growth_rule ;;
  spawn_stage <- item (SpawnStage s) growth_rule ;;
  branch_model_points <- item (branch_bayes_points s) branchID ;;
  let '(proposed, spawn_stage') :=
    generate_models growth_class
      {| gi_model_list := best_model_names;
         gi_spawn_step := depth_now + 1;
         gi_branch_champs_by_qubit_num := champs_by_qubits;
         gi_model_dict := model_lists s;
         gi_current_champs := current_champs;
         gi_spawn_stage := spawn_stage;
         gi_branch_model_points := branch_model_points;
         gi_model_names_ids := model_name_id_map s |} in
  modify (fun s => s <| SpawnStage ::= insert growth_rule spawn_stage' |>) ;;
  new_models <- lift (map_outcome alph (set_names proposed)) ;;
  new_branch_id <- new_branch growth_rule new_models ;;
  modify (fun s => s <| branch_parents ::= insert new_branch_id branchID |>) ;;
  new_model_dimension <-
    try_except
      (m <- first_item new_models ;; lift (get_num_qubits m))
      (m <- first_item best_model_names ;; lift (get_num_qubits m)) ;;
  learn_models_on_given_branch new_branch_id ;;
  let tree_completed :=
    check_tree_completed growth_class (depth_now + 1) new_model_dimension in
  match last spawn_stage' with
  | Some stage =>
      ret (if bool_decide (stage = Some "Complete"%string) then true
           else tree_completed)
  | None => raise IndexError
  end.

(** *** The generation loop of [run_complete_qmla] *)

Definition inspect_remote_job_crashes : M unit :=
  s <- get ;;
  if any_job_failed (redis s) then raise (NameError "Remote QML Failure")
  else ret tt.

(** [int(count) == self.NumModelPairsPerBranch[branchID]] *)
Definition equals_number (count : Z) (n : Tree.number) : bool :=
  match Tree.number_value n with
  | Some v => count =? v
  | None => false
  end.

Definition poll_learning (branchID : Z) : M unit :=
  s <- get ;;
  learned <- item (active_branches_learning_models (redis s)) branchID ;;
  num <- item (NumModelsPerBranch s) branchID ;;
  if learned =? num then
    all_learned <- item (BranchAllModelsLearned s) branchID ;;
    if all_learned then ret tt
    else
      modify (fun s => s <| BranchAllModelsLearned ::= insert branchID true |>) ;;
      models_this_branch <- item (BranchModelIds s) branchID ;;
      for_each models_this_branch
        (fun mod_id => get_model_storage_instance_by_id mod_id ;; ret tt) ;;
      get_bayes_factors_by_branch_id branchID
  else ret tt.

Definition poll_comparisons (depth : nat) (branchID : Z) : M unit :=
  s <- get ;;
  bayes_calculated <- item (active_branches_bayes (redis s)) branchID ;;
  pairs <- item (NumModelPairsPerBranch s) branchID ;;
  if equals_number bayes_calculated pairs then
    complete <- item (BranchComparisonsComplete s) branchID ;;
    if complete then ret tt
    else
      modify (fun s => s <| BranchComparisonsComplete ::= insert branchID true |>) ;;
      compare_all_models_in_branch depth branchID ;;
      s <- get ;;
      this_branch_growth_rule <- item (Branchget_growth_rule s) branchID ;;
      tree_done <- item (TreesCompleted s) this_branch_growth_rule ;;
      if tree_done then ret tt
      else
        growth_rule_tree_complete <-
          spawn_from_branch branchID this_branch_growth_rule 1 ;;
        if growth_rule_tree_complete then
          modify (fun s =>
            s <| TreesCompleted ::= insert this_branch_growth_rule true |>
              <| NumTreesCompleted ::= Z.add 1 |>)
        else ret tt
  else ret tt.

(** What the workers have done to the stores by the time of the
    [n]-th poll. *)
Variable workers : nat -> redis_databases -> redis_databases.

(** One turn of [while self.NumTreesCompleted < self.NumTrees]. *)
Definition generation_turn (depth : nat) (n : nat) : M unit :=
  modify (fun s => s <| redis ::= workers n |>) ;;
  s <- get ;;
  let branch_ids_on_db :=
    map fst (map_to_list (active_branches_learning_models (redis s))) in
  inspect_remote_job_crashes ;;
  for_each branch_ids_on_db poll_learning ;;
  s <- get ;;
  for_each (map fst (map_to_list (active_branches_bayes (redis s))))
    (poll_comparisons depth).

(** The loop, for at most [turns] polls; [None] when the trees are
    not complete by then. *)
Fixpoint generation_loop (depth : nat) (turns : nat) (n : nat)
  : qmla -> option (outcome unit) * qmla :=
  fun s =>
    if NumTreesCompleted s <? NumTrees s then
      match turns with
      | O => (None, s)
      | S turns' =>
          match generation_turn depth n s with
          | (Ok _, s') => generation_loop depth turns' (S n) s'
          | (Raise e, s') => (Some (Raise e), s')
          end
      end
    else (Some (Ok tt), s).

(** *** Final reconciliation: parents against children

    The first part of [perform_final_bayes_comparisons], up to the
    new [ActiveBranchChampList]. *)

Definition interbranch_collapse_threshold : float := PyFloat.lit 100000.

(** The first loop queues a comparison of every active child with
    the champion of its parent branch. *)
Definition queue_parent_child (child_id : Z) : M (list (option job)) :=
  s <- get ;;
  child_branch <- item (ModelsBranches s) child_id ;;
  try_except
    (parent_branch <- item (branch_parents s) child_branch ;;
     parent_id <- item (BranchChampions s) parent_branch ;;
     s <- get ;;
     if bool_decide (child_id ∈ ActiveBranchChampList s)
        && bool_decide (parent_id ∈ ActiveBranchChampList s)
     then
       j <- get_pairwise_bayes_factor parent_id child_id true None ;;
       ret [j]
     else ret [])
    (ret []).

Fixpoint queue_all (children : list Z) : M (list (option job)) :=
  match children with
  | [] => ret []
  | c :: rest =>
      js <- queue_parent_child c ;;
      js' <- queue_all rest ;;
      ret (js ++ js')
  end.

Definition queue_parent_child_comparisons : M unit :=
  s <- get ;;
  job_list <- queue_all (ActiveBranchChampList s) ;;
  s <- get ;;
  if use_rq s then for_each job_list wait_for else ret tt.

(** The body of the second loop for one child.  The statements of its
    [try] come in three runs: the look-ups and the reading of the
    ratio, which can raise before anything is written; the verdict
    with its status update and its entry in [models_to_remove], which
    cannot raise; and the update of the two caches, which can raise
    after the verdict has been noted.  One handler catches all of
    them and goes on to the next child.  The list handed back is
    [models_to_remove] after this turn. *)
Definition collapse_pair (child_id : Z) (models_to_remove : list Z)
  : M (list Z) :=
  s <- get ;;
  child_branch <- item (ModelsBranches s) child_id ;;
  try_except
    (parent_branch <- item (branch_parents s) child_branch ;;
     parent_id <- item (BranchChampions s) parent_branch ;;
     let mod1 := Z.min parent_id child_id in
     let mod2 := Z.max parent_id child_id in
     let pair_id := unique_model_pair_identifier mod1 mod2 in
     bayes_factor <- match bayes_factors_db (redis s) !! pair_id with
                     | Some x => ret x
                     | None => raise TypeError
                     end ;;
     lower_bound <- lift (PyFloat.div (PyFloat.lit 1)
                            interbranch_collapse_threshold) ;;
     models_to_remove' <-
       (if PyFloat.gtb bayes_factor interbranch_collapse_threshold then
          update_status_by_id mod2 "Deactivated" ;;
          ret (models_to_remove ++ [mod2])
        else if PyFloat.ltb bayes_factor lower_bound then
          update_status_by_id mod1 "Deactivated" ;;
          ret (models_to_remove ++ [mod1])
        else ret models_to_remove) ;;
     try_except
       (get_model_storage_instance_by_id mod1 ;;
        get_model_storage_instance_by_id mod2 ;;
        append_bayes_factor mod1 mod2 bayes_factor ;;
        inv <- lift (PyFloat.div (PyFloat.lit 1) bayes_factor) ;;
        append_bayes_factor mod2 mod1 inv)
       (ret tt) ;;
     ret models_to_remove')
    (ret models_to_remove).

Fixpoint collapse_all (children : list Z) (models_to_remove : list Z)
  : M (list Z) :=
  match children with
  | [] => ret models_to_remove
  | c :: rest =>
      models_to_remove' <- collapse_pair c models_to_remove ;;
      collapse_all rest models_to_remove'
  end.

(** The second loop and the new list of active champions,
    [list(set(ActiveBranchChampList) - set(models_to_remove))]. *)
Definition deactivate_collapsed : M unit :=
  s <- get ;;
  models_to_remove <- collapse_all (ActiveBranchChampList s) [] ;;
  modify (fun s => s <| ActiveBranchChampList ::=
    (fun l => set_ids (filter (fun m => m ∉ models_to_remove) l)) |>).

Definition parent_child_collapse : M unit :=
  queue_parent_child_comparisons ;;
  deactivate_collapsed.

(** The champions that go into the ghost branch of each growth rule,
    [self.ActiveTreeBranchChamps]. *)
Fixpoint group_by_tree (champs : list Z) (d : gmap string (list Z))
  : M (gmap string (list Z)) :=
  match champs with
  | [] => ret d
  | active_champ :: rest =>
      s <- get ;;
      branch_id_of_champ <- item (ModelsBranches s) active_champ ;;
      gen <- item (Branchget_growth_rule s) branch_id_of_champ ;;
      members <- item d gen ;;
      group_by_tree rest (<[gen := members ++ [active_champ]]> d)
  end.

Definition ActiveTreeBranchChamps : M (gmap string (list Z)) :=
  s <- get ;;
  group_by_tree (ActiveBranchChampList s)
    (list_to_map (map (fun gen => (gen, [])) (growth_rules_list s))).

End Agent.

(** *** After the generation loop *)

(** [database_framework.all_active_model_ids] *)
Definition all_active_model_ids (d : list row) : list Z :=
  map row_ModelID (filter (fun r => row_Status r = "Active"%string) d).

(** [sorted(d, reverse=True)] on a dictionary with integer keys: the
    keys, larger first. *)
Fixpoint insert_id_desc (k : Z) (l : list Z) : list Z :=
  match l with
  | [] => [k]
  | k' :: l' => if k' <? k then k :: l else k' :: insert_id_desc k l'
  end.

Definition sorted_ids_desc (d : list (Z * Z)) : list Z :=
  fold_left (fun acc kv => insert_id_desc (fst kv) acc) d [].

(** The last part of [perform_final_bayes_comparisons], from the
    reading of the active models on.  The method hands back the name
    of the champion and the names of the active models;
    [ranked_champions], which it stores on the agent, is handed back
    with them as the third component, and [SurvivingChampions], a
    second reading of the active models, is not kept. *)
Definition final_champion_comparison
  (Comparator : nat -> Z -> Z -> PyFloat.float) (depth : nat)
  : M (string * list string * list Z) :=
  s <- get ;;
  let active_models := all_active_model_ids (db s) in
  get_bayes_factors_from_list Comparator active_models true true ;;
  branch_champions_points <-
    award_points (index_pairs active_models) (zero_points active_models) ;;
  let ranked_champions := sorted_ids_desc branch_champions_points in
  max_points <- lift (max_value branch_champions_points) ;;
  let max_points_branches := keys_with max_points branch_champions_points in
  champ_id <-
    (if 1 <? Z.of_nat (length max_points_branches) then
       compare_models_from_list Comparator depth max_points_branches
     else lift (argmax branch_champions_points)) ;;
  s <- get ;;
  champ_name <- item (model_name_id_map s) champ_id ;;
  branch_champ_names <- names_of active_models ;;
  update_status_by_name champ_name "Active" ;;
  ret (champ_name, branch_champ_names, ranked_champions).





End QMLA.

(** * Vocabulary of the properties *)

Module Spec.

Import QMLA DatabaseFramework.
Local Open Scope qmla_scope.

(** [score(a, b) == 1 / score(b, a)] *)
Definition reciprocal_scores (s : qmla) (a b : Z) : Prop :=
  exists x y q : PyFloat.float,
    score s a b = Some x /\ score s b a = Some y
    /\ PyFloat.div (PyFloat.lit 1) y = Ok q /\ PyFloat.eqb x q = true.

(** Evaluations of branches one after the other, whatever each of them
    returns or raises: [(depth, branchID)] per call. *)
Definition run_evaluations (Comparator : nat -> Z -> Z -> PyFloat.float)
  (evals : list (nat * Z)) (s : qmla) : qmla :=
  fold_left
    (fun s e => snd (compare_all_models_in_branch Comparator (fst e) (snd e) s))
    evals s.

(** A computation keeps a relation between the state it starts in and
    the state it leaves. *)
Definition frame {A} (R : qmla -> qmla -> Prop) (c : M A) : Prop :=
  forall s, R s (snd (c s)).

(** A computation that returns from a state in [P] returns a value and a
    state in [Q]. *)
Definition triple {A} (P : qmla -> Prop) (c : M A) (Q : A -> qmla -> Prop)
  : Prop :=
  forall s a s', P s -> c s = (Ok a, s') -> Q a s'.

Definition keeps (P : qmla -> Prop) (s s' : qmla) : Prop := P s -> P s'.

(** Once the flag of branch [b] is set, its ranking and its flag stay. *)
Definition ranking_kept (b : Z) (s s' : qmla) : Prop :=
  BranchBayesComputed s !! b = Some true ->
  branch_rankings s' !! b = branch_rankings s !! b
  /\ BranchBayesComputed s' !! b = Some true.

Definition not_yet (b : Z) (s : qmla) : Prop :=
  BranchBayesComputed s !! b = Some false.

Definition frozen_as (b : Z) (l : list Z) (s : qmla) : Prop :=
  branch_rankings s !! b = Some l /\ BranchBayesComputed s !! b = Some true.






(** The state after the name [c], of [q] qubits, has been registered as
    a new model from branch [branch]: its row, its place in the bucket
    of its qubit count, its id and the counters. *)
Definition registered (c : string) (q branch : Z) (s : qmla) : qmla :=
  s <| model_lists ::= (fun d => <[q := default [] (d !! q) ++ [c]]> d) |>
    <| db ::= (fun d => d ++ [new_row c (NumModels s) branch]) |>
    <| HighestModelID ::= Z.add 1 |>
    <| model_name_id_map ::= insert (NumModels s) c |>
    <| NumModels ::= Z.add 1 |>.

(** What the tables say of a branch without models. *)
Definition empty_branch (b : Z) (s : qmla) : Prop :=
  BranchModels s !! b = Some []
  /\ BranchModelIds s !! b = Some []
  /\ BranchPrecomputedModels s !! b = Some []
  /\ BranchNumModelsPreComputed s !! b = Some 0
  /\ NumModelsPerBranch s !! b = Some 0
  /\ NumModelPairsPerBranch s !! b = Some (Tree.Int 0)
  /\ BranchAllModelsLearned s !! b = Some false
  /\ BranchComparisonsComplete s !! b = Some false.

(** The float [1.0 / 1e5]. *)
Definition collapse_lower_bound : PyFloat.float :=
  Eval vm_compute in
    SFdiv PyFloat.prec PyFloat.emax (PyFloat.lit 1) interbranch_collapse_threshold.

(** The model that the parent/child collapse decides against when it
    considers the active champion [child_id]: the branch is the one
    the child was first registered on, the opponent is the champion of
    that branch's parent, and the stored ratio of the pair has to lie
    beyond the collapse threshold on one side. *)
Definition collapse_loser (s : qmla) (child_id : Z) : option Z :=
  child_branch ← ModelsBranches s !! child_id;
  parent_branch ← branch_parents s !! child_branch;
  parent_id ← BranchChampions s !! parent_branch;
  let mod1 := Z.min parent_id child_id in
  let mod2 := Z.max parent_id child_id in
  ratio ← bayes_factors_db (redis s) !! unique_model_pair_identifier mod1 mod2;
  if PyFloat.gtb ratio interbranch_collapse_threshold then Some mod2
  else if PyFloat.ltb ratio collapse_lower_bound then Some mod1
  else None.

Definition collapse_losers (s : qmla) : list Z :=
  omap (collapse_loser s) (ActiveBranchChampList s).

(** The table as far as the collapse is concerned: the ids with their
    status, row by row. *)
Definition id_and_status (r : row) : Z * string := (row_ModelID r, row_Status r).

Definition deactivate (losers : list Z) (r : Z * string) : Z * string :=
  (fst r, if bool_decide (fst r ∈ losers) then "Deactivated"%string else snd r).

(** Between [s] and [s'] the tables the collapse reads are the same,
    and of the rows only the status of the [losers] has changed (the
    caches of ratios apart). *)
Definition only_rows (losers : list Z) (s s' : qmla) : Prop :=
  ModelsBranches s' = ModelsBranches s
  /\ branch_parents s' = branch_parents s
  /\ BranchChampions s' = BranchChampions s
  /\ redis s' = redis s
  /\ ActiveBranchChampList s' = ActiveBranchChampList s
  /\ map id_and_status (db s') = map (deactivate losers) (map id_and_status (db s)).

(** *** Vocabulary of the further properties *)

(** [s[n:]] *)
Fixpoint drop_chars (n : nat) (s : string) : string :=
  match n, s with
  | O, _ => s
  | S k, String _ s' => drop_chars k s'
  | S _, EmptyString => EmptyString
  end.

(** The number of characters of the strings of a list. *)
Definition total_length (l : list string) : nat :=
  fold_right (fun p n => (String.length p + n)%nat) 0%nat l.

(** The string of [n] times the letter [c]. *)
Definition run_of (c : ascii) (n : nat) : string :=
  string_of_list_ascii (repeat c n).

(** The markers of [get_num_qubits] that a term can contain. *)
Definition dimension_marker (term : string) : bool :=
  PyStr.contains term "1Dising"%string
  || PyStr.contains term "Heis"%string
  || PyStr.contains term "nv"%string
  || PyStr.contains term "pauliSet"%string
  || PyStr.contains term "transverse"%string
  || PyStr.contains term "FH"%string.

(** The growth rule of the branch a model was first registered on. *)
Definition growth_rule_of (s : qmla) (model_id : Z) : option string :=
  branch ← ModelsBranches s !! model_id; Branchget_growth_rule s !! branch.

(** What identifies a row: its id, its name and its branch. *)
Definition row_identity (r : row) : Z * string * Z :=
  (row_ModelID r, row_Name r, row_branchID r).

(** Between [s] and [s'] no model was registered and no branch was
    created or changed, and the rows are the same models in the same
    order. *)
Definition same_registry (s s' : qmla) : Prop :=
  NumModels s' = NumModels s
  /\ HighestModelID s' = HighestModelID s
  /\ model_name_id_map s' = model_name_id_map s
  /\ model_lists s' = model_lists s
  /\ ModelsBranches s' = ModelsBranches s
  /\ HighestBranchID s' = HighestBranchID s
  /\ BranchModels s' = BranchModels s
  /\ BranchModelIds s' = BranchModelIds s
  /\ BranchPrecomputedModels s' = BranchPrecomputedModels s
  /\ NumModelsPerBranch s' = NumModelsPerBranch s
  /\ NumModelPairsPerBranch s' = NumModelPairsPerBranch s
  /\ branch_parents s' = branch_parents s
  /\ map row_identity (db s') = map row_identity (db s).

(** The list of the pairs that have been handed to the comparator only
    grows, and it stays free of repetitions if it was. *)
Definition pairs_grow (s s' : qmla) : Prop :=
  (forall p, p ∈ bayes_factor_pair_computed s ->
             p ∈ bayes_factor_pair_computed s')
  /\ (NoDup (bayes_factor_pair_computed s) ->
      NoDup (bayes_factor_pair_computed s')).

(** Branch [b] has the champion [champ], which is among the active
    champions. *)
Definition crowned (b champ : Z) (s : qmla) : Prop :=
  BranchChampions s !! b = Some champ /\ champ ∈ ActiveBranchChampList s.

(** The points of a model in a table, 0 for a model without entry. *)
Definition points_of (pts : list (Z * Z)) (m : Z) : Z :=
  default 0 (dict_get m pts).

(** No model of the list comes before one with more points. *)
Definition by_points (pts : list (Z * Z)) (l : list Z) : Prop :=
  StronglySorted (fun a c => points_of pts c <= points_of pts a) l.

(** The sum of the points of a table. *)
Definition total_points (pts : list (Z * Z)) : Z :=
  fold_right Z.add 0 (map snd pts).

(** The pairs of two different models. *)
Definition off_diagonal (pairs : list (Z * Z)) : list (Z * Z) :=
  filter (fun p => fst p <> snd p) pairs.

(** The count of completed comparisons of a branch in the store. *)
Definition bayes_count (b : Z) (s : qmla) : Z :=
  default 0 (active_branches_bayes (redis s) !! b).

(** What a dispatch with workers leaves as it was: the switch, the
    results of the store and the number of answered jobs. *)
Definition no_job_ran (s s' : qmla) : Prop :=
  use_rq s' = use_rq s
  /\ bayes_factors_db (redis s') = bayes_factors_db (redis s)
  /\ jobs_done s' = jobs_done s.

(** What decides whether a poll hands a branch over to the
    comparisons: the learned counts of the store, the sizes of the
    branches and the flags of the branches handed over. *)
Definition same_learning (s s' : qmla) : Prop :=
  active_branches_learning_models (redis s')
    = active_branches_learning_models (redis s)
  /\ NumModelsPerBranch s' = NumModelsPerBranch s
  /\ BranchAllModelsLearned s' = BranchAllModelsLearned s.

(** The separator at which [get_constituent_names_from_name] cuts. *)
Definition constituent_separator (name : string) : string :=
  if existsb (PyStr.contains name) ["T"%string; "P"%string; "M"%string]
  then snd (find_max_letter name "P")
  else "+"%string.

(** The letter [c] does not occur in [t]. *)
Definition free_of (c : ascii) (t : string) : bool :=
  forallb (fun a => negb (Ascii.eqb a c)) (list_ascii_of_string t).

(** A term of a flat sum: not empty, and without the letters [T], [P]
    and [M] that [alph] cuts at. *)
Definition plain_term (t : string) : bool :=
  negb (String.eqb t "") && free_of "T" t && free_of "P" t && free_of "M" t.



End Spec.

(** * Concrete states *)

Module Scenario.

Import QMLA.

Definition mkrow (n : string) (i b : Z) (c : gmap Z (list PyFloat.float)) : row :=
  {| row_Name := n; row_ModelID := i; row_branchID := b; row_Status := "Ready";
     row_Completed := true; row_BayesFactors := c |}.

Definition store (l : list (Z * Z * PyFloat.float)) : redis_databases :=
  {| bayes_factors_db := list_to_map l; active_branches_learning_models := ∅;
     active_branches_bayes := ∅; any_job_failed := false |}.

(** An agent with the threshold T = 5, one growth rule and nothing
    registered. *)
Definition blank : qmla :=
  {| BayesLower := PyFloat.lit 5; BayesUpper := PyFloat.lit 100; use_rq := true;
     growth_rules_list := ["g"%string];
     UniqueGrowthClasses := {["g"%string := "g"%string]};
     db := []; model_lists := ∅; redis := store [];
     model_name_id_map := ∅; NumModels := 0; HighestModelID := 0;
     ModelsBranches := ∅; bayes_factor_pair_computed := [];
     HighestBranchID := 0; BranchModels := ∅; BranchModelIds := ∅;
     BranchPrecomputedModels := ∅; BranchNumModelsPreComputed := ∅;
     NumModelsPerBranch := ∅; NumModelPairsPerBranch := ∅;
     BranchAllModelsLearned := ∅; BranchComparisonsComplete := ∅;
     BranchBayesComputed := ∅; Branchget_growth_rule := ∅;
     BranchGrowthClasses := ∅; branch_parents := ∅; ghost_branch_list := [];
     branch_rankings := ∅; branch_bayes_points := ∅; BranchChampions := ∅;
     ActiveBranchChampList := []; BranchChampsByNumQubits := ∅;
     TreesCompleted := ∅; NumTreesCompleted := 0; NumTrees := 1;
     spawn_depthByGrowthRule := ∅; spawn_depth := 0; SpawnStage := ∅;
     jobs_done := 0 |}.

Definition ten : PyFloat.float := PyFloat.lit 10.
Definition two : PyFloat.float := PyFloat.lit 2.
Definition forty_nine : PyFloat.float := PyFloat.lit 49.
(** the float 0.1 *)
Definition tenth : PyFloat.float :=
  Eval vm_compute in SFdiv PyFloat.prec PyFloat.emax (PyFloat.lit 1) (PyFloat.lit 10).

(** A comparator that is never asked in the scenarios below that do not
    recompute. *)
Definition silent (n : nat) (a b : Z) : PyFloat.float := PyFloat.lit 1.

(** Branch 0 with the models A = 0, B = 1, C = 2 and the given ratios
    A/B, A/C and B/C. *)
Definition branch_ABC (ab ac bc : PyFloat.float) : qmla :=
  blank <| db := [mkrow "x" 0 0 ∅; mkrow "y" 1 0 ∅; mkrow "z" 2 0 ∅] |>
        <| model_name_id_map :=
             list_to_map [(0, "x"%string); (1, "y"%string); (2, "z"%string)] |>
        <| BranchModelIds := {[0 := [0; 1; 2]]} |>
        <| BranchBayesComputed := {[0 := false]} |>
        <| Branchget_growth_rule := {[0 := "g"%string]} |>
        <| BranchChampsByNumQubits := {["g"%string := ∅]} |>
        <| redis := store [((0, 1), ab); ((0, 2), ac); ((1, 2), bc)] |>.

(** The scenario of the specification: T = 5, A/B = 10, A/C = 0.1,
    B/C = 2. *)
Definition spec_scenario : qmla := branch_ABC ten tenth two.

(** A decided branch: A beats B and C, B beats C. *)
Definition decided : qmla := branch_ABC ten forty_nine ten.

(** Two models whose stored ratio is 49. *)
Definition pair_49 : qmla :=
  blank <| db := [mkrow "x" 0 0 ∅; mkrow "y" 1 0 ∅] |>
        <| redis := store [((0, 1), forty_nine)] |>.

(** A comparator that keeps answering in a cycle: 0 beats 1, 1 beats 2
    and 2 beats 0. *)
Definition cyclic (n : nat) (a b : Z) : PyFloat.float :=
  if (a =? 0) && (b =? 2) then tenth else ten.







(** *** The registry *)

(** Nothing registered yet, with the buckets of one and two qubits. *)
Definition empty_registry : qmla :=
  blank <| model_lists := list_to_map [(1, []); (2, [])] |>.

Definition once_registered : qmla :=
  snd (add_model_to_database "zPiPPy" 1 empty_registry).

(** *** A growth rule that has nothing left to propose *)

(** It proposes no model and leaves the spawn stage as it found it, so
    it does not say that it is complete; its tree has no bound either. *)
Definition exhausted (growth_class : string) (shown : growth_input)
  : list string * list (option string) := ([], gi_spawn_stage shown).

Definition unbounded (growth_class : string) (spawn_step num_qubits : Z)
  : bool := false.

(** Workers that report nothing. *)
Definition idle (n : nat) (r : redis_databases) : redis_databases := r.

(** Branch 0 of the growth rule, with its one model learned and its
    comparisons (there are none to make) not yet looked at. *)
Definition learned_parent : qmla :=
  blank <| db := [mkrow "x" 0 0 ∅] |>
        <| model_lists := {[1 := ["x"%string]]} |>
        <| model_name_id_map := {[0 := "x"%string]} |>
        <| NumModels := 1 |> <| HighestModelID := 1 |>
        <| ModelsBranches := {[0 := 0]} |>
        <| BranchModels := {[0 := ["x"%string]]} |>
        <| BranchModelIds := {[0 := [0]]} |>
        <| BranchPrecomputedModels := {[0 := []]} |>
        <| BranchNumModelsPreComputed := {[0 := 0]} |>
        <| NumModelsPerBranch := {[0 := 1]} |>
        <| NumModelPairsPerBranch := {[0 := Tree.Int 0]} |>
        <| BranchAllModelsLearned := {[0 := true]} |>
        <| BranchComparisonsComplete := {[0 := false]} |>
        <| BranchBayesComputed := {[0 := false]} |>
        <| Branchget_growth_rule := {[0 := "g"%string]} |>
        <| BranchGrowthClasses := {[0 := "g"%string]} |>
        <| BranchChampsByNumQubits := {["g"%string := ∅]} |>
        <| TreesCompleted := {["g"%string := false]} |>
        <| spawn_depthByGrowthRule := {["g"%string := 0]} |>
        <| SpawnStage := {["g"%string := [None]]} |>
        <| redis := {| bayes_factors_db := ∅;
                       active_branches_learning_models := {[0 := 1]};
                       active_branches_bayes := {[0 := 0]};
                       any_job_failed := false |} |>.

(** The same branch once its tournament has been held. *)
Definition ranked_parent : qmla :=
  snd (compare_all_models_in_branch silent 100 0
         (learned_parent <| BranchComparisonsComplete := {[0 := true]} |>)).

(** *** A failing worker *)


(** *** Parents and children *)

(** The float 1e6. *)
Definition million : PyFloat.float := PyFloat.lit 1000000.

Definition active_row (n : string) (i b : Z) : row :=
  set_status "Active" (mkrow n i b ∅).

(** The scenario of the specification: the champion P = 0 of branch 0
    and the champion Q = 1 of its child, branch 1, with the ratio 1e6
    stored for the pair. *)
Definition parent_and_child : qmla :=
  blank <| db := [active_row "x" 0 0; active_row "y" 1 1] |>
        <| model_name_id_map := list_to_map [(0, "x"%string); (1, "y"%string)] |>
        <| ModelsBranches := list_to_map [(0, 0); (1, 1)] |>
        <| BranchModelIds := list_to_map [(0, [0]); (1, [1])] |>
        <| Branchget_growth_rule :=
             list_to_map [(0, "g"%string); (1, "g"%string)] |>
        <| branch_parents := {[1 := 0]} |>
        <| BranchChampions := list_to_map [(0, 0); (1, 1)] |>
        <| ActiveBranchChampList := [0; 1] |>
        <| redis := store [((0, 1), million)] |>.

(** The same two champions, but the child branch proposed model 1
    again after branch 0 had registered it, next to a new model 2 that
    lost: model 1 is the champion of branch 1 and is recorded on
    branch 0. *)
Definition reproposed_champion : qmla :=
  blank <| db := [active_row "x" 0 0; active_row "y" 1 0;
                  set_status "Deactivated" (mkrow "z" 2 1 ∅)] |>
        <| model_name_id_map :=
             list_to_map [(0, "x"%string); (1, "y"%string); (2, "z"%string)] |>
        <| ModelsBranches := list_to_map [(0, 0); (1, 0); (2, 1)] |>
        <| BranchModelIds := list_to_map [(0, [0; 1]); (1, [1; 2])] |>
        <| Branchget_growth_rule :=
             list_to_map [(0, "g"%string); (1, "g"%string)] |>
        <| branch_parents := {[1 := 0]} |>
        <| BranchChampions := list_to_map [(0, 0); (1, 1)] |>
        <| ActiveBranchChampList := [0; 1] |>
        <| redis := store [((0, 1), million)] |>.

(** A comparator that answers 1e6 whenever it is asked. *)
Definition favours_lower (n : nat) (a b : Z) : PyFloat.float := million.

(** *** Runs of the scenarios *)

(** The exhausted growth rule is asked for the next generation. *)
Definition spawned_nothing : outcome bool * qmla :=
  spawn_from_branch remove_dups exhausted unbounded 0 "g" 1 ranked_parent.

(** The generation loop on the learned branch while the growth rule is
    exhausted and the workers are idle, for [turns] polls. *)
Definition exhausted_run (turns : nat) : option (outcome unit) * qmla :=
  generation_loop silent remove_dups exhausted unbounded idle 100 turns 0
    learned_parent.


(** Both loops of the collapse on the re-proposed champion. *)
Definition collapse_of_reproposed : outcome unit * qmla :=
  parent_child_collapse favours_lower remove_dups reproposed_champion.

(** Branch 1 proposes again what branch 0 has learned. *)
Definition reproposed_branch : qmla :=
  learned_parent <| BranchModels ::= insert 1 ["x"%string] |>
                 <| BranchPrecomputedModels ::= insert 1 ["x"%string] |>
                 <| BranchNumModelsPreComputed ::= insert 1 1 |>.

(** Branch 0 of the decided scenario when its three models have just
    been learned and it has not been handed to the comparisons. *)
Definition just_learned : qmla :=
  decided <| NumModelsPerBranch := {[0 := 3]} |>
          <| BranchAllModelsLearned := {[0 := false]} |>
          <| redis ::= (fun r =>
               r <| active_branches_learning_models := {[0 := 3]} |>) |>.




End Scenario.

(** * Properties *)

Import QMLA DatabaseFramework Spec Scenario.
Local Open Scope qmla_scope.

(** ** The monad *)

Lemma bind_ok {A B} (c : M A) (k : A -> M B) (s : qmla) (a : A) (s' : qmla) :
  c s = (Ok a, s') -> bind c k s = k a s'.
Proof. intros H. unfold bind. rewrite H. reflexivity. Qed.

Lemma bind_raise {A B} (c : M A) (k : A -> M B) (s : qmla) (e : exn) (s' : qmla) :
  c s = (Raise e, s') -> bind c k s = (Raise e, s').
Proof. intros H. unfold bind. rewrite H. reflexivity. Qed.

Section Frames.

Variable R : qmla -> qmla -> Prop.
Hypothesis R_refl : forall s, R s s.
Hypothesis R_trans : forall s1 s2 s3, R s1 s2 -> R s2 s3 -> R s1 s3.

Lemma frame_ret {A} (a : A) : frame R (ret a).
Proof. intros s. apply R_refl. Qed.

Lemma frame_raise {A} (e : exn) : frame R (@raise A e).
Proof. intros s. apply R_refl. Qed.

Lemma frame_lift {A} (x : outcome A) : frame R (lift x).
Proof. intros s. apply R_refl. Qed.

Lemma frame_get : frame R get.
Proof. intros s. apply R_refl. Qed.

Lemma frame_item `{Countable K} {V} (d : gmap K V) (k : K) : frame R (item d k).
Proof. intros s. unfold item. destruct (d !! k); apply R_refl. Qed.

Lemma frame_modify (f : qmla -> qmla) :
  (forall s, R s (f s)) -> frame R (modify f).
Proof. intros Hf s. apply Hf. Qed.

Lemma frame_bind {A B} (c : M A) (k : A -> M B) :
  frame R c -> (forall a, frame R (k a)) -> frame R (bind c k).
Proof.
  intros Hc Hk s. unfold bind. specialize (Hc s).
  destruct (c s) as [[a|e] s1]; cbn [snd] in *.
  - eapply R_trans; [exact Hc|]. apply Hk.
  - exact Hc.
Qed.

Lemma frame_try_except {A} (c h : M A) :
  frame R c -> frame R h -> frame R (try_except c h).
Proof.
  intros Hc Hh s. unfold try_except. specialize (Hc s).
  destruct (c s) as [[a|e] s1]; cbn [snd] in *.
  - exact Hc.
  - eapply R_trans; [exact Hc|]. apply Hh.
Qed.

Lemma frame_for_each {A} (l : list A) (body : A -> M unit) :
  (forall x, frame R (body x)) -> frame R (for_each l body).
Proof.
  intros Hb. induction l as [|x l IH]; cbn [for_each].
  - apply frame_ret.
  - apply frame_bind; [apply Hb|]. intros _. exact IH.
Qed.

End Frames.

Ltac frame_step refl trans :=
  first
    [ apply (frame_bind _ trans); [|intros ?]
    | apply (frame_ret _ refl)
    | apply (frame_raise _ refl)
    | apply (frame_lift _ refl)
    | apply (frame_get _ refl)
    | apply (frame_item _ refl)
    | apply (frame_try_except _ trans)
    | apply (frame_for_each _ refl trans); intros ?
    | match goal with
      | |- frame _ (if ?c then _ else _) => destruct c
      | |- frame _ (match ?x with _ => _ end) => destruct x
      end ].

(** [fields] proves the relation for a state whose fields of interest are
    the old ones. *)
Ltac frame_go refl trans fields :=
  repeat first
    [ assumption
    | match goal with H : _ |- frame _ _ => solve [apply H] end
    | apply frame_modify; intros ?;
      repeat match goal with |- context [if ?c then _ else _] => destruct c end;
      apply fields; reflexivity
    | frame_step refl trans ].

Lemma triple_bind {A B} (P : qmla -> Prop) (P' : A -> qmla -> Prop)
  (Q : B -> qmla -> Prop) (c : M A) (k : A -> M B) :
  triple P c P' -> (forall a, triple (P' a) (k a) Q) -> triple P (bind c k) Q.
Proof.
  intros Hc Hk s b s' HP Hrun. unfold bind in Hrun.
  destruct (c s) as [[a|e] s1] eqn:E; [|discriminate Hrun].
  eapply Hk; [|exact Hrun]. eapply Hc; [exact HP|exact E].
Qed.

Lemma triple_frame {A} (P P' : qmla -> Prop) (c : M A) :
  frame (fun s s' => P s -> P' s') c -> triple P c (fun _ => P').
Proof.
  intros Hf s a s' HP Hrun. specialize (Hf s). rewrite Hrun in Hf. exact (Hf HP).
Qed.

Lemma triple_ret {A} (P : qmla -> Prop) (Q : A -> qmla -> Prop) (a : A) :
  (forall s, P s -> Q a s) -> triple P (ret a) Q.
Proof. intros H s a' s' HP Hrun. unfold ret in Hrun. inversion Hrun; subst. auto. Qed.

Lemma keeps_refl (P : qmla -> Prop) (s : qmla) : keeps P s s.
Proof. intros H. exact H. Qed.

Lemma keeps_trans (P : qmla -> Prop) (s1 s2 s3 : qmla) :
  keeps P s1 s2 -> keeps P s2 s3 -> keeps P s1 s3.
Proof. unfold keeps. auto. Qed.

(** ** The pair count (C5) *)

(** The factorial quotient stays exact as long as the odd part of n!/2
    fits the 53 bits of a float, which is up to 22 models. *)
Lemma num_pairs_exact_up_to_22 (n : Z) :
  2 <= n <= 22 ->
  exists r, Tree.num_pairs_in_list n = Ok r
    /\ Tree.number_value r = Some (n * (n - 1) / 2).
Proof.
  intros Hn.
  assert (Hcases : In n (map Z.of_nat (seq 2 21))).
  { replace n with (Z.of_nat (Z.to_nat n)) by lia.
    apply in_map, in_seq. lia. }
  cbn in Hcases.
  repeat (destruct Hcases as [<-|Hcases];
          [eexists; split; vm_compute; reflexivity|]).
  destruct Hcases.
Qed.

(** C5, at its failing input: for 23 models the quotient of the rounded
    factorials is the float next above 253, which denotes no integer, and
    from 171 models on the division overflows, the handler only prints,
    and the return statement finds [a] unbound. *)
Theorem C5_num_pairs_in_list_inexact :
  Tree.num_pairs_in_list 23
    = Ok (Tree.Float (S754_finite false 8901646138474497 (-45)))
  /\ Tree.number_value (Tree.Float (S754_finite false 8901646138474497 (-45)))
     = None
  /\ PyFloat.round_Z 253 = S754_finite false 8901646138474496 (-45)
  /\ Tree.num_pairs_in_list 171 = Raise UnboundLocalError.
Proof.
  split; [vm_compute; reflexivity|].
  split; [vm_compute; reflexivity|].
  split; vm_compute; reflexivity.
Qed.

(** ** Canonical names (C10) *)

(** C10, at its failing input: a second canonicalisation changes the
    name again.  With a run of two P's the pieces are sorted before they
    are canonicalised, so [zPi] is placed as it stands, after [y], and
    turns into [iPz], which belongs before [y]. *)
Theorem C10_alph_not_idempotent :
  alph "zPiPPy" = Ok "yPPiPz"%string
  /\ alph "yPPiPz" = Ok "iPzPPy"%string
  /\ obind (alph "zPiPPy") alph <> alph "zPiPPy".
Proof.
  split; [vm_compute; reflexivity|].
  split; [vm_compute; reflexivity|].
  vm_compute. discriminate.
Qed.

(** ** The caches of the compared pair (C3) *)

Section CacheFacts.

Variable f : row -> row.
Hypothesis f_id : forall r, row_ModelID (f r) = row_ModelID r.

Lemma rows_with_id_update_first_same (m : Z) (d : list row) :
  rows_with_id m (update_first m f d)
  = match rows_with_id m d with
    | [] => []
    | r :: rs => f r :: rs
    end.
Proof.
  unfold rows_with_id.
  induction d as [|r d IH]; [reflexivity|].
  cbn [update_first]. destruct (decide (row_ModelID r = m)) as [E|N].
  - rewrite !filter_cons_True by (rewrite ?f_id; exact E). reflexivity.
  - rewrite !filter_cons_False by exact N. exact IH.
Qed.

Lemma rows_with_id_update_first_other (a m : Z) (d : list row) :
  a <> m -> rows_with_id a (update_first m f d) = rows_with_id a d.
Proof.
  intros Hne. unfold rows_with_id.
  induction d as [|r d IH]; [reflexivity|].
  cbn [update_first]. destruct (decide (row_ModelID r = m)) as [E|N].
  - rewrite !filter_cons_False by (rewrite ?f_id; congruence). reflexivity.
  - destruct (decide (row_ModelID r = a)) as [E'|N'].
    + rewrite !filter_cons_True by exact E'. f_equal. exact IH.
    + rewrite !filter_cons_False by exact N'. exact IH.
Qed.

End CacheFacts.

Lemma record_ratio_id (o : Z) (x : PyFloat.float) (r : row) :
  row_ModelID (record_ratio o x r) = row_ModelID r.
Proof. reflexivity. Qed.

Lemma cache_append_same (s : qmla) (m o : Z) (x : PyFloat.float) :
  rows_with_id m (db s) <> [] ->
  cache (snd (append_bayes_factor m o x s)) m o = cache s m o ++ [x].
Proof.
  intros Hrow. unfold cache, append_bayes_factor, modify.
  cbn -[rows_with_id update_first].
  rewrite rows_with_id_update_first_same by apply record_ratio_id.
  destruct (rows_with_id m (db s)) as [|r rs]; [congruence|].
  cbn. rewrite lookup_insert_eq. reflexivity.
Qed.

Lemma cache_append_other (s : qmla) (m o a b : Z) (x : PyFloat.float) :
  (a, b) <> (m, o) ->
  cache (snd (append_bayes_factor m o x s)) a b = cache s a b.
Proof.
  intros Hne. unfold cache, append_bayes_factor, modify.
  cbn -[rows_with_id update_first].
  destruct (decide (a = m)) as [->|Ham].
  - rewrite rows_with_id_update_first_same by apply record_ratio_id.
    destruct (rows_with_id m (db s)) as [|r rs]; [reflexivity|].
    cbn. rewrite lookup_insert_ne by congruence. reflexivity.
  - rewrite rows_with_id_update_first_other
      by (apply record_ratio_id || exact Ham).
    reflexivity.
Qed.

Lemma rows_append_nonempty (s : qmla) (m o a : Z) (x : PyFloat.float) :
  rows_with_id a (db s) <> [] ->
  rows_with_id a (db (snd (append_bayes_factor m o x s))) <> [].
Proof.
  intros H. unfold append_bayes_factor, modify.
  cbn -[rows_with_id update_first].
  destruct (decide (a = m)) as [->|Ham].
  - rewrite rows_with_id_update_first_same by apply record_ratio_id.
    destruct (rows_with_id m (db s)); [congruence|discriminate].
  - rewrite rows_with_id_update_first_other
      by (apply record_ratio_id || exact Ham).
    exact H.
Qed.

(** C3, as amended: when the comparison of two distinct models [a] and
    [b] is processed without raising, the cache of the lower id for the
    higher one gains the ratio [r] read from the result store and the
    cache of the higher id for the lower one gains the float quotient
    [1.0 / r]; so the score of the higher id against the lower one is
    [1.0 /] the score of the lower id against the higher one. *)
Theorem C3_reciprocal_cache (s s' : qmla) (a b champ : Z) :
  a <> b ->
  processRemoteBayesPair a b s = (Ok champ, s') ->
  exists r inv : PyFloat.float,
    bayes_factors_db (redis s) !! (Z.min a b, Z.max a b) = Some r
    /\ PyFloat.div (PyFloat.lit 1) r = Ok inv
    /\ cache s' (Z.min a b) (Z.max a b) = cache s (Z.min a b) (Z.max a b) ++ [r]
    /\ cache s' (Z.max a b) (Z.min a b) = cache s (Z.max a b) (Z.min a b) ++ [inv]
    /\ score s' (Z.min a b) (Z.max a b) = Some r
    /\ score s' (Z.max a b) (Z.min a b) = Some inv.
Proof.
  intros Hab Hrun.
  assert (Hlh : Z.min a b <> Z.max a b) by lia.
  unfold processRemoteBayesPair in Hrun.
  unfold bind at 1 in Hrun. cbn [get] in Hrun.
  unfold unique_model_pair_identifier in Hrun. cbn [fst snd] in Hrun.
  unfold bind at 1 in Hrun.
  unfold get_model_storage_instance_by_id at 1 in Hrun.
  unfold bind at 1 in Hrun. cbn [get] in Hrun.
  destruct (rows_with_id (Z.min a b) (db s)) as [|rl rls] eqn:Hlow;
    [discriminate Hrun|].
  cbn [ret] in Hrun.
  unfold bind at 1 in Hrun.
  unfold get_model_storage_instance_by_id at 1 in Hrun.
  unfold bind at 1 in Hrun. cbn [get] in Hrun.
  destruct (rows_with_id (Z.max a b) (db s)) as [|rh rhs] eqn:Hhigh;
    [discriminate Hrun|].
  cbn [ret] in Hrun.
  unfold bind at 1 in Hrun.
  destruct (bayes_factors_db (redis s) !! (Z.min a b, Z.max a b)) as [r|] eqn:Hbf;
    [|discriminate Hrun].
  cbn [ret] in Hrun.
  unfold bind at 1 in Hrun.
  destruct (append_bayes_factor (Z.min a b) (Z.max a b) r s) as [o1 s1] eqn:H1.
  assert (Ho1 : o1 = Ok tt)
    by (unfold append_bayes_factor, modify in H1; congruence).
  subst o1.
  unfold bind at 1 in Hrun. unfold lift at 1 in Hrun.
  destruct (PyFloat.div (PyFloat.lit 1) r) as [inv|e] eqn:Hinv;
    [|discriminate Hrun].
  unfold bind at 1 in Hrun.
  destruct (append_bayes_factor (Z.max a b) (Z.min a b) inv s1) as [o2 s2] eqn:H2.
  assert (Ho2 : o2 = Ok tt)
    by (unfold append_bayes_factor, modify in H2; congruence).
  subst o2.
  assert (Hs' : s' = s2).
  { unfold bind, lift, ret, raise in Hrun.
    destruct (PyFloat.gtb r (BayesLower s)); [congruence|].
    destruct (PyFloat.div (PyFloat.lit 1) (BayesLower s)) as [bound|];
      [|discriminate Hrun].
    destruct (PyFloat.ltb r bound); congruence. }
  subst s'.
  assert (Es1 : s1 = snd (append_bayes_factor (Z.min a b) (Z.max a b) r s))
    by (rewrite H1; reflexivity).
  assert (Es2 : s2 = snd (append_bayes_factor (Z.max a b) (Z.min a b) inv s1))
    by (rewrite H2; reflexivity).
  assert (Clow : cache s2 (Z.min a b) (Z.max a b)
                 = cache s (Z.min a b) (Z.max a b) ++ [r]).
  { rewrite Es2, cache_append_other by congruence.
    rewrite Es1. apply cache_append_same. rewrite Hlow. discriminate. }
  assert (Chigh : cache s2 (Z.max a b) (Z.min a b)
                  = cache s (Z.max a b) (Z.min a b) ++ [inv]).
  { rewrite Es2, cache_append_same.
    - rewrite Es1, cache_append_other by congruence. reflexivity.
    - rewrite Es1. apply rows_append_nonempty. rewrite Hhigh. discriminate. }
  exists r, inv. repeat split; try assumption.
  - unfold score. rewrite Clow. apply last_snoc.
  - unfold score. rewrite Chigh. apply last_snoc.
Qed.

Lemma C3_reciprocal_cache_witness :
  0 <> 1
  /\ processRemoteBayesPair 0 1 pair_49
     = (Ok 0, snd (processRemoteBayesPair 0 1 pair_49))
  /\ exists r inv : PyFloat.float,
       bayes_factors_db (redis pair_49) !! (Z.min 0 1, Z.max 0 1) = Some r
       /\ PyFloat.div (PyFloat.lit 1) r = Ok inv
       /\ cache (snd (processRemoteBayesPair 0 1 pair_49)) (Z.min 0 1) (Z.max 0 1)
          = cache pair_49 (Z.min 0 1) (Z.max 0 1) ++ [r]
       /\ cache (snd (processRemoteBayesPair 0 1 pair_49)) (Z.max 0 1) (Z.min 0 1)
          = cache pair_49 (Z.max 0 1) (Z.min 0 1) ++ [inv]
       /\ score (snd (processRemoteBayesPair 0 1 pair_49)) (Z.min 0 1) (Z.max 0 1)
          = Some r
       /\ score (snd (processRemoteBayesPair 0 1 pair_49)) (Z.max 0 1) (Z.min 0 1)
          = Some inv.
Proof.
  split; [lia|]. split; [vm_compute; reflexivity|].
  apply (C3_reciprocal_cache pair_49 _ 0 1 0); [lia|vm_compute; reflexivity].
Defined.

(** C3, as stated, fails for the ratio 49: the comparison of models 0 and
    1 is processed, the caches hold 49 and the float [1.0 / 49], and
    [1.0 / (1.0 / 49)] is the float next above 49, so the score of 0
    against 1 is not the reciprocal of the score of 1 against 0. *)
Lemma C3_counterexample_ratio_49 :
  fst (processRemoteBayesPair 0 1 pair_49) = Ok 0
  /\ ~ reciprocal_scores (snd (processRemoteBayesPair 0 1 pair_49)) 0 1.
Proof.
  split; [vm_compute; reflexivity|].
  intros (x & y & q & Hx & Hy & Hq & Heq).
  assert (Ex : score (snd (processRemoteBayesPair 0 1 pair_49)) 0 1
               = Some forty_nine) by (vm_compute; reflexivity).
  assert (Ey : score (snd (processRemoteBayesPair 0 1 pair_49)) 1 0
               = Some (S754_finite false 5882252574524729 (-58)))
    by (vm_compute; reflexivity).
  rewrite Ex in Hx. rewrite Ey in Hy.
  inversion Hx; subst x. inversion Hy; subst y.
  vm_compute in Hq. inversion Hq; subst q.
  vm_compute in Heq. discriminate Heq.
Qed.

(** ** Points of a pair (C1) *)

(** A ratio that is neither above the threshold nor below its reciprocal
    leaves [champ] unbound: the call raises, after both caches were
    written. *)
Lemma inconclusive_pair_raises (s : qmla) (a b : Z) (r bound : PyFloat.float) :
  rows_with_id (Z.min a b) (db s) <> [] ->
  rows_with_id (Z.max a b) (db s) <> [] ->
  bayes_factors_db (redis s) !! (Z.min a b, Z.max a b) = Some r ->
  PyFloat.is_zero r = false ->
  PyFloat.gtb r (BayesLower s) = false ->
  PyFloat.div (PyFloat.lit 1) (BayesLower s) = Ok bound ->
  PyFloat.ltb r bound = false ->
  fst (processRemoteBayesPair a b s) = Raise UnboundLocalError.
Proof.
  intros Hlow Hhigh Hbf Hz Hgt Hbound Hlt.
  unfold processRemoteBayesPair, unique_model_pair_identifier,
    get_model_storage_instance_by_id, append_bayes_factor.
  unfold bind, get, ret, raise, lift, modify.
  cbn [fst snd].
  destruct (rows_with_id (Z.min a b) (db s)) as [|rl rls]; [congruence|].
  destruct (rows_with_id (Z.max a b) (db s)) as [|rh rhs]; [congruence|].
  rewrite Hbf. unfold PyFloat.div at 1. rewrite Hz.
  cbn [fst snd]. rewrite Hgt, Hbound, Hlt. reflexivity.
Qed.

(** C1, at its failing input, the scenario of the specification (T = 5,
    A/B = 10, A/C = 0.1, B/C = 2): the pair A, B gives its point to A and
    the pair A, C to C, but the inconclusive pair B, C raises, and with
    it the tournament of the branch, whatever the comparator and the
    depth allowed. *)
Theorem C1_inconclusive_pair_aborts_tournament :
  fst (processRemoteBayesPair 0 1 spec_scenario) = Ok 0
  /\ fst (processRemoteBayesPair 0 2 spec_scenario) = Ok 2
  /\ fst (processRemoteBayesPair 1 2 spec_scenario) = Raise UnboundLocalError
  /\ forall Comparator depth,
       fst (compare_all_models_in_branch Comparator depth 0 spec_scenario)
       = Raise UnboundLocalError.
Proof.
  split; [vm_compute; reflexivity|].
  split; [vm_compute; reflexivity|].
  split; [vm_compute; reflexivity|].
  intros Comparator depth. vm_compute. reflexivity.
Qed.

(** ** The frozen ranking (C6) *)

(** Everything a tournament calls, apart from [record_ranking], leaves
    the rankings and their flags as they are, and so keeps any relation
    that looks at nothing else. *)
Section TournamentFrames.

Variable Comparator : nat -> Z -> Z -> PyFloat.float.
Variable R : qmla -> qmla -> Prop.
Hypothesis R_refl : forall s, R s s.
Hypothesis R_trans : forall s1 s2 s3, R s1 s2 -> R s2 s3 -> R s1 s3.
Hypothesis R_fields : forall s s',
  branch_rankings s' = branch_rankings s ->
  BranchBayesComputed s' = BranchBayesComputed s -> R s s'.

Local Ltac go := frame_go R_refl R_trans R_fields.

Lemma fr_status_id (m : Z) (v : string) : frame R (update_status_by_id m v).
Proof. unfold update_status_by_id. go. Qed.

Lemma fr_status_name (n v : string) : frame R (update_status_by_name n v).
Proof. unfold update_status_by_name. go. Qed.

Lemma fr_process (a c : Z) : frame R (processRemoteBayesPair a c).
Proof. unfold processRemoteBayesPair. go. Qed.

Lemma fr_award (pairs pts : list (Z * Z)) : frame R (award_points pairs pts).
Proof.
  revert pts.
  induction pairs as [|[m1 m2] pairs IH]; intros pts; cbn [award_points].
  - go.
  - pose proof fr_process. go.
Qed.

Lemma fr_remote (a c : Z) (br : option Z) :
  frame R (BayesFactorRemote Comparator a c br).
Proof. unfold BayesFactorRemote. go. Qed.

Lemma fr_pairwise (a c : Z) (rjob : bool) (br : option Z) :
  frame R (get_pairwise_bayes_factor Comparator a c rjob br).
Proof. unfold get_pairwise_bayes_factor. pose proof fr_remote. go. Qed.

Lemma fr_collect (rc w : bool) (pairs : list (Z * Z)) :
  frame R (collect_jobs Comparator rc w pairs).
Proof.
  induction pairs as [|[a c] pairs IH]; cbn [collect_jobs].
  - go.
  - pose proof fr_pairwise. go.
Qed.

Lemma fr_wait (j : option job) : frame R (wait_for Comparator j).
Proof. unfold wait_for, run_job. pose proof fr_remote. go. Qed.

Lemma fr_from_list (l : list Z) (w rc : bool) :
  frame R (get_bayes_factors_from_list Comparator l w rc).
Proof.
  unfold get_bayes_factors_from_list.
  pose proof fr_collect. pose proof fr_wait. go.
Qed.

Lemma fr_from_models (depth : nat) (l : list Z) :
  frame R (compare_models_from_list Comparator depth l).
Proof.
  revert l.
  induction depth as [|depth IH]; intros l; cbn [compare_models_from_list].
  - go.
  - pose proof fr_award. pose proof fr_from_list. go.
Qed.

Lemma fr_compare_all (depth : nat) (br : Z) :
  (forall l, frame R (record_ranking br l)) ->
  frame R (compare_all_models_in_branch Comparator depth br).
Proof.
  intros Hrec. unfold compare_all_models_in_branch.
  pose proof fr_award. pose proof fr_from_list. pose proof fr_from_models.
  pose proof fr_status_id. pose proof fr_status_name.
  go.
Qed.

End TournamentFrames.

Lemma ranking_kept_refl (b : Z) (s : qmla) : ranking_kept b s s.
Proof. intros H. split; [reflexivity|exact H]. Qed.

Lemma ranking_kept_trans (b : Z) (s1 s2 s3 : qmla) :
  ranking_kept b s1 s2 -> ranking_kept b s2 s3 -> ranking_kept b s1 s3.
Proof.
  intros H12 H23 H. destruct (H12 H) as [E1 F1]. destruct (H23 F1) as [E2 F2].
  split; [congruence|exact F2].
Qed.

Lemma ranking_kept_fields (b : Z) (s s' : qmla) :
  branch_rankings s' = branch_rankings s ->
  BranchBayesComputed s' = BranchBayesComputed s -> ranking_kept b s s'.
Proof. intros E1 E2 H. rewrite E1, E2. split; [reflexivity|exact H]. Qed.

(** The guarded assignment does not touch a ranking whose flag is set. *)
Lemma record_ranking_kept (b br : Z) (l : list Z) :
  frame (ranking_kept b) (record_ranking br l).
Proof.
  intros s Hflag. unfold record_ranking, bind, get, item, ret, modify.
  destruct (BranchBayesComputed s !! br) as [[|]|] eqn:E; cbn [snd].
  - split; [reflexivity|exact Hflag].
  - assert (br <> b) by congruence.
    cbn. rewrite !lookup_insert_ne by assumption.
    split; [reflexivity|exact Hflag].
  - split; [reflexivity|exact Hflag].
Qed.

Lemma later_evaluation_keeps_ranking
  (Comparator : nat -> Z -> Z -> PyFloat.float) (depth : nat) (br b : Z)
  (s : qmla) :
  BranchBayesComputed s !! b = Some true ->
  branch_rankings (snd (compare_all_models_in_branch Comparator depth br s)) !! b
  = branch_rankings s !! b
  /\ BranchBayesComputed (snd (compare_all_models_in_branch Comparator depth br s))
       !! b = Some true.
Proof.
  intros H.
  apply (fr_compare_all Comparator (ranking_kept b) (ranking_kept_refl b)
           (ranking_kept_trans b) (ranking_kept_fields b) depth br); [|exact H].
  intros l. apply record_ranking_kept.
Qed.

Lemma later_evaluations_keep_ranking
  (Comparator : nat -> Z -> Z -> PyFloat.float) (evals : list (nat * Z)) (b : Z)
  (s : qmla) :
  BranchBayesComputed s !! b = Some true ->
  branch_rankings (run_evaluations Comparator evals s) !! b
  = branch_rankings s !! b
  /\ BranchBayesComputed (run_evaluations Comparator evals s) !! b = Some true.
Proof.
  revert s.
  induction evals as [|[d br] evals IH]; intros s H;
    cbn [run_evaluations fold_left].
  - split; [reflexivity|exact H].
  - destruct (later_evaluation_keeps_ranking Comparator d br b s H) as [E F].
    cbn [fst snd]. destruct (IH _ F) as [E' F']. unfold run_evaluations in *.
    split; [congruence|exact F'].
Qed.

Section FirstEvaluation.

Variable Comparator : nat -> Z -> Z -> PyFloat.float.
Variable b : Z.

Lemma keeps_not_yet_fields (s s' : qmla) :
  branch_rankings s' = branch_rankings s ->
  BranchBayesComputed s' = BranchBayesComputed s -> keeps (not_yet b) s s'.
Proof. intros _ E. unfold keeps, not_yet. rewrite E. auto. Qed.

Lemma keeps_frozen_fields (l : list Z) (s s' : qmla) :
  branch_rankings s' = branch_rankings s ->
  BranchBayesComputed s' = BranchBayesComputed s -> keeps (frozen_as b l) s s'.
Proof. intros E1 E2. unfold keeps, frozen_as. rewrite E1, E2. auto. Qed.

Lemma record_ranking_first (l : list Z) :
  triple (not_yet b) (record_ranking b l) (fun _ => frozen_as b l).
Proof.
  intros s a s' HP Hrun. unfold not_yet in HP.
  unfold record_ranking, bind, get, item, ret, modify in Hrun.
  rewrite HP in Hrun.
  inversion Hrun; subst. split; cbn; apply lookup_insert_eq.
Qed.

(** The first evaluation that completes stores the ranking by points. *)
Lemma first_evaluation_records (depth : nat) :
  triple (not_yet b) (compare_all_models_in_branch Comparator depth b)
    (fun r => frozen_as b (sorted_desc (fst r))).
Proof.
  unfold compare_all_models_in_branch.
  pose proof (fr_award (keeps (not_yet b)) (keeps_refl _) (keeps_trans _)
                keeps_not_yet_fields) as F1.
  pose proof (fr_from_list Comparator (keeps (not_yet b)) (keeps_refl _)
                (keeps_trans _) keeps_not_yet_fields) as F2.
  pose proof (fr_from_models Comparator (keeps (not_yet b)) (keeps_refl _)
                (keeps_trans _) keeps_not_yet_fields) as F3.
  pose proof (fr_status_id (keeps (not_yet b)) keeps_not_yet_fields) as F4.
  pose proof (fr_status_name (keeps (not_yet b)) keeps_not_yet_fields) as F5.
  do 18 (eapply (triple_bind (not_yet b) (fun _ => not_yet b));
    [ apply triple_frame;
      frame_go (keeps_refl (not_yet b)) (keeps_trans (not_yet b))
        keeps_not_yet_fields
    | intros ? ]).
  eapply triple_bind; [apply record_ranking_first|intros ?].
  cbn beta.
  match goal with |- triple (frozen_as b ?x) _ _ => set (l := x) end.
  pose proof (fr_status_id (keeps (frozen_as b l)) (keeps_frozen_fields l)) as G4.
  do 3 (eapply (triple_bind (frozen_as b l) (fun _ => frozen_as b l));
    [ apply triple_frame;
      frame_go (keeps_refl (frozen_as b l)) (keeps_trans (frozen_as b l))
        (keeps_frozen_fields l)
    | intros ? ]).
  apply triple_ret. intros s H. exact H.
Qed.

End FirstEvaluation.

(** C6: the first evaluation of a branch that completes stores the
    ranking of its points, best first, and whatever evaluations follow,
    of this branch or of others, returning or raising, tie-breaks
    included, the stored ranking of the branch is still that one. *)
Theorem C6_ranking_frozen_on_first_evaluation
  (Comparator : nat -> Z -> Z -> PyFloat.float) (depth : nat) (b : Z)
  (s s1 : qmla) (models_points : list (Z * Z)) (champ_id : Z)
  (later : list (nat * Z)) :
  BranchBayesComputed s !! b = Some false ->
  compare_all_models_in_branch Comparator depth b s
    = (Ok (models_points, champ_id), s1) ->
  branch_rankings s1 !! b = Some (sorted_desc models_points)
  /\ branch_rankings (run_evaluations Comparator later s1) !! b
     = Some (sorted_desc models_points).
Proof.
  intros Hflag Hrun.
  destruct (first_evaluation_records Comparator b depth s _ s1 Hflag Hrun)
    as [E F].
  cbn [fst] in E. split; [exact E|].
  destruct (later_evaluations_keep_ranking Comparator later b s1 F) as [E' _].
  congruence.
Qed.

(** The decided branch is evaluated, and then twice more. *)
Lemma C6_ranking_frozen_witness :
  BranchBayesComputed decided !! 0 = Some false
  /\ compare_all_models_in_branch cyclic 5 0 decided
     = (Ok ([(0, 2); (1, 1); (2, 0)], 0),
        snd (compare_all_models_in_branch cyclic 5 0 decided))
  /\ branch_rankings (snd (compare_all_models_in_branch cyclic 5 0 decided)) !! 0
     = Some (sorted_desc [(0, 2); (1, 1); (2, 0)])
  /\ branch_rankings
       (run_evaluations cyclic [(5%nat, 0); (3%nat, 0)]
          (snd (compare_all_models_in_branch cyclic 5 0 decided))) !! 0
     = Some (sorted_desc [(0, 2); (1, 1); (2, 0)]).
Proof.
  split; [vm_compute; reflexivity|]. split; [vm_compute; reflexivity|].
  apply (C6_ranking_frozen_on_first_evaluation cyclic 5 0 decided _ _ 0
           [(5%nat, 0); (3%nat, 0)]);
    vm_compute; reflexivity.
Defined.

(** Other state of the branch does change in a later evaluation: with
    the ratios of the store turned around, the points and the champion
    of the branch are the new ones while its ranking is the first one. *)
Lemma later_evaluation_updates_points :
  let s1 := snd (compare_all_models_in_branch silent 5 0 decided) in
  let s2 := snd (compare_all_models_in_branch silent 5 0
                   (s1 <| redis := store [((0, 1), tenth); ((0, 2), tenth);
                                          ((1, 2), tenth)] |>)) in
  branch_rankings s1 !! 0 = Some [0; 1; 2]
  /\ branch_bayes_points s1 !! 0 = Some [(0, 2); (1, 1); (2, 0)]
  /\ BranchChampions s1 !! 0 = Some 0
  /\ branch_rankings s2 !! 0 = Some [0; 1; 2]
  /\ branch_bayes_points s2 !! 0 = Some [(0, 0); (1, 1); (2, 2)]
  /\ BranchChampions s2 !! 0 = Some 2.
Proof. vm_compute. repeat split. Qed.

(** ** Ties (C2) *)

Section Recompute.

Variable Comparator : nat -> Z -> Z -> PyFloat.float.










End Recompute.





(** *** A tie that persists *)







(** ** Look-ups that succeed or fail *)

Lemma item_ok `{Countable K} {V} (d : gmap K V) (k : K) (v : V) (s : qmla) :
  d !! k = Some v -> item d k s = (Ok v, s).
Proof. intros E. unfold item. rewrite E. reflexivity. Qed.

Lemma item_missing `{Countable K} {V} (d : gmap K V) (k : K) (s : qmla) :
  d !! k = None -> @item K _ _ V d k s = (Raise KeyError, s).
Proof. intros E. unfold item. rewrite E. reflexivity. Qed.

Lemma bind_inv {A B} (c : M A) (k : A -> M B) (s s' : qmla) (b : B) :
  bind c k s = (Ok b, s') ->
  exists a s1, c s = (Ok a, s1) /\ k a s1 = (Ok b, s').
Proof.
  unfold bind. destruct (c s) as [[a|e] s1]; [|discriminate].
  intros H. exists a, s1. split; [reflexivity|exact H].
Qed.

Lemma item_inv `{Countable K} {V} (d : gmap K V) (k : K) (v : V) (s s' : qmla) :
  item d k s = (Ok v, s') -> d !! k = Some v /\ s' = s.
Proof.
  unfold item. destruct (d !! k); cbn; intros E; inversion E; auto.
Qed.

(** ** The registry (C4) *)

Lemma consider_fixed_point (c : string) (q : Z) (bucket : list string) (s : qmla) :
  alph c = Ok c -> get_num_qubits c = Ok q -> model_lists s !! q = Some bucket ->
  consider_new_model c s = (Ok (negb (bool_decide (c ∈ bucket))), s).
Proof.
  intros Hc Hq Hb. unfold consider_new_model.
  rewrite (bind_ok get _ s s s eq_refl).
  rewrite Hc, Hq.
  rewrite (bind_ok (lift (Ok c)) _ s c s eq_refl).
  rewrite (bind_ok (lift (Ok q)) _ s q s eq_refl).
  rewrite (bind_ok _ _ s _ s (item_ok _ _ _ _ Hb)). reflexivity.
Qed.

Lemma add_model_new (c : string) (q branch modelID : Z) (bucket : list string)
  (s : qmla) :
  alph c = Ok c -> get_num_qubits c = Ok q ->
  model_lists s !! q = Some bucket -> c ∉ bucket ->
  add_model c branch modelID s
  = (Ok true,
     s <| model_lists ::= (fun d => <[q := default [] (d !! q) ++ [c]]> d) |>
       <| db ::= (fun d => d ++ [new_row c modelID branch]) |>).
Proof.
  intros Hc Hq Hb Hnew. unfold add_model.
  rewrite (bind_ok _ _ s _ s (consider_fixed_point c q bucket s Hc Hq Hb)).
  rewrite bool_decide_eq_false_2 by exact Hnew. cbn [negb].
  rewrite Hc, Hq.
  rewrite (bind_ok (lift (Ok c)) _ s c s eq_refl).
  rewrite (bind_ok (lift (Ok q)) _ s q s eq_refl).
  reflexivity.
Qed.

Lemma add_model_known (c : string) (q branch modelID : Z) (bucket : list string)
  (s : qmla) :
  alph c = Ok c -> get_num_qubits c = Ok q ->
  model_lists s !! q = Some bucket -> c ∈ bucket ->
  add_model c branch modelID s = (Ok false, s).
Proof.
  intros Hc Hq Hb Hold. unfold add_model.
  rewrite (bind_ok _ _ s _ s (consider_fixed_point c q bucket s Hc Hq Hb)).
  rewrite bool_decide_eq_true_2 by exact Hold. reflexivity.
Qed.

Lemma no_row_named (c : string) (d : list row) :
  (forall r, r ∈ d -> row_Name r <> c) ->
  filter (fun r => row_Name r = c) d = [].
Proof.
  intros H. induction d as [|r d IH]; [reflexivity|].
  rewrite filter_cons_False by (apply H; left).
  apply IH. intros r' Hr'. apply H. right. exact Hr'.
Qed.

Lemma model_id_found (c : string) (r : row) (s : qmla) :
  alph c = Ok c -> filter (fun r => row_Name r = c) (db s) = [r] ->
  model_id_from_name c s = (Ok (row_ModelID r), s).
Proof.
  intros Hc Hr. unfold model_id_from_name. rewrite Hc.
  rewrite (bind_ok (lift (Ok c)) _ s c s eq_refl).
  rewrite (bind_ok get _ s s s eq_refl). rewrite Hr. reflexivity.
Qed.

(** Two names with the same canonical form [c] are registered one
    after the other, and [c] is new to the registry.  If canonicalising
    [c] again gives [c], the first registration creates the model under
    the next id and the second one changes nothing and hands back that
    id with [is_new_model] false. *)
Lemma fixed_point_registers_once (m1 m2 c : string) (q b1 b2 : Z)
  (bucket : list string) (s : qmla) :
  alph m1 = Ok c -> alph m2 = Ok c -> alph c = Ok c ->
  get_num_qubits c = Ok q ->
  model_lists s !! q = Some bucket -> c ∉ bucket ->
  (forall r, r ∈ db s -> row_Name r <> c) ->
  add_model_to_database m1 b1 s = (Ok (true, NumModels s), registered c q b1 s)
  /\ add_model_to_database m2 b2 (registered c q b1 s)
     = (Ok (false, NumModels s), registered c q b1 s).
Proof.
  intros H1 H2 Hc Hq Hb Hnew Hrows. split.
  - unfold add_model_to_database. rewrite H1.
    rewrite (bind_ok (lift (Ok c)) _ s c s eq_refl).
    rewrite (bind_ok get _ s s s eq_refl).
    rewrite (bind_ok _ _ s _ _ (add_model_new c q b1 _ bucket s Hc Hq Hb Hnew)).
    reflexivity.
  - set (s1 := registered c q b1 s).
    assert (Hb1 : model_lists s1 !! q = Some (bucket ++ [c])).
    { unfold s1, registered.
      change (<[q := default [] (model_lists s !! q) ++ [c]]> (model_lists s) !! q
              = Some (bucket ++ [c])).
      rewrite lookup_insert_eq, Hb. reflexivity. }
    unfold add_model_to_database. rewrite H2.
    rewrite (bind_ok (lift (Ok c)) _ s1 c s1 eq_refl).
    rewrite (bind_ok get _ s1 s1 s1 eq_refl).
    rewrite (bind_ok _ _ s1 _ _ (add_model_known c q b2 _ (bucket ++ [c]) s1 Hc Hq Hb1
               ltac:(apply elem_of_app; right; left))).
    cbv beta iota.
    rewrite (bind_ok _ _ s1 _ s1
               (model_id_found c (new_row c (NumModels s) b1) s1 Hc
                  ltac:(change (db s1) with (db s ++ [new_row c (NumModels s) b1]);
                        rewrite filter_app, (no_row_named c (db s) Hrows);
                        rewrite filter_cons_True by reflexivity;
                        reflexivity))).
    reflexivity.
Qed.

(** A branch seeded with two names of one canonical form, [xPy] and
    [yPx]: one model is created, both names get its id, and the second
    name is recorded as precomputed on the branch. *)
Lemma seed_with_equal_canonical_forms :
  let run := new_branch remove_dups "g" ["xPy"; "yPx"]%string empty_registry in
  fst run = Ok 1
  /\ NumModels (snd run) = 1
  /\ map row_Name (db (snd run)) = ["xPy"%string]
  /\ BranchModelIds (snd run) !! 1 = Some [0; 0]
  /\ BranchPrecomputedModels (snd run) !! 1 = Some ["yPx"%string]
  /\ BranchNumModelsPreComputed (snd run) !! 1 = Some 1.
Proof. vm_compute. repeat apply conj; reflexivity. Qed.

(** C4: the name [zPiPPy] is registered twice.  Its canonical form is
    [yPPiPz], which canonicalises to yet another name, [iPzPPy].  The
    first registration creates model 0 with a row named [yPPiPz] and
    puts [iPzPPy] into the bucket.  The second registration finds
    [iPzPPy] in the bucket, so the model is not new, and then looks for
    a row named [iPzPPy]: there is none, and the registration raises
    [ValueError] instead of handing back id 0 with [is_new_model]
    false; a branch that proposes the name again is cut short by the
    same error. *)
Theorem C4_second_registration_raises :
  alph "zPiPPy" = Ok "yPPiPz"%string
  /\ alph "yPPiPz" = Ok "iPzPPy"%string
  /\ add_model_to_database "zPiPPy" 1 empty_registry
     = (Ok (true, 0), once_registered)
  /\ map row_Name (db once_registered) = ["yPPiPz"%string]
  /\ model_lists once_registered !! 1 = Some ["iPzPPy"%string]
  /\ add_model_to_database "zPiPPy" 2 once_registered
     = (Raise ValueError, once_registered)
  /\ fst (new_branch remove_dups "g" ["zPiPPy"%string] once_registered)
     = Raise ValueError.
Proof. vm_compute. repeat apply conj; reflexivity. Qed.

(** ** Parents against children (C7) *)

Lemma lower_bound_value :
  PyFloat.div (PyFloat.lit 1) interbranch_collapse_threshold = Ok collapse_lower_bound.
Proof. vm_compute. reflexivity. Qed.

Lemma deactivate_nobody (r : Z * string) : deactivate [] r = r.
Proof. destruct r. reflexivity. Qed.

Lemma deactivate_app (l1 l2 : list Z) (r : Z * string) :
  deactivate l2 (deactivate l1 r) = deactivate (l1 ++ l2) r.
Proof.
  destruct r as [i st]. unfold deactivate. cbn [fst snd]. f_equal.
  repeat case_bool_decide; try reflexivity; exfalso;
    rewrite elem_of_app in *; tauto.
Qed.

Lemma only_rows_refl (s : qmla) : only_rows [] s s.
Proof.
  unfold only_rows. repeat apply conj; try reflexivity.
  rewrite (map_ext _ _ deactivate_nobody), map_id. reflexivity.
Qed.

Lemma only_rows_app (l1 l2 : list Z) (s1 s2 s3 : qmla) :
  only_rows l1 s1 s2 -> only_rows l2 s2 s3 -> only_rows (l1 ++ l2) s1 s3.
Proof.
  intros (A1 & A2 & A3 & A4 & A5 & A6) (B1 & B2 & B3 & B4 & B5 & B6).
  unfold only_rows. repeat apply conj; try congruence.
  rewrite B6, A6, map_map. apply map_ext. intros r. apply deactivate_app.
Qed.

Lemma only_rows_trans (s1 s2 s3 : qmla) :
  only_rows [] s1 s2 -> only_rows [] s2 s3 -> only_rows [] s1 s3.
Proof. intros H1 H2. exact (only_rows_app [] [] _ _ _ H1 H2). Qed.

Lemma only_rows_db (l : list Z) (s : qmla) (f : list row -> list row) :
  map id_and_status (f (db s)) = map (deactivate l) (map id_and_status (db s)) ->
  only_rows l s (s <| db ::= f |>).
Proof. intros H. unfold only_rows. repeat apply conj; try reflexivity. exact H. Qed.

Lemma update_first_keeps (m : Z) (f : row -> row) (d : list row) :
  (forall r, id_and_status (f r) = id_and_status r) ->
  map id_and_status (update_first m f d) = map id_and_status d.
Proof.
  intros Hf. induction d as [|r d IH]; [reflexivity|].
  cbn [update_first]. destruct (decide _); cbn [map]; [rewrite Hf|rewrite IH];
    reflexivity.
Qed.

Lemma fr_append_ratio (m o : Z) (x : PyFloat.float) :
  frame (only_rows []) (append_bayes_factor m o x).
Proof.
  intros s. unfold append_bayes_factor, modify. cbn [snd].
  apply only_rows_db. rewrite update_first_keeps by reflexivity.
  rewrite (map_ext _ _ deactivate_nobody), map_id. reflexivity.
Qed.

Lemma fr_instance (m : Z) : frame (only_rows []) (get_model_storage_instance_by_id m).
Proof.
  unfold get_model_storage_instance_by_id.
  frame_go only_rows_refl only_rows_trans only_rows_refl.
Qed.

Lemma status_deactivates (m : Z) (s : qmla) :
  update_status_by_id m "Deactivated" s
  = (Ok tt, snd (update_status_by_id m "Deactivated" s))
  /\ only_rows [m] s (snd (update_status_by_id m "Deactivated" s)).
Proof.
  split; [reflexivity|].
  unfold update_status_by_id, modify. cbn [snd]. apply only_rows_db.
  rewrite !map_map. apply map_ext. intros r.
  unfold deactivate, id_and_status. cbn [fst snd].
  destruct (decide (row_ModelID r = m)) as [E|N].
  - rewrite bool_decide_eq_true_2
      by (rewrite E; apply list_elem_of_singleton; reflexivity).
    reflexivity.
  - rewrite bool_decide_eq_false_2 by (rewrite list_elem_of_singleton; exact N).
    reflexivity.
Qed.

Lemma try_unit (c : M unit) (s : qmla) :
  try_except c (ret tt) s = (Ok tt, snd (try_except c (ret tt) s)).
Proof.
  unfold try_except. destruct (c s) as [[[]|e] s']; reflexivity.
Qed.

(** The update of the two caches at the end of a turn of the loop
    returns, whatever happens in it, and leaves ids and status alone. *)
Lemma caches_updated (mod1 mod2 : Z) (x : PyFloat.float) (s : qmla) :
  let c := try_except
             (get_model_storage_instance_by_id mod1 ;;
              get_model_storage_instance_by_id mod2 ;;
              append_bayes_factor mod1 mod2 x ;;
              inv <- lift (PyFloat.div (PyFloat.lit 1) x) ;;
              append_bayes_factor mod2 mod1 inv)
             (ret tt) in
  c s = (Ok tt, snd (c s)) /\ only_rows [] s (snd (c s)).
Proof.
  intros c. split.
  - apply try_unit.
  - revert s. change (frame (only_rows []) c). unfold c.
    pose proof fr_append_ratio. pose proof fr_instance.
    frame_go only_rows_refl only_rows_trans only_rows_refl.
Qed.

Lemma collapse_loser_same (l : list Z) (s s' : qmla) (c : Z) :
  only_rows l s s' -> collapse_loser s' c = collapse_loser s c.
Proof.
  intros (A1 & A2 & A3 & A4 & _). unfold collapse_loser.
  rewrite A1, A2, A3, A4. reflexivity.
Qed.

Lemma collapse_losers_same (l : list Z) (s s' : qmla) (children : list Z) :
  only_rows l s s' ->
  omap (collapse_loser s') children = omap (collapse_loser s) children.
Proof.
  intros R. induction children as [|c children IH]; [reflexivity|].
  cbn -[collapse_loser]. rewrite (collapse_loser_same _ _ _ c R), IH. reflexivity.
Qed.

(** One turn of the second loop: the child's loser, if there is one,
    joins [models_to_remove] and is deactivated; nothing is raised. *)
Lemma collapse_pair_spec (c : Z) (rem : list Z) (s : qmla) :
  is_Some (ModelsBranches s !! c) ->
  exists s',
    collapse_pair c rem s = (Ok (rem ++ option_list (collapse_loser s c)), s')
    /\ only_rows (option_list (collapse_loser s c)) s s'.
Proof.
  intros [b Hb]. unfold collapse_pair, collapse_loser.
  rewrite (bind_ok get _ s s s eq_refl).
  rewrite (bind_ok _ _ s _ s (item_ok _ _ _ _ Hb)).
  rewrite Hb. cbn [mbind option_bind].
  unfold try_except at 1.
  destruct (branch_parents s !! b) as [pb|] eqn:Hpb.
  2: { rewrite (bind_raise _ _ s KeyError s (item_missing _ _ _ Hpb)).
       cbn. rewrite app_nil_r. eexists; split; [reflexivity|apply only_rows_refl]. }
  rewrite (bind_ok _ _ s _ s (item_ok _ _ _ _ Hpb)). cbn [mbind option_bind].
  destruct (BranchChampions s !! pb) as [p|] eqn:Hp.
  2: { rewrite (bind_raise _ _ s KeyError s (item_missing _ _ _ Hp)).
       cbn. rewrite app_nil_r. eexists; split; [reflexivity|apply only_rows_refl]. }
  rewrite (bind_ok _ _ s _ s (item_ok _ _ _ _ Hp)). cbn [mbind option_bind].
  cbv zeta.
  destruct (bayes_factors_db (redis s) !! _) as [r|] eqn:Hr.
  2: { rewrite (bind_raise (raise TypeError) _ s TypeError s eq_refl).
       cbn. rewrite app_nil_r. eexists; split; [reflexivity|apply only_rows_refl]. }
  rewrite (bind_ok (ret r) _ s r s eq_refl). cbn [mbind option_bind].
  rewrite (bind_ok _ _ s _ s (f_equal (fun x => (x, s)) lower_bound_value)).
  destruct (PyFloat.gtb r interbranch_collapse_threshold).
  { destruct (status_deactivates (Z.max p c) s) as [E1 R1].
    set (s1 := snd (update_status_by_id (Z.max p c) "Deactivated" s)) in *.
    rewrite (bind_ok (_ ;; ret _) _ s (rem ++ [Z.max p c]) s1)
      by (rewrite (bind_ok _ _ s tt s1 E1); reflexivity).
    match goal with |- context [bind ?inner _ s1] =>
      destruct (caches_updated (Z.min p c) (Z.max p c) r s1) as [E2 R2];
      cbv zeta in E2, R2; rewrite (bind_ok inner _ s1 tt _ E2) end.
    eexists; split; [reflexivity|].
    exact (only_rows_app [_] [] _ _ _ R1 R2). }
  destruct (PyFloat.ltb r collapse_lower_bound).
  { destruct (status_deactivates (Z.min p c) s) as [E1 R1].
    set (s1 := snd (update_status_by_id (Z.min p c) "Deactivated" s)) in *.
    rewrite (bind_ok (_ ;; ret _) _ s (rem ++ [Z.min p c]) s1)
      by (rewrite (bind_ok _ _ s tt s1 E1); reflexivity).
    match goal with |- context [bind ?inner _ s1] =>
      destruct (caches_updated (Z.min p c) (Z.max p c) r s1) as [E2 R2];
      cbv zeta in E2, R2; rewrite (bind_ok inner _ s1 tt _ E2) end.
    eexists; split; [reflexivity|].
    exact (only_rows_app [_] [] _ _ _ R1 R2). }
  rewrite (bind_ok (ret rem) _ s rem s eq_refl).
  match goal with |- context [bind ?inner _ s] =>
    destruct (caches_updated (Z.min p c) (Z.max p c) r s) as [E2 R2];
    cbv zeta in E2, R2; rewrite (bind_ok inner _ s tt _ E2) end.
  cbn [option_list]. rewrite app_nil_r.
  eexists; split; [reflexivity|exact R2].
Qed.

Lemma collapse_all_spec (children : list Z) : forall (rem : list Z) (s : qmla),
  (forall c, c ∈ children -> is_Some (ModelsBranches s !! c)) ->
  exists s',
    collapse_all children rem s
    = (Ok (rem ++ omap (collapse_loser s) children), s')
    /\ only_rows (omap (collapse_loser s) children) s s'.
Proof.
  induction children as [|c children IH]; intros rem s Hhome.
  - cbn. rewrite app_nil_r. eexists; split; [reflexivity|apply only_rows_refl].
  - destruct (collapse_pair_spec c rem s) as (s1 & E1 & R1).
    { apply Hhome. left. }
    destruct (IH (rem ++ option_list (collapse_loser s c)) s1) as (s2 & E2 & R2).
    { intros c' Hc'. destruct R1 as (-> & _). apply Hhome. right. exact Hc'. }
    rewrite (collapse_losers_same _ _ _ children R1) in E2, R2.
    exists s2. cbn -[collapse_loser collapse_pair].
    rewrite (bind_ok _ _ s _ s1 E1), E2, <- app_assoc.
    assert (Hsplit : forall o : option Z,
      match o with Some y => y :: omap (collapse_loser s) children
                 | None => omap (collapse_loser s) children end
      = option_list o ++ omap (collapse_loser s) children)
      by (intros [y|]; reflexivity).
    rewrite Hsplit.
    split; [reflexivity|]. exact (only_rows_app _ _ _ _ _ R1 R2).
Qed.

(** The champions that go on to the ghost branches are taken from the
    list of active champions. *)
Lemma group_by_tree_members (champs : list Z) :
  forall (d d' : gmap string (list Z)) (s s' : qmla),
  group_by_tree champs d s = (Ok d', s') ->
  forall gen l m, d' !! gen = Some l -> m ∈ l ->
  m ∈ champs \/ exists l0, d !! gen = Some l0 /\ m ∈ l0.
Proof.
  induction champs as [|c champs IH]; intros d d' s s' Hrun gen l m Hl Hm.
  - cbn in Hrun. inversion Hrun; subst. right. exists l. auto.
  - cbn [group_by_tree] in Hrun.
    apply bind_inv in Hrun as (s0 & s1 & E0 & Hrun). inversion E0; subst s0 s1.
    apply bind_inv in Hrun as (b & s1 & E1 & Hrun).
    apply item_inv in E1 as [_ ->].
    apply bind_inv in Hrun as (g & s1 & E2 & Hrun).
    apply item_inv in E2 as [_ ->].
    apply bind_inv in Hrun as (members & s1 & E3 & Hrun).
    apply item_inv in E3 as [Hmem ->].
    destruct (IH _ _ _ _ Hrun gen l m Hl Hm) as [Hin|(l0 & Hl0 & Hin)].
    + left. right. exact Hin.
    + destruct (decide (g = gen)) as [->|Hne].
      * rewrite lookup_insert_eq in Hl0. injection Hl0 as <-.
        apply elem_of_app in Hin as [Hin|Hin].
        -- right. exists members. auto.
        -- apply list_elem_of_singleton in Hin as ->. left. left.
      * rewrite lookup_insert_ne in Hl0 by exact Hne. right. exists l0. auto.
Qed.

Lemma tree_champs_are_active (s s' : qmla) (d : gmap string (list Z)) :
  ActiveTreeBranchChamps s = (Ok d, s') ->
  forall gen l m, d !! gen = Some l -> m ∈ l -> m ∈ ActiveBranchChampList s.
Proof.
  unfold ActiveTreeBranchChamps. intros Hrun gen l m Hl Hm.
  apply bind_inv in Hrun as (s0 & s1 & E0 & Hrun). inversion E0; subst s0 s1.
  destruct (group_by_tree_members _ _ _ _ _ Hrun gen l m Hl Hm)
    as [Hin|(l0 & Hl0 & Hin)]; [exact Hin|].
  apply elem_of_list_to_map_2 in Hl0.
  apply list_elem_of_In, in_map_iff in Hl0 as (g & Hg & _).
  inversion Hg; subst. inversion Hin.
Qed.

(** C7, as the code has it: the collapse goes through the active
    champions, not through the branches.  For each active champion it
    takes the branch the model was first registered on, the champion
    of that branch's parent, and the stored ratio of the two; a ratio
    above 1e5 decides against the higher id, one below 1/1e5 against
    the lower id, anything else (a ratio within the bounds, no parent,
    no stored ratio) against nobody.  The loop returns; the models
    decided against are exactly those that leave the list of active
    champions, and exactly those whose rows become [Deactivated] while
    all other rows keep their status; and no champion handed on to the
    ghost branches is one of them.  [set_ids] lists the members of a
    set in some order, and every active champion has a branch on
    record. *)
Theorem C7_collapse_follows_home_branch
  (set_ids : list Z -> list Z) (s : qmla) :
  (forall l x, x ∈ set_ids l <-> x ∈ l) ->
  (forall m, m ∈ ActiveBranchChampList s -> is_Some (ModelsBranches s !! m)) ->
  let run := deactivate_collapsed set_ids s in
  fst run = Ok tt
  /\ (forall m, m ∈ ActiveBranchChampList (snd run)
                <-> m ∈ ActiveBranchChampList s /\ m ∉ collapse_losers s)
  /\ map id_and_status (db (snd run))
     = map (deactivate (collapse_losers s)) (map id_and_status (db s))
  /\ (forall d s', ActiveTreeBranchChamps (snd run) = (Ok d, s') ->
      forall gen l m, d !! gen = Some l -> m ∈ l ->
      m ∈ ActiveBranchChampList s /\ m ∉ collapse_losers s).
Proof.
  intros Hset Hhome run.
  destruct (collapse_all_spec (ActiveBranchChampList s) [] s Hhome)
    as (s1 & E1 & R1).
  fold (collapse_losers s) in E1, R1. rewrite app_nil_l in E1.
  assert (Hrun : run = (Ok tt, s1 <| ActiveBranchChampList ::=
            (fun l => set_ids (filter (fun m => m ∉ collapse_losers s) l)) |>)).
  { unfold run, deactivate_collapsed.
    rewrite (bind_ok get _ s s s eq_refl), (bind_ok _ _ s _ s1 E1). reflexivity. }
  destruct R1 as (_ & _ & _ & _ & Hact & Hrows).
  assert (Hmem : forall m, m ∈ ActiveBranchChampList (snd run)
                <-> m ∈ ActiveBranchChampList s /\ m ∉ collapse_losers s).
  { intros m. rewrite Hrun. cbn [snd].
    change (m ∈ set_ids (filter (fun m => m ∉ collapse_losers s)
                           (ActiveBranchChampList s1))
            <-> m ∈ ActiveBranchChampList s /\ m ∉ collapse_losers s).
    rewrite Hset, Hact, list_elem_of_filter. tauto. }
  split; [rewrite Hrun; reflexivity|].
  split; [exact Hmem|].
  split; [rewrite Hrun; exact Hrows|].
  intros d s' Htree gen l m Hl Hm. apply Hmem.
  exact (tree_champs_are_active _ _ _ Htree gen l m Hl Hm).
Qed.

(** The scenario of the specification: P = 0 against Q = 1 with the
    ratio 1e6; Q is the model decided against. *)
Lemma C7_collapse_witness :
  collapse_losers parent_and_child = [1]
  /\ fst (deactivate_collapsed remove_dups parent_and_child) = Ok tt
  /\ (forall m,
        m ∈ ActiveBranchChampList
              (snd (deactivate_collapsed remove_dups parent_and_child))
        <-> m ∈ ActiveBranchChampList parent_and_child
            /\ m ∉ collapse_losers parent_and_child)
  /\ map id_and_status
       (db (snd (deactivate_collapsed remove_dups parent_and_child)))
     = map (deactivate (collapse_losers parent_and_child))
         (map id_and_status (db parent_and_child))
  /\ (forall d s',
        ActiveTreeBranchChamps
          (snd (deactivate_collapsed remove_dups parent_and_child)) = (Ok d, s') ->
        forall gen l m, d !! gen = Some l -> m ∈ l ->
        m ∈ ActiveBranchChampList parent_and_child
        /\ m ∉ collapse_losers parent_and_child).
Proof.
  split; [vm_compute; reflexivity|].
  apply (C7_collapse_follows_home_branch remove_dups parent_and_child).
  - intros l x. apply elem_of_remove_dups.
  - intros m Hm. apply list_elem_of_In in Hm.
    destruct Hm as [<-|[<-|[]]]; vm_compute; eauto.
Defined.

(** Branch 1 has the parent branch 0; the champions are P = 0 and
    Q = 1, and the ratio stored for them, 1e6, is beyond the threshold
    in favour of P.  But Q was first registered on branch 0, which has
    no parent: neither loop of the collapse finds a parent for it, no
    comparison is made, Q stays an active champion with the status
    [Active] and goes on to the ghost branch. *)
Lemma C7_counterexample_reproposed_champion :
  branch_parents reproposed_champion !! 1 = Some 0
  /\ BranchChampions reproposed_champion !! 0 = Some 0
  /\ BranchChampions reproposed_champion !! 1 = Some 1
  /\ bayes_factors_db (redis reproposed_champion) !! (0, 1) = Some million
  /\ PyFloat.gtb million interbranch_collapse_threshold = true
  /\ fst collapse_of_reproposed = Ok tt
  /\ jobs_done (snd collapse_of_reproposed) = jobs_done reproposed_champion
  /\ ActiveBranchChampList (snd collapse_of_reproposed) = [0; 1]
  /\ map id_and_status (db (snd collapse_of_reproposed))
     = [(0, "Active"%string); (1, "Active"%string); (2, "Deactivated"%string)]
  /\ fst (ActiveTreeBranchChamps (snd collapse_of_reproposed))
     = Ok {["g"%string := [0; 1]]}.
Proof. vm_compute. repeat apply conj; reflexivity. Qed.

(** ** The failure flag (C8) *)

Section FailureFlag.

Variable Comparator : nat -> Z -> Z -> PyFloat.float.
Variable set_names : list string -> list string.
Variable generate_models :
  string -> growth_input -> list string * list (option string).
Variable check_tree_completed : string -> Z -> Z -> bool.
Variable workers : nat -> redis_databases -> redis_databases.


Lemma inspect_passes (s : qmla) :
  any_job_failed (redis s) = false ->
  inspect_remote_job_crashes s = (Ok tt, s).
Proof.
  intros H. unfold inspect_remote_job_crashes, bind, get. rewrite H. reflexivity.
Qed.



End FailureFlag.


(** ** A growth rule that proposes nothing (C9) *)

Lemma names_of_ok (ids : list Z) (ns : list string) (s : qmla) :
  mapM (fun i => model_name_id_map s !! i) ids = Some ns ->
  names_of ids s = (Ok ns, s).
Proof.
  revert ns. induction ids as [|i ids IH]; intros ns E.
  - cbn in E. injection E as <-. reflexivity.
  - cbn in E. destruct (model_name_id_map s !! i) as [n|] eqn:Ei; [|discriminate E].
    cbn in E.
    destruct (mapM (fun i => model_name_id_map s !! i) ids) as [ns'|] eqn:Em;
      [|discriminate E].
    cbn in E. injection E as <-.
    cbn [names_of]. rewrite (bind_ok get _ s s s eq_refl).
    rewrite (bind_ok _ _ s n s (item_ok _ _ _ _ Ei)).
    rewrite (bind_ok _ _ s ns' s (IH _ eq_refl)). reflexivity.
Qed.

Section EmptyBranch.

Variable set_names : list string -> list string.
Hypothesis set_of_nothing : set_names [] = [].

Lemma new_branch_of_nothing (growth_rule growth_class : string) (s : qmla) :
  UniqueGrowthClasses s !! growth_rule = Some growth_class ->
  exists s', new_branch set_names growth_rule [] s = (Ok (HighestBranchID s + 1), s')
    /\ HighestBranchID s' = HighestBranchID s + 1
    /\ empty_branch (HighestBranchID s + 1) s'
    /\ redis s' = redis s
    /\ ghost_branch_list s' = ghost_branch_list s
    /\ branch_parents s' = branch_parents s.
Proof.
  intros Hg. unfold new_branch. rewrite set_of_nothing.
  eexists. split.
  - unfold bind, modify, get, lift, item, ret. cbn. rewrite Hg.
    rewrite (Z.add_comm 1). reflexivity.
  - unfold empty_branch.
    repeat apply conj; try reflexivity; try apply lookup_insert_eq.
    apply (Z.add_comm 1).
Qed.

(** Nothing is dispatched for a branch without models: its learned
    count is set to zero and it joins the ghost branches. *)
Lemma learn_nothing (b : Z) (s : qmla) :
  empty_branch b s ->
  learn_models_on_given_branch set_names b s
  = (Ok tt,
     s <| redis ::= (fun r => r <| active_branches_learning_models ::= insert b 0 |>) |>
       <| ghost_branch_list ::= (fun l => l ++ [b]) |>).
Proof.
  intros (Hm & _ & Hp & Hn & _).
  unfold learn_models_on_given_branch.
  rewrite (bind_ok get _ s s s eq_refl).
  rewrite (bind_ok _ _ s _ s (item_ok _ _ _ _ Hm)).
  rewrite (bind_ok _ _ s _ s (item_ok _ _ _ _ Hn)).
  unfold bind at 1. unfold modify at 1.
  erewrite bind_ok by (apply item_ok; exact Hp).
  rewrite filter_nil, set_of_nothing.
  destruct (decide _) as [_|Hn']; [|contradiction].
  reflexivity.
Qed.

End EmptyBranch.

(** The tournament of a branch without models: [max] of no points. *)
Lemma tournament_of_nothing (Comparator : nat -> Z -> Z -> PyFloat.float)
  (depth : nat) (b : Z) (s : qmla) :
  BranchModelIds s !! b = Some [] ->
  compare_all_models_in_branch Comparator depth b s = (Raise ValueError, s).
Proof.
  intros H. unfold compare_all_models_in_branch.
  rewrite (bind_ok get _ s s s eq_refl).
  rewrite (bind_ok _ _ s _ s (item_ok _ _ _ _ H)).
  reflexivity.
Qed.

(** C9, as the code has it: the growth rule of a ranked branch is
    asked for the next generation and proposes nothing.
    [spawn_from_branch] raises no error.  It creates the next branch
    with no model and no pair, records the spawning branch as its
    parent, takes the number of qubits from the best model of the
    spawning branch, sets the learned count of the new branch to zero
    and lists it as a ghost branch, and returns the verdict of the
    growth rule: complete if the spawn stage ends in ['Complete'] and
    otherwise what [check_tree_completed] says.  What does fail is the
    tournament of the new branch, whenever it is held: it raises
    [ValueError]. *)
Theorem C9_zero_proposals_spawn_an_empty_branch
  (set_names : list string -> list string)
  (generate_models : string -> growth_input -> list string * list (option string))
  (check_tree_completed : string -> Z -> Z -> bool)
  (s : qmla) (branchID : Z) (growth_rule : string) (num_models : nat)
  (depth_now : Z) (ranking : list Z) (best : string) (others champs : list string)
  (growth_class new_class : string) (by_qubits : gmap Z (list string))
  (stage stage' : list (option string)) (last_stage : option string)
  (points : list (Z * Z)) (proposed : list string) (dim : Z) :
  set_names [] = [] ->
  spawn_depthByGrowthRule s !! growth_rule = Some depth_now ->
  branch_rankings s !! branchID = Some ranking ->
  mapM (fun i => model_name_id_map s !! i) (take num_models ranking)
    = Some (best :: others) ->
  mapM (fun i => model_name_id_map s !! i)
    (map snd (map_to_list (BranchChampions s))) = Some champs ->
  BranchGrowthClasses s !! branchID = Some growth_class ->
  BranchChampsByNumQubits s !! growth_rule = Some by_qubits ->
  SpawnStage s !! growth_rule = Some stage ->
  branch_bayes_points s !! branchID = Some points ->
  UniqueGrowthClasses s !! growth_rule = Some new_class ->
  get_num_qubits best = Ok dim ->
  generate_models growth_class
    {| gi_model_list := best :: others;
       gi_spawn_step := depth_now + 1;
       gi_branch_champs_by_qubit_num := by_qubits;
       gi_model_dict := model_lists s;
       gi_current_champs := champs;
       gi_spawn_stage := stage;
       gi_branch_model_points := points;
       gi_model_names_ids := model_name_id_map s |} = (proposed, stage') ->
  set_names proposed = [] ->
  last stage' = Some last_stage ->
  let run := spawn_from_branch set_names generate_models check_tree_completed
               branchID growth_rule num_models s in
  let new_branch_id := HighestBranchID s + 1 in
  fst run = Ok (if bool_decide (last_stage = Some "Complete"%string) then true
                else check_tree_completed growth_class (depth_now + 1) dim)
  /\ HighestBranchID (snd run) = new_branch_id
  /\ BranchModelIds (snd run) !! new_branch_id = Some []
  /\ NumModelsPerBranch (snd run) !! new_branch_id = Some 0
  /\ NumModelPairsPerBranch (snd run) !! new_branch_id = Some (Tree.Int 0)
  /\ branch_parents (snd run) !! new_branch_id = Some branchID
  /\ active_branches_learning_models (redis (snd run)) !! new_branch_id = Some 0
  /\ new_branch_id ∈ ghost_branch_list (snd run)
  /\ forall Comparator depth,
       fst (compare_all_models_in_branch Comparator depth new_branch_id (snd run))
       = Raise ValueError.
Proof.
  intros Hset Hdepth Hrank Hbest Hchamps Hclass Hby Hstage Hpoints Hnew Hdim
    Hgen Hnone Hlast run new_branch_id.
  set (s1 := s <| spawn_depthByGrowthRule ::= insert growth_rule (depth_now + 1) |>
               <| spawn_depth ::= Z.add 1 |>).
  set (s2 := s1 <| SpawnStage ::= insert growth_rule stage' |>).
  destruct (new_branch_of_nothing set_names Hset growth_rule new_class s2 Hnew)
    as (s3 & Hrun3 & Hid & Hempty & Hredis & Hghost & Hparents).
  change (HighestBranchID s2) with (HighestBranchID s) in *.
  fold new_branch_id in Hrun3, Hid, Hempty.
  set (s4 := s3 <| branch_parents ::= insert new_branch_id branchID |>).
  assert (Hempty4 : empty_branch new_branch_id s4) by exact Hempty.
  pose proof (learn_nothing set_names Hset new_branch_id s4 Hempty4) as Hrun5.
  set (s5 := s4 <| redis ::= (fun r => r <| active_branches_learning_models ::=
                                 insert new_branch_id 0 |>) |>
                <| ghost_branch_list ::= (fun l => l ++ [new_branch_id]) |>) in Hrun5.
  assert (Hrun : run
    = (Ok (if bool_decide (last_stage = Some "Complete"%string) then true
           else check_tree_completed growth_class (depth_now + 1) dim), s5)).
  { unfold run, spawn_from_branch.
    rewrite (bind_ok get _ s s s eq_refl).
    rewrite (bind_ok _ _ s _ s (item_ok _ _ _ _ Hdepth)).
    unfold bind at 1. unfold modify at 1. fold s1.
    rewrite (bind_ok _ _ s1 _ s1 (item_ok _ _ _ _ Hrank)).
    rewrite (bind_ok _ _ s1 _ s1 (names_of_ok _ _ s1 Hbest)).
    rewrite (bind_ok _ _ s1 _ s1 (names_of_ok _ _ s1 Hchamps)).
    rewrite (bind_ok _ _ s1 _ s1 (item_ok _ _ _ _ Hclass)).
    rewrite (bind_ok _ _ s1 _ s1 (item_ok _ _ _ _ Hby)).
    rewrite (bind_ok _ _ s1 _ s1 (item_ok _ _ _ _ Hstage)).
    rewrite (bind_ok _ _ s1 _ s1 (item_ok _ _ _ _ Hpoints)).
    rewrite Hgen.
    unfold bind at 1. unfold modify at 1. fold s2.
    rewrite Hnone. cbn [map_outcome].
    rewrite (bind_ok (lift (Ok [])) _ s2 [] s2 eq_refl).
    rewrite (bind_ok _ _ s2 _ s3 Hrun3).
    unfold bind at 1. unfold modify at 1. fold s4.
    erewrite (bind_ok (try_except _ _) _ s4 dim s4).
    2: { unfold try_except, first_item, bind, raise, ret, lift. rewrite Hdim.
         reflexivity. }
    rewrite (bind_ok _ _ s4 _ s5 Hrun5).
    rewrite Hlast. reflexivity. }
  rewrite Hrun. cbn [fst snd].
  destruct Hempty as (Hm & Hi & Hp & Hn & Hnum & Hpairs & _).
  split; [reflexivity|].
  split; [exact Hid|].
  split; [exact Hi|].
  split; [exact Hnum|].
  split; [exact Hpairs|].
  split; [cbn; apply lookup_insert_eq|].
  split; [cbn; apply lookup_insert_eq|].
  split; [cbn; apply elem_of_app; right; apply list_elem_of_singleton; reflexivity|].
  intros Comparator depth.
  rewrite (tournament_of_nothing Comparator depth new_branch_id s5 Hi).
  reflexivity.
Qed.

(** The exhausted growth rule on the ranked branch 0: the request
    returns [False] and leaves the empty branch 1. *)
Lemma C9_zero_proposals_witness :
  (branch_rankings ranked_parent !! 0 = Some [0]
   /\ HighestBranchID ranked_parent + 1 = 1
   /\ fst spawned_nothing = Ok false)
  /\ (let run := spawn_from_branch remove_dups exhausted unbounded 0 "g" 1
                   ranked_parent in
      let new_branch_id := HighestBranchID ranked_parent + 1 in
      fst run = Ok (if bool_decide (None = Some "Complete"%string) then true
                    else unbounded "g" (0 + 1) 1)
      /\ HighestBranchID (snd run) = new_branch_id
      /\ BranchModelIds (snd run) !! new_branch_id = Some []
      /\ NumModelsPerBranch (snd run) !! new_branch_id = Some 0
      /\ NumModelPairsPerBranch (snd run) !! new_branch_id = Some (Tree.Int 0)
      /\ branch_parents (snd run) !! new_branch_id = Some 0
      /\ active_branches_learning_models (redis (snd run)) !! new_branch_id
         = Some 0
      /\ new_branch_id ∈ ghost_branch_list (snd run)
      /\ forall Comparator depth,
           fst (compare_all_models_in_branch Comparator depth new_branch_id
                  (snd run))
           = Raise ValueError).
Proof.
  split; [vm_compute; repeat apply conj; reflexivity|].
  exact (C9_zero_proposals_spawn_an_empty_branch remove_dups exhausted unbounded
           ranked_parent 0 "g" 1 0 [0] "x" [] ["x"%string] "g" "g"
           {[1 := ["x"%string]]} [None] [None] None [(0, 0)] [] 1
           eq_refl
           ltac:(vm_compute; reflexivity) ltac:(vm_compute; reflexivity)
           ltac:(vm_compute; reflexivity) ltac:(vm_compute; reflexivity)
           ltac:(vm_compute; reflexivity) ltac:(vm_compute; reflexivity)
           ltac:(vm_compute; reflexivity) ltac:(vm_compute; reflexivity)
           ltac:(vm_compute; reflexivity) ltac:(vm_compute; reflexivity)
           eq_refl eq_refl eq_refl).
Defined.

(** The growth rule proposes nothing and does not say that it is
    complete.  No error is raised where that happens: the request for
    the next generation returns [False], and the poll of the generation
    loop in which it is made ends with the empty branch 1 created and
    the loop still running.  The run is ended by the next poll, with
    the [ValueError] of the tournament of the empty branch. *)
Lemma C9_counterexample_exhausted_growth_rule :
  fst spawned_nothing = Ok false
  /\ fst (exhausted_run 1) = None
  /\ HighestBranchID (snd (exhausted_run 1)) = 1
  /\ BranchModelIds (snd (exhausted_run 1)) !! 1 = Some []
  /\ NumTreesCompleted (snd (exhausted_run 1)) = 0
  /\ fst (exhausted_run 2) = Some (Raise ValueError).
Proof. vm_compute. repeat apply conj; reflexivity. Qed.

(** * Further properties of the code *)

Section Strings.

Local Open Scope nat_scope.

Lemma length_append (a b : string) :
  String.length (a +:+ b) = String.length a + String.length b.
Proof.
  induction a as [|c a IH]; [reflexivity|].
  change (S (String.length (a +:+ b)) = S (String.length a) + String.length b).
  rewrite IH. reflexivity.
Qed.

Lemma prefix_length (a b : string) :
  String.prefix a b = true -> String.length a <= String.length b.
Proof.
  revert b. induction a as [|c a IH]; intros b H; [cbn; lia|].
  destruct b as [|d b]; [discriminate H|].
  cbn in H. destruct (ascii_dec c d); [|discriminate H].
  apply IH in H. cbn. lia.
Qed.

Lemma prefix_split (a b : string) :
  String.prefix a b = true -> b = a +:+ drop_chars (String.length a) b.
Proof.
  revert b. induction a as [|c a IH]; intros b H; [reflexivity|].
  destruct b as [|d b]; [discriminate H|].
  cbn in H. destruct (ascii_dec c d) as [->|]; [|discriminate H].
  apply IH in H. cbn [String.length drop_chars].
  change (String d b = String d (a +:+ drop_chars (String.length a) b)).
  rewrite <- H. reflexivity.
Qed.

Lemma count_from_occurs (sub s : string) : forall skip,
  0 < PyStr.count_from skip sub s -> String.length sub <= String.length s.
Proof.
  induction s as [|c s IH]; intros skip H; [cbn in H; lia|].
  cbn [PyStr.count_from] in H. destruct skip as [|k].
  - destruct (String.prefix sub (String c s)) eqn:E.
    + apply prefix_length. exact E.
    + apply IH in H. cbn. lia.
  - apply IH in H. cbn. lia.
Qed.

Lemma split_from_nonempty (sep s : string) : forall skip,
  PyStr.split_from skip sep s <> [].
Proof.
  induction s as [|c s IH]; intros skip; [discriminate|].
  cbn [PyStr.split_from]. destruct skip as [|k]; [|apply IH].
  destruct (String.prefix sep (String c s)); [discriminate|].
  destruct (PyStr.split_from 0 sep s); discriminate.
Qed.

Lemma concat_cons (sep x : string) (l : list string) :
  l <> [] -> String.concat sep (x :: l) = x +:+ sep +:+ String.concat sep l.
Proof. destruct l; [congruence|reflexivity]. Qed.

Lemma concat_cons_char (sep : string) (c : ascii) (h : string) (t : list string) :
  String.concat sep (String c h :: t) = String c (String.concat sep (h :: t)).
Proof. destruct t; reflexivity. Qed.

Lemma drop_chars_nil (n : nat) : drop_chars n "" = ""%string.
Proof. destruct n; reflexivity. Qed.

(** [sep.join(s.split(sep)) == s] *)
Lemma join_split_from (sep s : string) : forall skip,
  sep <> ""%string ->
  String.concat sep (PyStr.split_from skip sep s) = drop_chars skip s.
Proof.
  induction s as [|c s IH]; intros skip Hsep.
  - cbn. rewrite drop_chars_nil. reflexivity.
  - cbn [PyStr.split_from]. destruct skip as [|k].
    + destruct (String.prefix sep (String c s)) eqn:E.
      * rewrite concat_cons by apply split_from_nonempty.
        rewrite IH by exact Hsep.
        apply prefix_split in E.
        destruct sep as [|d sep]; [congruence|].
        cbn [String.length drop_chars] in E.
        replace (String.length (String d sep) - 1) with (String.length sep)
          by (cbn [String.length]; lia).
        cbn [drop_chars]. symmetry. exact E.
      * specialize (IH 0 Hsep). cbn [drop_chars] in IH |- *.
        destruct (PyStr.split_from 0 sep s) as [|h t] eqn:Es.
        { exfalso. exact (split_from_nonempty _ _ _ Es). }
        rewrite concat_cons_char, IH. reflexivity.
    + cbn [drop_chars]. apply IH. exact Hsep.
Qed.

Lemma pieces_no_longer (sep s : string) : forall skip p,
  In p (PyStr.split_from skip sep s) -> String.length p <= String.length s.
Proof.
  induction s as [|c s IH]; intros skip p Hp.
  - cbn in Hp. destruct Hp as [<-|[]]. cbn. lia.
  - cbn [PyStr.split_from] in Hp. destruct skip as [|k].
    + destruct (String.prefix sep (String c s)).
      * destruct Hp as [<-|Hp]; [cbn; lia|]. apply IH in Hp. cbn. lia.
      * destruct (PyStr.split_from 0 sep s) as [|h t] eqn:Es.
        { destruct Hp as [<-|[]]. cbn. lia. }
        destruct Hp as [<-|Hp].
        -- assert (String.length h <= String.length s)
             by (apply (IH 0); rewrite Es; left; reflexivity).
           cbn. lia.
        -- assert (String.length p <= String.length s)
             by (apply (IH 0); rewrite Es; right; exact Hp).
           cbn. lia.
    + apply IH in Hp. cbn. lia.
Qed.

Lemma pieces_shorter (sep s : string) : forall skip p,
  0 < PyStr.count_from skip sep s ->
  In p (PyStr.split_from skip sep s) -> String.length p < String.length s.
Proof.
  induction s as [|c s IH]; intros skip p Hc Hp; [cbn in Hc; lia|].
  cbn [PyStr.split_from] in Hp. cbn [PyStr.count_from] in Hc.
  destruct skip as [|k].
  - destruct (String.prefix sep (String c s)).
    + destruct Hp as [<-|Hp]; [cbn; lia|].
      apply pieces_no_longer in Hp. cbn. lia.
    + destruct (PyStr.split_from 0 sep s) as [|h t] eqn:Es.
      { exfalso. exact (split_from_nonempty _ _ _ Es). }
      destruct Hp as [<-|Hp].
      * assert (String.length h < String.length s)
          by (apply (IH 0); [exact Hc|rewrite Es; left; reflexivity]).
        cbn. lia.
      * assert (String.length p < String.length s)
          by (apply (IH 0); [exact Hc|rewrite Es; right; exact Hp]).
        cbn. lia.
  - assert (String.length p < String.length s) by (eapply IH; eassumption).
    cbn. lia.
Qed.

End Strings.

Section Runs.

Local Open Scope nat_scope.

Lemma count_from_contains (sub s : string) : forall skip,
  0 < PyStr.count_from skip sub s ->
  PyStr.contains (drop_chars skip s) sub = true.
Proof.
  induction s as [|c s IH]; intros skip H; [cbn in H; lia|].
  cbn [PyStr.count_from] in H. destruct skip as [|k].
  - cbn [drop_chars]. cbn [PyStr.contains].
    destruct (String.prefix sub (String c s)) eqn:E; [reflexivity|].
    apply IH in H. cbn [drop_chars] in H. rewrite H. apply orb_true_r.
  - cbn [drop_chars]. apply IH. exact H.
Qed.

Lemma contains_drop (sub s : string) : forall k,
  PyStr.contains (drop_chars k s) sub = true -> PyStr.contains s sub = true.
Proof.
  induction s as [|c s IH]; intros k H.
  - rewrite drop_chars_nil in H. exact H.
  - destruct k as [|k]; [exact H|].
    cbn [drop_chars] in H. apply IH in H.
    cbn [PyStr.contains]. rewrite H. apply orb_true_r.
Qed.

Lemma contains_count (sub s : string) :
  sub <> ""%string ->
  PyStr.contains s sub = true -> 0 < PyStr.count s sub.
Proof.
  intros Hsub. unfold PyStr.count.
  induction s as [|c s IH]; intros H.
  - cbn in H. destruct sub; [congruence|discriminate H].
  - cbn [PyStr.contains] in H. cbn [PyStr.count_from].
    destruct (String.prefix sub (String c s)) eqn:E; [lia|].
    cbn [orb] in H. apply IH. exact H.
Qed.

Lemma count_contains (sub s : string) :
  0 < PyStr.count s sub -> PyStr.contains s sub = true.
Proof. intros H. apply count_from_contains in H. exact H. Qed.

Lemma prefix_append (a b t : string) :
  String.prefix (a +:+ b) t = true -> String.prefix a t = true.
Proof.
  revert t. induction a as [|c a IH]; intros t H; [destruct t; reflexivity|].
  destruct t as [|d t]; [discriminate H|].
  change (String c a +:+ b) with (String c (a +:+ b)) in H.
  cbn [String.prefix] in H |- *.
  destruct (ascii_dec c d); [|discriminate H]. apply IH. exact H.
Qed.

Lemma contains_append (a b s : string) :
  PyStr.contains s (a +:+ b) = true -> PyStr.contains s a = true.
Proof.
  induction s as [|c s IH]; intros H.
  - cbn [PyStr.contains] in H |- *. rewrite orb_false_r in *.
    apply prefix_append in H. exact H.
  - cbn [PyStr.contains] in H |- *.
    apply orb_true_iff in H as [H|H].
    + apply prefix_append in H. rewrite H. reflexivity.
    + rewrite (IH H). apply orb_true_r.
Qed.

Lemma run_of_snoc (c : ascii) (n : nat) :
  run_of c n +:+ String c "" = run_of c (S n).
Proof.
  unfold run_of. induction n as [|n IH]; [reflexivity|].
  cbn [repeat string_of_list_ascii] in IH |- *.
  change (String c (string_of_list_ascii (repeat c n) +:+ String c "")
          = String c (String c (string_of_list_ascii (repeat c n)))).
  rewrite IH. reflexivity.
Qed.

Lemma run_of_length (c : ascii) (n : nat) : String.length (run_of c n) = n.
Proof.
  unfold run_of. induction n as [|n IH]; [reflexivity|].
  cbn. rewrite IH. reflexivity.
Qed.

Lemma run_of_add (c : ascii) (n k : nat) :
  run_of c (n + k) = run_of c n +:+ run_of c k.
Proof.
  unfold run_of. induction n as [|n IH]; [reflexivity|].
  cbn [Nat.add repeat string_of_list_ascii]. rewrite IH. reflexivity.
Qed.

(** The loop of [find_max_letter] from a run of [j] letters: with
    enough turns left it stops at the longest run that occurs. *)
Lemma grow_run_longest (s : string) (c : ascii) : forall fuel j,
  String.length s < fuel + j ->
  (forall k, 0 < k <= j -> 0 < PyStr.count s (run_of c k)) ->
  exists n,
    grow_run fuel s (String c "") (run_of c j) = run_of c n
    /\ (forall k, 0 < k <= n -> 0 < PyStr.count s (run_of c k))
    /\ PyStr.count s (run_of c (S n)) = 0.
Proof.
  induction fuel as [|fuel IH]; intros j Hfuel Hocc.
  - exists j. cbn [grow_run]. split; [reflexivity|]. split; [exact Hocc|].
    destruct (PyStr.count s (run_of c (S j))) eqn:E; [reflexivity|].
    assert (H : 0 < PyStr.count_from 0 (run_of c (S j)) s)
      by (unfold PyStr.count in E; lia).
    apply count_from_occurs in H. rewrite run_of_length in H. lia.
  - cbn [grow_run]. rewrite run_of_snoc.
    destruct (Nat.ltb_spec 0 (PyStr.count s (run_of c (S j)))) as [Hpos|Hzero].
    + apply IH; [lia|].
      intros k Hk. destruct (Nat.eq_dec k (S j)) as [->|Hne]; [exact Hpos|].
      apply Hocc. lia.
    + exists j. split; [reflexivity|]. split; [exact Hocc|]. lia.
Qed.

End Runs.

(** X1: [find_max_letter] returns the longest run of the letter that
    occurs in the string, together with its length: a run of [m > 0]
    letters occurs in the string exactly when [m] is at most the length
    returned, and the string returned is the run of that length. *)
Theorem find_max_letter_longest_run (s : string) (c : ascii) :
  let '(n, r) := find_max_letter s (String c "") in
  r = run_of c n
  /\ forall m, (0 < m)%nat ->
       PyStr.contains s (run_of c m) = true <-> (m <= n)%nat.
Proof.
  unfold find_max_letter.
  destruct (grow_run_longest s c (S (String.length s)) 0) as (n & E & Hocc & Hstop).
  { lia. }
  { intros k Hk. lia. }
  change (run_of c 0) with ""%string in E. rewrite E, run_of_length.
  split; [reflexivity|]. intros m Hm. split.
  - intros Hin. destruct (Nat.le_gt_cases m n) as [Hle|Hgt]; [exact Hle|].
    exfalso. replace m with (S n + (m - S n))%nat in Hin by lia.
    rewrite run_of_add in Hin. apply contains_append in Hin.
    apply contains_count in Hin; [lia|]. discriminate.
  - intros Hle. apply count_contains. apply Hocc. lia.
Qed.

Section AlphReturns.

Local Open Scope nat_scope.

Lemma max_letter_occurs (s : string) (c : ascii) (n : nat) (r : string) :
  find_max_letter s (String c "") = (n, r) ->
  r = run_of c n /\ (0 < n -> r <> ""%string /\ 0 < PyStr.count s r).
Proof.
  unfold find_max_letter. intros E.
  destruct (grow_run_longest s c (S (String.length s)) 0) as (k & Ek & Hocc & _).
  { lia. }
  { intros j Hj. lia. }
  change (run_of c 0) with ""%string in Ek. rewrite Ek in E.
  rewrite run_of_length in E. injection E as <- <-.
  split; [reflexivity|]. intros Hk. split.
  - destruct k; [lia|]. discriminate.
  - apply Hocc. lia.
Qed.

Lemma split_ok (name sep : string) :
  sep <> ""%string -> PyStr.split name sep = Ok (PyStr.split_from 0 sep name).
Proof. destruct sep; [congruence|reflexivity]. Qed.

Lemma insert_sorted_in (x y : string) (l : list string) :
  In y (PyStr.insert_sorted x l) <-> y = x \/ In y l.
Proof.
  induction l as [|z l IH]; cbn [PyStr.insert_sorted].
  - cbn. intuition congruence.
  - destruct (String.leb x z); cbn [In]; [intuition congruence|].
    rewrite IH. intuition congruence.
Qed.

Lemma sorted_in (y : string) (l : list string) :
  In y (PyStr.sorted l) <-> In y l.
Proof.
  unfold PyStr.sorted. induction l as [|x l IH]; [reflexivity|].
  cbn [fold_right]. rewrite insert_sorted_in, IH. cbn. intuition congruence.
Qed.

Lemma insert_sorted_sizes (x : string) (l : list string) :
  length (PyStr.insert_sorted x l) = S (length l)
  /\ total_length (PyStr.insert_sorted x l) = String.length x + total_length l.
Proof.
  induction l as [|z l [IH1 IH2]]; cbn [PyStr.insert_sorted]; [split; reflexivity|].
  destruct (String.leb x z); [split; reflexivity|].
  cbn [length total_length fold_right] in *. fold (total_length l) in *.
  fold (total_length (PyStr.insert_sorted x l)).
  rewrite IH1, IH2. split; lia.
Qed.

Lemma sorted_sizes (l : list string) :
  length (PyStr.sorted l) = length l
  /\ total_length (PyStr.sorted l) = total_length l.
Proof.
  unfold PyStr.sorted. induction l as [|x l [IH1 IH2]]; [split; reflexivity|].
  cbn [fold_right]. destruct (insert_sorted_sizes x (fold_right PyStr.insert_sorted [] l))
    as [H1 H2].
  rewrite H1, H2, IH1, IH2. split; reflexivity.
Qed.

Lemma concat_length (sep : string) (l : list string) :
  String.length (String.concat sep l)
  = total_length l + (length l - 1) * String.length sep.
Proof.
  induction l as [|x l IH]; [reflexivity|].
  destruct l as [|y l].
  - cbn. lia.
  - rewrite concat_cons by discriminate.
    rewrite !length_append, IH. cbn [length total_length fold_right]. lia.
Qed.

Lemma concat_same_sizes (sep : string) (l l' : list string) :
  length l' = length l -> total_length l' = total_length l ->
  String.length (String.concat sep l') = String.length (String.concat sep l).
Proof. intros H1 H2. rewrite !concat_length, H1, H2. reflexivity. Qed.

Lemma map_outcome_sizes (f : string -> outcome string) (l : list string) :
  (forall x, In x l -> exists y, f x = Ok y /\ String.length y = String.length x) ->
  exists l', map_outcome f l = Ok l'
    /\ length l' = length l /\ total_length l' = total_length l.
Proof.
  induction l as [|x l IH]; intros H.
  - exists []. repeat split.
  - destruct (H x) as (y & Ey & Ly); [left; reflexivity|].
    destruct IH as (l' & El & L1 & L2); [intros z Hz; apply H; right; exact Hz|].
    exists (y :: l'). cbn [map_outcome]. rewrite Ey. cbn [obind]. rewrite El.
    cbn [obind length total_length fold_right]. fold (total_length l').
    fold (total_length l). rewrite L1, L2, Ly. repeat split.
Qed.

Lemma split_length (name sep : string) :
  sep <> ""%string ->
  String.length (String.concat sep (PyStr.split_from 0 sep name))
  = String.length name.
Proof. intros H. rewrite join_split_from by exact H. reflexivity. Qed.

(** Every branch of [alph] cuts the name at a run that occurs in it,
    so the pieces are shorter than the name. *)
Lemma alph_fuel_returns : forall fuel name,
  String.length name < fuel ->
  exists r, alph_fuel fuel name = Ok r /\ String.length r = String.length name.
Proof.
  induction fuel as [|fuel IH]; intros name Hfuel; [lia|].
  cbn [alph_fuel].
  destruct (find_max_letter name "T") as [t_max t_str] eqn:Et.
  destruct (find_max_letter name "P") as [p_max p_str] eqn:Ep.
  destruct (find_max_letter name "M") as [m_max m_str] eqn:Em.
  apply max_letter_occurs in Et as [_ Ht].
  apply max_letter_occurs in Ep as [_ Hp].
  apply max_letter_occurs in Em as [_ Hm].
  destruct ((p_max =? 0) && (t_max =? 0) && (p_max =? 0)) eqn:Eplain.
  { exists name. split; reflexivity. }
  assert (Hcut : forall sep, sep <> ""%string -> 0 < PyStr.count name sep ->
    (exists l, map_outcome (alph_fuel fuel) (PyStr.split_from 0 sep name) = Ok l
       /\ String.length (String.concat sep l) = String.length name
       /\ String.length (String.concat sep (PyStr.sorted l)) = String.length name)
    /\ (exists l, map_outcome (alph_fuel fuel)
                    (PyStr.sorted (PyStr.split_from 0 sep name)) = Ok l
          /\ String.length (String.concat sep l) = String.length name)
    /\ String.length (String.concat sep (PyStr.sorted (PyStr.split_from 0 sep name)))
       = String.length name).
  { intros sep Hsep Hocc.
    assert (Hshort : forall x, In x (PyStr.split_from 0 sep name) ->
              exists y, alph_fuel fuel x = Ok y /\ String.length y = String.length x).
    { intros x Hx. apply IH.
      pose proof (pieces_shorter sep name 0 x Hocc Hx). lia. }
    destruct (sorted_sizes (PyStr.split_from 0 sep name)) as [S1 S2].
    split; [|split].
    - destruct (map_outcome_sizes _ _ Hshort) as (l & El & L1 & L2).
      exists l. split; [exact El|]. split.
      + rewrite (concat_same_sizes sep _ l L1 L2). apply split_length. exact Hsep.
      + destruct (sorted_sizes l) as [T1 T2].
        rewrite (concat_same_sizes sep (PyStr.split_from 0 sep name)
                   (PyStr.sorted l)) by congruence.
        apply split_length. exact Hsep.
    - destruct (map_outcome_sizes (alph_fuel fuel)
                  (PyStr.sorted (PyStr.split_from 0 sep name))) as (l & El & L1 & L2).
      { intros x Hx. apply Hshort. apply sorted_in. exact Hx. }
      exists l. split; [exact El|].
      rewrite (concat_same_sizes sep (PyStr.split_from 0 sep name) l) by congruence.
      apply split_length. exact Hsep.
    - rewrite (concat_same_sizes sep _ _ S1 S2). apply split_length. exact Hsep. }
  assert (Hany : forall ltr sep, sep <> ""%string -> 0 < PyStr.count name sep ->
    (p_max = 0 -> False) \/ True ->
    exists r,
      obind (PyStr.split name sep) (fun spread =>
        if (p_max =? m_max) && (t_max <? p_max) then
          obind (PyStr.split name p_str) (fun list_elements =>
          obind (map_outcome (alph_fuel fuel) list_elements) (fun l =>
          Ok (PyStr.join p_str (PyStr.sorted l))))
        else if String.eqb ltr "P"%string && (p_max =? 1) then
          Ok (PyStr.join sep (PyStr.sorted spread))
        else if String.eqb ltr "P"%string && (1 <? p_max) then
          obind (PyStr.split name sep) (fun list_elements =>
          let sorted_list := PyStr.sorted list_elements in
          obind (map_outcome (alph_fuel fuel) sorted_list) (fun l =>
          Ok (PyStr.join sep l)))
        else
          obind (map_outcome (alph_fuel fuel) spread) (fun l =>
          Ok (PyStr.join sep l))) = Ok r
      /\ String.length r = String.length name).
  { intros ltr sep Hsep Hocc _.
    rewrite (split_ok name sep Hsep). cbn [obind].
    destruct (Hcut sep Hsep Hocc) as ((l1 & E1 & L1 & L1') & (l2 & E2 & L2) & L3).
    destruct ((p_max =? m_max) && (t_max <? p_max)) eqn:Epm.
    { apply andb_true_iff in Epm as [_ Hlt]. apply Nat.ltb_lt in Hlt.
      destruct Hp as [Hpne Hpocc]; [lia|].
      rewrite (split_ok name p_str Hpne). cbn [obind].
      destruct (Hcut p_str Hpne Hpocc) as ((l & El & _ & Ll) & _ & _).
      rewrite El. cbn [obind]. eexists. split; [reflexivity|exact Ll]. }
    destruct (String.eqb ltr "P" && (p_max =? 1)).
    { eexists. split; [reflexivity|exact L3]. }
    destruct (String.eqb ltr "P" && (1 <? p_max)).
    { cbv zeta. rewrite E2. cbn [obind]. eexists. split; [reflexivity|exact L2]. }
    rewrite E1. cbn [obind]. eexists. split; [reflexivity|exact L1]. }
  apply andb_false_iff in Eplain.
  assert (Hnz : p_max <> 0 \/ t_max <> 0).
  { destruct Eplain as [H|H]; [apply andb_false_iff in H as [H|H]|];
      apply Nat.eqb_neq in H; auto. }
  destruct ((t_max <? p_max) && (m_max <? p_max)) eqn:E1.
  { apply andb_true_iff in E1 as [H1 _]. apply Nat.ltb_lt in H1.
    destruct Hp as [Hpne Hpocc]; [lia|]. apply Hany; auto. }
  destruct (Nat.leb_spec p_max t_max) as [H2|H2].
  { destruct Ht as [Htne Htocc]; [lia|]. apply Hany; auto. }
  destruct (Nat.leb_spec p_max m_max) as [H3|H3].
  { destruct Hm as [Hmne Hmocc]; [lia|]. apply Hany; auto. }
  exfalso. apply andb_false_iff in E1 as [E1|E1]; apply Nat.ltb_ge in E1; lia.
Qed.

End AlphReturns.

(** X2: [alph] returns on every name, without raising and without
    running out of depth, and its result has as many characters as the
    name it was given. *)
Theorem alph_returns_same_length (name : string) :
  exists r, alph name = Ok r /\ String.length r = String.length name.
Proof. unfold alph. apply alph_fuel_returns. lia. Qed.

(** ** Small branches *)

(** X3: for at most 22 models [num_pairs_in_list] returns, and its
    value is the exact number of pairs: 0 for at most one model,
    [n (n - 1) / 2] otherwise. *)
Theorem num_pairs_in_list_small_branches (n : Z) :
  n <= 22 ->
  exists r, Tree.num_pairs_in_list n = Ok r
    /\ Tree.number_value r = Some (if n <=? 1 then 0 else n * (n - 1) / 2).
Proof.
  intros Hn. destruct (Z.leb_spec n 1) as [Hsmall|Hbig].
  - exists (Tree.Int 0). unfold Tree.num_pairs_in_list.
    destruct (Z.leb_spec n 1); [split; reflexivity|lia].
  - apply num_pairs_exact_up_to_22. lia.
Qed.

Lemma num_pairs_in_list_small_witness :
  4 <= 22
  /\ exists r, Tree.num_pairs_in_list 4 = Ok r
       /\ Tree.number_value r = Some (if 4 <=? 1 then 0 else 4 * (4 - 1) / 2).
Proof.
  split; [lia|]. apply (num_pairs_in_list_small_branches 4). lia.
Defined.

(** ** The number of qubits of a name *)

Lemma first_char_is_not_h_ (term : string) :
  String.eqb (String.substring 0 1 term) "h_" = false.
Proof.
  destruct term as [|c [|d t]]; [reflexivity| |];
    cbn [String.substring]; apply String.eqb_neq; intros H;
    inversion H.
Qed.

Lemma names_dimension_markers (term : string) :
  names_dimension term = dimension_marker term.
Proof.
  unfold names_dimension, dimension_marker.
  rewrite first_char_is_not_h_. reflexivity.
Qed.

Lemma constituents_return (name : string) :
  exists terms, get_constituent_names_from_name name = Ok terms.
Proof.
  unfold get_constituent_names_from_name.
  destruct (existsb _ _); [|eexists; reflexivity].
  unfold verbose_naming_mechanism_separate_terms, get_t_p_strings.
  pose proof (max_letter_occurs name "P"%char) as Hp.
  unfold find_max_letter in Hp.
  set (p_str := grow_run _ name "P" "") in *.
  destruct (Nat.leb_spec (String.length p_str)
              (String.length (grow_run (S (String.length name)) name "T" "")))
    as [Hle|Hlt]; [eexists; reflexivity|].
  destruct (Hp _ _ eq_refl) as [_ Hocc].
  destruct Hocc as [Hne _]; [lia|].
  rewrite (split_ok name p_str Hne). eexists; reflexivity.
Qed.

(** X4: the test [term[0:1] == 'h_'] of [get_num_qubits] compares one
    character with two and never holds, so a dimension is read from a
    term only if the term contains one of the six other markers.  A
    name none of whose terms does gets one qubit more than its longest
    run of [T]; the terms themselves are always found. *)
Theorem get_num_qubits_counts_tensor_runs (name : string) :
  exists terms,
    get_constituent_names_from_name name = Ok terms
    /\ (forallb (fun term => negb (dimension_marker term)) terms = true ->
        get_num_qubits name
        = Ok (Z.of_nat (fst (find_max_letter name "T")) + 1)).
Proof.
  destruct (constituents_return name) as (terms & E).
  exists terms. split; [exact E|]. intros Hplain.
  unfold get_num_qubits. rewrite E. cbn [obind].
  assert (Hfind : List.find names_dimension terms = None).
  { clear E. induction terms as [|t terms IH]; [reflexivity|].
    cbn [forallb] in Hplain. apply andb_true_iff in Hplain as [Ht Hrest].
    cbn [List.find]. rewrite names_dimension_markers.
    apply negb_true_iff in Ht. rewrite Ht. apply IH. exact Hrest. }
  rewrite Hfind. reflexivity.
Qed.

(** ** One compared pair *)

Lemma first_row_id (m : Z) (d : list row) (r : row) (rs : list row) :
  rows_with_id m d = r :: rs -> row_ModelID r = m.
Proof.
  unfold rows_with_id. intros E.
  assert (H : r ∈ filter (fun r => row_ModelID r = m) d) by (rewrite E; left).
  apply list_elem_of_filter in H as [H _]. exact H.
Qed.

Lemma process_order (a b : Z) :
  processRemoteBayesPair a b = processRemoteBayesPair b a.
Proof.
  unfold processRemoteBayesPair, unique_model_pair_identifier.
  rewrite (Z.min_comm b a), (Z.max_comm b a). reflexivity.
Qed.

(** X5: [processRemoteBayesPair] on a stored, non-zero ratio of two
    models that both have a row: above the lower threshold the lower id
    wins, below the reciprocal of the threshold the higher id wins, and
    the order in which the two ids are passed makes no difference to
    the call. *)
Theorem decisive_pair_verdict (s : qmla) (a b : Z) (r : PyFloat.float) :
  rows_with_id (Z.min a b) (db s) <> [] ->
  rows_with_id (Z.max a b) (db s) <> [] ->
  bayes_factors_db (redis s) !! (Z.min a b, Z.max a b) = Some r ->
  PyFloat.is_zero r = false ->
  (PyFloat.gtb r (BayesLower s) = true ->
   fst (processRemoteBayesPair a b s) = Ok (Z.min a b))
  /\ (forall bound,
        PyFloat.gtb r (BayesLower s) = false ->
        PyFloat.div (PyFloat.lit 1) (BayesLower s) = Ok bound ->
        PyFloat.ltb r bound = true ->
        fst (processRemoteBayesPair a b s) = Ok (Z.max a b))
  /\ processRemoteBayesPair b a s = processRemoteBayesPair a b s.
Proof.
  intros Hlow Hhigh Hbf Hz.
  assert (Hrun : forall champ,
    (if PyFloat.gtb r (BayesLower s) then Some (Z.min a b)
     else match PyFloat.div (PyFloat.lit 1) (BayesLower s) with
          | Ok bound => if PyFloat.ltb r bound then Some (Z.max a b) else None
          | Raise _ => None
          end) = Some champ ->
    fst (processRemoteBayesPair a b s) = Ok champ).
  { intros champ Hchamp.
    unfold processRemoteBayesPair, unique_model_pair_identifier,
      get_model_storage_instance_by_id, append_bayes_factor.
    unfold bind, get, ret, raise, lift, modify.
    cbn [fst snd].
    destruct (rows_with_id (Z.min a b) (db s)) as [|rl rls] eqn:El; [congruence|].
    destruct (rows_with_id (Z.max a b) (db s)) as [|rh rhs] eqn:Eh; [congruence|].
    rewrite Hbf. unfold PyFloat.div at 1. rewrite Hz.
    cbn [fst snd].
    rewrite (first_row_id _ _ _ _ El), (first_row_id _ _ _ _ Eh).
    destruct (PyFloat.gtb r (BayesLower s)).
    - injection Hchamp as <-. reflexivity.
    - destruct (PyFloat.div (PyFloat.lit 1) (BayesLower s)) as [bound|e];
        [|discriminate Hchamp].
      cbn [fst snd]. destruct (PyFloat.ltb r bound); [|discriminate Hchamp].
      injection Hchamp as <-. reflexivity. }
  split; [|split].
  - intros Hgt. apply Hrun. rewrite Hgt. reflexivity.
  - intros bound Hgt Hbound Hlt. apply Hrun. rewrite Hgt, Hbound, Hlt. reflexivity.
  - rewrite (process_order b a). reflexivity.
Qed.

Lemma decisive_pair_witness :
  (rows_with_id (Z.min 1 0) (db spec_scenario) <> []
   /\ rows_with_id (Z.max 1 0) (db spec_scenario) <> []
   /\ bayes_factors_db (redis spec_scenario) !! (Z.min 1 0, Z.max 1 0) = Some ten
   /\ PyFloat.is_zero ten = false
   /\ PyFloat.gtb ten (BayesLower spec_scenario) = true)
  /\ (PyFloat.gtb ten (BayesLower spec_scenario) = true ->
      fst (processRemoteBayesPair 1 0 spec_scenario) = Ok (Z.min 1 0))
  /\ (forall bound,
        PyFloat.gtb ten (BayesLower spec_scenario) = false ->
        PyFloat.div (PyFloat.lit 1) (BayesLower spec_scenario) = Ok bound ->
        PyFloat.ltb ten bound = true ->
        fst (processRemoteBayesPair 1 0 spec_scenario) = Ok (Z.max 1 0))
  /\ processRemoteBayesPair 0 1 spec_scenario
     = processRemoteBayesPair 1 0 spec_scenario.
Proof.
  split.
  - repeat apply conj; try (vm_compute; reflexivity); vm_compute; discriminate.
  - apply (decisive_pair_verdict spec_scenario 1 0 ten);
      try (vm_compute; reflexivity); vm_compute; discriminate.
Defined.

(** X6: how [processRemoteBayesPair] fails.  A model without a row is
    an [IndexError] and a pair without a stored ratio an
    [UnboundLocalError], both before anything is written; a stored
    ratio of zero is a [ZeroDivisionError] raised after the ratio has
    been appended to the cache of the lower id and before the cache of
    the higher id is touched. *)
Theorem unprocessed_pair_errors (s : qmla) (a b : Z) :
  (rows_with_id (Z.min a b) (db s) = [] ->
   processRemoteBayesPair a b s = (Raise IndexError, s))
  /\ (rows_with_id (Z.min a b) (db s) <> [] ->
      rows_with_id (Z.max a b) (db s) = [] ->
      processRemoteBayesPair a b s = (Raise IndexError, s))
  /\ (rows_with_id (Z.min a b) (db s) <> [] ->
      rows_with_id (Z.max a b) (db s) <> [] ->
      bayes_factors_db (redis s) !! (Z.min a b, Z.max a b) = None ->
      processRemoteBayesPair a b s = (Raise UnboundLocalError, s))
  /\ (forall r,
        a <> b ->
        rows_with_id (Z.min a b) (db s) <> [] ->
        rows_with_id (Z.max a b) (db s) <> [] ->
        bayes_factors_db (redis s) !! (Z.min a b, Z.max a b) = Some r ->
        PyFloat.is_zero r = true ->
        fst (processRemoteBayesPair a b s) = Raise ZeroDivisionError
        /\ cache (snd (processRemoteBayesPair a b s)) (Z.min a b) (Z.max a b)
           = cache s (Z.min a b) (Z.max a b) ++ [r]
        /\ cache (snd (processRemoteBayesPair a b s)) (Z.max a b) (Z.min a b)
           = cache s (Z.max a b) (Z.min a b)).
Proof.
  unfold processRemoteBayesPair, unique_model_pair_identifier,
    get_model_storage_instance_by_id.
  unfold bind, get, ret, raise, lift.
  split; [|split; [|split]].
  - intros El. rewrite El. reflexivity.
  - intros Hl Eh.
    destruct (rows_with_id (Z.min a b) (db s)); [congruence|].
    rewrite Eh. reflexivity.
  - intros Hl Hh Hbf.
    destruct (rows_with_id (Z.min a b) (db s)); [congruence|].
    destruct (rows_with_id (Z.max a b) (db s)); [congruence|].
    rewrite Hbf. reflexivity.
  - intros r Hab Hl Hh Hbf Hz.
    pose proof (cache_append_same s (Z.min a b) (Z.max a b) r Hl) as Hsame.
    pose proof (cache_append_other s (Z.min a b) (Z.max a b)
                  (Z.max a b) (Z.min a b) r) as Hother.
    destruct (rows_with_id (Z.min a b) (db s)) as [|rl rls]; [congruence|].
    destruct (rows_with_id (Z.max a b) (db s)) as [|rh rhs]; [congruence|].
    rewrite Hbf.
    destruct (append_bayes_factor (Z.min a b) (Z.max a b) r s) as [o s1] eqn:Eapp.
    assert (o = Ok tt) as -> by (unfold append_bayes_factor, modify in Eapp;
                                 inversion Eapp; reflexivity).
    cbn [snd] in Hsame, Hother.
    unfold PyFloat.div. rewrite Hz. cbn [fst snd].
    split; [reflexivity|]. split.
    + exact Hsame.
    + apply Hother. intros E. inversion E. lia.
Qed.

(** ** Names and ids *)

Lemma filter_narrow {A} (P Q : A -> Prop) `{forall x, Decision (P x)}
  `{forall x, Decision (Q x)} (l : list A) :
  (forall x, x ∈ l -> P x -> Q x) ->
  filter P l = filter P (filter Q l).
Proof.
  intros H1. induction l as [|x l IH]; [reflexivity|].
  assert (IH' : filter P l = filter P (filter Q l))
    by (apply IH; intros y Hy; apply H1; right; exact Hy).
  destruct (decide (P x)) as [Hp|Hp].
  - rewrite (filter_cons_True P) by exact Hp.
    rewrite (filter_cons_True Q) by (apply H1; [left|exact Hp]).
    rewrite (filter_cons_True P) by exact Hp. f_equal. exact IH'.
  - rewrite (filter_cons_False P) by exact Hp.
    destruct (decide (Q x)) as [Hq|Hq].
    + rewrite (filter_cons_True Q) by exact Hq.
      rewrite (filter_cons_False P) by exact Hp. exact IH'.
    + rewrite (filter_cons_False Q) by exact Hq. exact IH'.
Qed.

(** X7: for a model with exactly one row, a canonical name and a name
    no row of another id carries, [model_name_from_id] and
    [model_id_from_name] are inverse to each other and leave the agent
    as it was. *)
Theorem name_of_id_round_trip (s : qmla) (model_id : Z) (r : row) :
  rows_with_id model_id (db s) = [r] ->
  alph (row_Name r) = Ok (row_Name r) ->
  (forall r', r' ∈ db s -> row_Name r' = row_Name r -> row_ModelID r' = model_id) ->
  model_name_from_id model_id s = (Ok (row_Name r), s)
  /\ model_id_from_name (row_Name r) s = (Ok model_id, s).
Proof.
  intros Hrow Hfix Hname. split.
  - unfold model_name_from_id. rewrite (bind_ok get _ s s s eq_refl).
    rewrite Hrow. reflexivity.
  - rewrite <- (first_row_id model_id (db s) r [] Hrow) at 1.
    apply model_id_found; [exact Hfix|].
    rewrite (filter_narrow (fun r' => row_Name r' = row_Name r)
               (fun r' => row_ModelID r' = model_id) (db s) Hname).
    fold (rows_with_id model_id (db s)). rewrite Hrow.
    rewrite filter_cons_True by reflexivity. reflexivity.
Qed.

Lemma name_of_id_round_trip_witness :
  (rows_with_id 1 (db spec_scenario) = [mkrow "y" 1 0 ∅]
   /\ alph "y" = Ok "y"%string)
  /\ model_name_from_id 1 spec_scenario = (Ok "y"%string, spec_scenario)
  /\ model_id_from_name "y" spec_scenario = (Ok 1, spec_scenario).
Proof.
  split; [split; vm_compute; reflexivity|].
  apply (name_of_id_round_trip spec_scenario 1 (mkrow "y" 1 0 ∅)).
  - vm_compute. reflexivity.
  - vm_compute. reflexivity.
  - intros r' Hr' Hn. apply list_elem_of_In in Hr'.
    destruct Hr' as [<-|[<-|[<-|[]]]]; try reflexivity; discriminate Hn.
Defined.

(** ** The champions of each tree *)

Lemma initial_groups (rules : list string) (gen : string) :
  (list_to_map (map (fun gen => (gen, [])) rules) : gmap string (list Z)) !! gen
  = if bool_decide (gen ∈ rules) then Some [] else None.
Proof.
  induction rules as [|g rules IH]; cbn [map list_to_map foldr].
  - rewrite lookup_empty. rewrite bool_decide_eq_false_2 by apply not_elem_of_nil.
    reflexivity.
  - change (<[g := []]> (list_to_map (map (fun gen => (gen, [])) rules)
                          : gmap string (list Z)) !! gen
            = if bool_decide (gen ∈ g :: rules) then Some [] else None).
    destruct (decide (g = gen)) as [->|Hne].
    + rewrite lookup_insert_eq, bool_decide_eq_true_2 by left. reflexivity.
    + rewrite lookup_insert_ne by exact Hne. rewrite IH.
      destruct (decide (gen ∈ rules)) as [Hin|Hout].
      * rewrite !bool_decide_eq_true_2; [reflexivity|right; exact Hin|exact Hin].
      * rewrite !bool_decide_eq_false_2; [reflexivity| |exact Hout].
        intros Hc. apply elem_of_cons in Hc as [->|Hc]; [congruence|contradiction].
Qed.

Lemma group_by_tree_spec (champs : list Z) :
  forall (d : gmap string (list Z)) (s : qmla),
  (forall m, m ∈ champs ->
     exists gen, growth_rule_of s m = Some gen /\ is_Some (d !! gen)) ->
  exists d',
    group_by_tree champs d s = (Ok d', s)
    /\ forall gen,
         d' !! gen
         = (fun l => l ++ filter (fun m => growth_rule_of s m = Some gen) champs)
             <$> d !! gen.
Proof.
  induction champs as [|c champs IH]; intros d s Hall.
  - exists d. split; [reflexivity|]. intros gen.
    destruct (d !! gen) as [l|]; cbn; [rewrite app_nil_r|]; reflexivity.
  - destruct (Hall c) as (g & Hg & [members Hmem]); [left|].
    unfold growth_rule_of in Hg.
    destruct (ModelsBranches s !! c) as [b|] eqn:Hb; [|discriminate Hg].
    cbn in Hg.
    destruct (IH (<[g := members ++ [c]]> d) s) as (d' & Erun & Hd').
    { intros m Hm. destruct (Hall m) as (gm & Hgm & Hsome); [right; exact Hm|].
      exists gm. split; [exact Hgm|].
      destruct (decide (g = gm)) as [->|Hne].
      - rewrite lookup_insert_eq. eauto.
      - rewrite lookup_insert_ne by exact Hne. exact Hsome. }
    exists d'. split.
    + cbn [group_by_tree]. rewrite (bind_ok get _ s s s eq_refl).
      rewrite (bind_ok _ _ s _ s (item_ok _ _ _ _ Hb)).
      rewrite (bind_ok _ _ s _ s (item_ok _ _ _ _ Hg)).
      rewrite (bind_ok _ _ s _ s (item_ok _ _ _ _ Hmem)).
      exact Erun.
    + intros gen. rewrite Hd'.
      assert (Hc : growth_rule_of s c = Some g)
        by (unfold growth_rule_of; rewrite Hb; exact Hg).
      destruct (decide (g = gen)) as [->|Hne].
      * rewrite lookup_insert_eq, Hmem.
        rewrite filter_cons_True by exact Hc.
        cbn [fmap option_fmap option_map].
        rewrite <- app_assoc. reflexivity.
      * rewrite lookup_insert_ne by exact Hne.
        rewrite filter_cons_False by (rewrite Hc; congruence). reflexivity.
Qed.

(** X8: the grouping of the active branch champions by tree in
    [perform_final_bayes_comparisons].  If every active champion was
    registered on a branch whose growth rule is one of the agent's,
    the grouping returns; it has an entry for each of the agent's
    growth rules and for nothing else, and the entry of a rule lists
    the active champions of that rule in their order. *)
Theorem tree_champions_grouped (s : qmla) :
  (forall m, m ∈ ActiveBranchChampList s ->
     exists gen, growth_rule_of s m = Some gen /\ gen ∈ growth_rules_list s) ->
  exists d,
    ActiveTreeBranchChamps s = (Ok d, s)
    /\ forall gen,
         d !! gen
         = if bool_decide (gen ∈ growth_rules_list s)
           then Some (filter (fun m => growth_rule_of s m = Some gen)
                        (ActiveBranchChampList s))
           else None.
Proof.
  intros Hall. unfold ActiveTreeBranchChamps.
  destruct (group_by_tree_spec (ActiveBranchChampList s)
              (list_to_map (map (fun gen => (gen, [])) (growth_rules_list s))) s)
    as (d & Erun & Hd).
  { intros m Hm. destruct (Hall m Hm) as (gen & Hgen & Hin).
    exists gen. split; [exact Hgen|].
    rewrite initial_groups, bool_decide_eq_true_2 by exact Hin. eauto. }
  exists d. split.
  - rewrite (bind_ok get _ s s s eq_refl). exact Erun.
  - intros gen. rewrite Hd, initial_groups.
    destruct (bool_decide (gen ∈ growth_rules_list s)); reflexivity.
Qed.

Lemma tree_champions_grouped_witness :
  exists d,
    ActiveTreeBranchChamps reproposed_champion = (Ok d, reproposed_champion)
    /\ forall gen,
         d !! gen
         = if bool_decide (gen ∈ growth_rules_list reproposed_champion)
           then Some (filter (fun m => growth_rule_of reproposed_champion m
                                       = Some gen)
                        (ActiveBranchChampList reproposed_champion))
           else None.
Proof.
  apply (tree_champions_grouped reproposed_champion).
  intros m Hm. exists "g"%string. apply list_elem_of_In in Hm.
  destruct Hm as [<-|[<-|[]]]; split; try (vm_compute; reflexivity); left.
Defined.

(** ** Branches of known models *)

(** X9: [learn_models_on_given_branch] on a branch all of whose models
    were known before: no model is learned, the learned count of the
    branch in the store is set to the number of its known models, the
    branch joins the ghost branches, and nothing else changes. *)
Theorem known_models_make_a_ghost_branch
  (set_names : list string -> list string) (b k : Z) (l pre : list string)
  (s : qmla) :
  set_names [] = [] ->
  BranchModels s !! b = Some l ->
  BranchNumModelsPreComputed s !! b = Some k ->
  BranchPrecomputedModels s !! b = Some pre ->
  (forall m, m ∈ l -> m ∈ pre) ->
  learn_models_on_given_branch set_names b s
  = (Ok tt,
     s <| redis ::= (fun r => r <| active_branches_learning_models ::= insert b k |>) |>
       <| ghost_branch_list ::= (fun g => g ++ [b]) |>).
Proof.
  intros Hset Hl Hk Hpre Hall.
  unfold learn_models_on_given_branch.
  rewrite (bind_ok get _ s s s eq_refl).
  rewrite (bind_ok _ _ s _ s (item_ok _ _ _ _ Hl)).
  rewrite (bind_ok _ _ s _ s (item_ok _ _ _ _ Hk)).
  unfold bind at 1. unfold modify at 1.
  erewrite bind_ok by (apply item_ok; exact Hpre).
  assert (Hnone : filter (fun m => m ∉ pre) l = []).
  { clear Hl. induction l as [|m l IH]; [reflexivity|].
    rewrite filter_cons_False by (intros Hn; apply Hn, Hall; left).
    apply IH. intros m' Hm'. apply Hall. right. exact Hm'. }
  rewrite Hnone, Hset.
  destruct (decide _) as [_|Hn']; [|contradiction].
  reflexivity.
Qed.

Lemma known_models_witness :
  learn_models_on_given_branch remove_dups 1 reproposed_branch
  = (Ok tt,
     reproposed_branch
       <| redis ::= (fun r => r <| active_branches_learning_models ::= insert 1 1 |>) |>
       <| ghost_branch_list ::= (fun g => g ++ [1]) |>).
Proof.
  apply (known_models_make_a_ghost_branch remove_dups 1 1 ["x"%string]
           ["x"%string] reproposed_branch);
    try (vm_compute; reflexivity).
  intros m Hm. exact Hm.
Defined.

(** ** Spawning from a branch that cannot spawn *)

(** X10: [spawn_from_branch] raises a [KeyError] and changes nothing
    for a growth rule without a spawn depth; for a branch without a
    stored ranking it raises a [KeyError] only after it has raised the
    spawn depth of the rule and the spawn depth of the agent by one,
    and these two changes remain. *)
Theorem spawn_counts_before_it_looks
  (set_names : list string -> list string)
  (generate_models : string -> growth_input -> list string * list (option string))
  (check_tree_completed : string -> Z -> Z -> bool)
  (s : qmla) (branchID : Z) (growth_rule : string) (num_models : nat) :
  (spawn_depthByGrowthRule s !! growth_rule = None ->
   spawn_from_branch set_names generate_models check_tree_completed
     branchID growth_rule num_models s = (Raise KeyError, s))
  /\ (forall depth_now,
        spawn_depthByGrowthRule s !! growth_rule = Some depth_now ->
        branch_rankings s !! branchID = None ->
        spawn_from_branch set_names generate_models check_tree_completed
          branchID growth_rule num_models s
        = (Raise KeyError,
           s <| spawn_depthByGrowthRule ::= insert growth_rule (depth_now + 1) |>
             <| spawn_depth ::= Z.add 1 |>)).
Proof.
  split.
  - intros Hd. unfold spawn_from_branch.
    rewrite (bind_ok get _ s s s eq_refl).
    rewrite (bind_raise _ _ s KeyError s (item_missing _ _ _ Hd)). reflexivity.
  - intros depth_now Hd Hr. unfold spawn_from_branch.
    rewrite (bind_ok get _ s s s eq_refl).
    rewrite (bind_ok _ _ s _ s (item_ok _ _ _ _ Hd)).
    unfold bind at 1. unfold modify at 1.
    rewrite (bind_raise _ _ _ KeyError _ (item_missing _ _ _ Hr)). reflexivity.
Qed.

(** ** What a tournament leaves alone *)

Section TournamentTouches.

Variable Comparator : nat -> Z -> Z -> PyFloat.float.
Variable R : qmla -> qmla -> Prop.
Hypothesis R_refl : forall s, R s s.
Hypothesis R_trans : forall s1 s2 s3, R s1 s2 -> R s2 s3 -> R s1 s3.
Hypothesis R_rows : forall s (f : list row -> list row),
  map row_identity (f (db s)) = map row_identity (db s) ->
  R s (s <| db ::= f |>).
Hypothesis R_pair : forall s p,
  p ∉ bayes_factor_pair_computed s ->
  R s (s <| bayes_factor_pair_computed ::= (fun l => l ++ [p]) |>).
Hypothesis R_fields : forall s s',
  db s' = db s ->
  bayes_factor_pair_computed s' = bayes_factor_pair_computed s ->
  same_registry s s' -> R s s'.

Lemma same_registry_fields (s s' : qmla) :
  NumModels s' = NumModels s ->
  HighestModelID s' = HighestModelID s ->
  model_name_id_map s' = model_name_id_map s ->
  model_lists s' = model_lists s ->
  ModelsBranches s' = ModelsBranches s ->
  HighestBranchID s' = HighestBranchID s ->
  BranchModels s' = BranchModels s ->
  BranchModelIds s' = BranchModelIds s ->
  BranchPrecomputedModels s' = BranchPrecomputedModels s ->
  NumModelsPerBranch s' = NumModelsPerBranch s ->
  NumModelPairsPerBranch s' = NumModelPairsPerBranch s ->
  branch_parents s' = branch_parents s ->
  db s' = db s ->
  same_registry s s'.
Proof. intros. unfold same_registry. repeat apply conj; congruence. Qed.

Lemma R_untouched (s s' : qmla) :
  db s' = db s ->
  bayes_factor_pair_computed s' = bayes_factor_pair_computed s ->
  NumModels s' = NumModels s ->
  HighestModelID s' = HighestModelID s ->
  model_name_id_map s' = model_name_id_map s ->
  model_lists s' = model_lists s ->
  ModelsBranches s' = ModelsBranches s ->
  HighestBranchID s' = HighestBranchID s ->
  BranchModels s' = BranchModels s ->
  BranchModelIds s' = BranchModelIds s ->
  BranchPrecomputedModels s' = BranchPrecomputedModels s ->
  NumModelsPerBranch s' = NumModelsPerBranch s ->
  NumModelPairsPerBranch s' = NumModelPairsPerBranch s ->
  branch_parents s' = branch_parents s ->
  R s s'.
Proof.
  intros. apply R_fields; [assumption..|].
  apply same_registry_fields; assumption.
Qed.

Local Ltac go := frame_go R_refl R_trans R_untouched.

Lemma tt_status_id (m : Z) (v : string) : frame R (update_status_by_id m v).
Proof.
  intros s. unfold update_status_by_id, modify. cbn [snd]. apply R_rows.
  rewrite map_map. apply map_ext. intros r. destruct (decide _); reflexivity.
Qed.

Lemma tt_status_name (n v : string) : frame R (update_status_by_name n v).
Proof.
  intros s. unfold update_status_by_name, modify. cbn [snd]. apply R_rows.
  rewrite map_map. apply map_ext. intros r. destruct (decide _); reflexivity.
Qed.

Lemma update_first_identity (m : Z) (f : row -> row) (d : list row) :
  (forall r, row_identity (f r) = row_identity r) ->
  map row_identity (update_first m f d) = map row_identity d.
Proof.
  intros Hf. induction d as [|r d IH]; [reflexivity|].
  cbn [update_first]. destruct (decide _); cbn [map]; [rewrite Hf|rewrite IH];
    reflexivity.
Qed.

Lemma tt_append (m o : Z) (x : PyFloat.float) :
  frame R (append_bayes_factor m o x).
Proof.
  intros s. unfold append_bayes_factor, modify. cbn [snd]. apply R_rows.
  apply update_first_identity. reflexivity.
Qed.

Lemma tt_instance (m : Z) : frame R (get_model_storage_instance_by_id m).
Proof. unfold get_model_storage_instance_by_id. go. Qed.

Lemma tt_process (a c : Z) : frame R (processRemoteBayesPair a c).
Proof.
  unfold processRemoteBayesPair. pose proof tt_append. pose proof tt_instance. go.
Qed.

Lemma tt_award (pairs pts : list (Z * Z)) : frame R (award_points pairs pts).
Proof.
  revert pts.
  induction pairs as [|[m1 m2] pairs IH]; intros pts; cbn [award_points].
  - go.
  - pose proof tt_process. go.
Qed.

Lemma tt_remote (a c : Z) (br : option Z) :
  frame R (BayesFactorRemote Comparator a c br).
Proof. unfold BayesFactorRemote. go. Qed.

Lemma tt_note_pair (p : Z * Z) :
  frame R (modify (fun s =>
    if decide (p ∈ bayes_factor_pair_computed s) then s
    else s <| bayes_factor_pair_computed ::= (fun l => l ++ [p]) |>)).
Proof.
  intros s. unfold modify. cbn [snd].
  destruct (decide _) as [Hin|Hout]; [apply R_refl|apply R_pair; exact Hout].
Qed.

Lemma tt_pairwise (a c : Z) (rjob : bool) (br : option Z) :
  frame R (get_pairwise_bayes_factor Comparator a c rjob br).
Proof.
  unfold get_pairwise_bayes_factor.
  pose proof tt_remote. pose proof tt_note_pair. go.
Qed.

Lemma tt_collect (rc w : bool) (pairs : list (Z * Z)) :
  frame R (collect_jobs Comparator rc w pairs).
Proof.
  induction pairs as [|[a c] pairs IH]; cbn [collect_jobs].
  - go.
  - pose proof tt_pairwise. go.
Qed.

Lemma tt_wait (j : option job) : frame R (wait_for Comparator j).
Proof. unfold wait_for, run_job. pose proof tt_remote. go. Qed.

Lemma tt_from_list (l : list Z) (w rc : bool) :
  frame R (get_bayes_factors_from_list Comparator l w rc).
Proof.
  unfold get_bayes_factors_from_list.
  pose proof tt_collect. pose proof tt_wait. go.
Qed.

Lemma tt_from_models (depth : nat) (l : list Z) :
  frame R (compare_models_from_list Comparator depth l).
Proof.
  revert l.
  induction depth as [|depth IH]; intros l; cbn [compare_models_from_list].
  - go.
  - pose proof tt_award. pose proof tt_from_list. go.
Qed.

Lemma tt_record (br : Z) (l : list Z) : frame R (record_ranking br l).
Proof. unfold record_ranking. go. Qed.

Lemma tt_compare_all (depth : nat) (br : Z) :
  frame R (compare_all_models_in_branch Comparator depth br).
Proof.
  unfold compare_all_models_in_branch.
  pose proof tt_award. pose proof tt_from_list. pose proof tt_from_models.
  pose proof tt_status_id. pose proof tt_status_name. pose proof tt_record.
  go.
Qed.

Lemma tt_dispatch (br : Z) (rc : bool) (pairs : list (Z * Z)) :
  frame R (dispatch_pairs Comparator br rc pairs).
Proof.
  induction pairs as [|[a c] pairs IH]; cbn [dispatch_pairs].
  - go.
  - pose proof tt_pairwise. go.
Qed.

Lemma tt_by_branch (br : Z) :
  frame R (get_bayes_factors_by_branch_id Comparator br).
Proof. unfold get_bayes_factors_by_branch_id. pose proof tt_dispatch. go. Qed.

End TournamentTouches.

Lemma same_registry_refl (s : qmla) : same_registry s s.
Proof. unfold same_registry. repeat apply conj; reflexivity. Qed.

Lemma same_registry_trans (s1 s2 s3 : qmla) :
  same_registry s1 s2 -> same_registry s2 s3 -> same_registry s1 s3.
Proof.
  unfold same_registry. intros H1 H2.
  repeat match goal with H : _ /\ _ |- _ => destruct H end.
  repeat apply conj; congruence.
Qed.

Lemma same_registry_rows (s : qmla) (f : list row -> list row) :
  map row_identity (f (db s)) = map row_identity (db s) ->
  same_registry s (s <| db ::= f |>).
Proof. intros H. unfold same_registry. repeat apply conj; try reflexivity. exact H. Qed.

Lemma same_registry_pair (s : qmla) (p : Z * Z) :
  same_registry s (s <| bayes_factor_pair_computed ::= (fun l => l ++ [p]) |>).
Proof. unfold same_registry. repeat apply conj; reflexivity. Qed.

Lemma pairs_grow_refl (s : qmla) : pairs_grow s s.
Proof. split; auto. Qed.

Lemma pairs_grow_trans (s1 s2 s3 : qmla) :
  pairs_grow s1 s2 -> pairs_grow s2 s3 -> pairs_grow s1 s3.
Proof. intros [A1 B1] [A2 B2]. split; auto. Qed.

Lemma pairs_grow_same (s s' : qmla) :
  bayes_factor_pair_computed s' = bayes_factor_pair_computed s ->
  pairs_grow s s'.
Proof. intros E. unfold pairs_grow. rewrite E. split; auto. Qed.

Lemma pairs_grow_pair (s : qmla) (p : Z * Z) :
  p ∉ bayes_factor_pair_computed s ->
  pairs_grow s (s <| bayes_factor_pair_computed ::= (fun l => l ++ [p]) |>).
Proof.
  intros Hout. split.
  - intros q Hq. change (q ∈ bayes_factor_pair_computed s ++ [p]).
    apply elem_of_app. left. exact Hq.
  - intros Hnd. change (NoDup (bayes_factor_pair_computed s ++ [p])).
    apply NoDup_app. split; [exact Hnd|]. split.
    + intros q Hq Hp. apply list_elem_of_singleton in Hp. subst q. auto.
    + apply NoDup_singleton.
Qed.

(** X11: a tournament of a branch, a tie-break on a list of models and
    the dispatch of the comparisons of a branch, whether they return or
    raise, register no model and create no branch: the model counters,
    the name map, the canonical-name buckets, the branch tables and
    the id, name and branch of every row, in their order, are what they
    were. *)
Theorem tournament_leaves_the_registry
  (Comparator : nat -> Z -> Z -> PyFloat.float) (depth : nat)
  (branchID : Z) (l : list Z) (s : qmla) :
  same_registry s (snd (compare_all_models_in_branch Comparator depth branchID s))
  /\ same_registry s (snd (compare_models_from_list Comparator depth l s))
  /\ same_registry s (snd (get_bayes_factors_by_branch_id Comparator branchID s)).
Proof.
  split; [|split].
  - apply (tt_compare_all Comparator same_registry same_registry_refl
             same_registry_trans same_registry_rows
             (fun s p _ => same_registry_pair s p) (fun s s' _ _ H => H)).
  - apply (tt_from_models Comparator same_registry same_registry_refl
             same_registry_trans same_registry_rows
             (fun s p _ => same_registry_pair s p) (fun s s' _ _ H => H)).
  - apply (tt_by_branch Comparator same_registry same_registry_refl
             same_registry_trans
             (fun s p _ => same_registry_pair s p) (fun s s' _ _ H => H)).
Qed.

(** X12: through a tournament, a tie-break and the dispatch of a
    branch, returning or raising, the list of the pairs handed to the
    comparator only grows, and a list without repetitions stays without
    repetitions. *)
Theorem compared_pairs_never_repeat
  (Comparator : nat -> Z -> Z -> PyFloat.float) (depth : nat)
  (branchID : Z) (l : list Z) (s : qmla) :
  pairs_grow s (snd (compare_all_models_in_branch Comparator depth branchID s))
  /\ pairs_grow s (snd (compare_models_from_list Comparator depth l s))
  /\ pairs_grow s (snd (get_bayes_factors_by_branch_id Comparator branchID s)).
Proof.
  split; [|split].
  - apply (tt_compare_all Comparator pairs_grow pairs_grow_refl
             pairs_grow_trans (fun s f _ => pairs_grow_same s _ eq_refl)
             pairs_grow_pair (fun s s' _ H _ => pairs_grow_same s s' H)).
  - apply (tt_from_models Comparator pairs_grow pairs_grow_refl
             pairs_grow_trans (fun s f _ => pairs_grow_same s _ eq_refl)
             pairs_grow_pair (fun s s' _ H _ => pairs_grow_same s s' H)).
  - apply (tt_by_branch Comparator pairs_grow pairs_grow_refl
             pairs_grow_trans
             pairs_grow_pair (fun s s' _ H _ => pairs_grow_same s s' H)).
Qed.

(** ** Points and champions *)

Lemma dict_set_known (k v w : Z) (d : list (Z * Z)) :
  dict_get k d = Some v -> map fst (dict_set k w d) = map fst d.
Proof.
  induction d as [|[k' v'] d IH]; cbn [dict_get dict_set]; [discriminate|].
  destruct (decide (k' = k)) as [->|Hne]; [reflexivity|].
  intros E. cbn [map fst]. rewrite (IH E). reflexivity.
Qed.

Lemma dict_set_keys (k v : Z) (d : list (Z * Z)) (m : Z) :
  m ∈ map fst (dict_set k v d) <-> m = k \/ m ∈ map fst d.
Proof.
  induction d as [|[k' v'] d IH]; cbn [dict_set map fst].
  - rewrite list_elem_of_singleton. rewrite elem_of_nil. tauto.
  - destruct (decide (k' = k)) as [->|Hne]; cbn [map fst];
      rewrite !elem_of_cons; [tauto|]. rewrite IH. tauto.
Qed.

Lemma dict_set_NoDup (k v : Z) (d : list (Z * Z)) :
  NoDup (map fst d) -> NoDup (map fst (dict_set k v d)).
Proof.
  induction d as [|[k' v'] d IH]; cbn [dict_set map fst]; intros Hnd.
  - apply NoDup_singleton.
  - apply NoDup_cons in Hnd as [Hout Hnd].
    destruct (decide (k' = k)) as [->|Hne]; cbn [map fst].
    + apply NoDup_cons. auto.
    + apply NoDup_cons. split; [|auto].
      rewrite dict_set_keys. intros [E|Hin]; [congruence|auto].
Qed.

Lemma zero_points_from (ids : list Z) (d : list (Z * Z)) :
  (forall m, m ∈ map fst (fold_left (fun d k => dict_set k 0 d) ids d)
             <-> m ∈ ids \/ m ∈ map fst d)
  /\ (NoDup (map fst d) ->
      NoDup (map fst (fold_left (fun d k => dict_set k 0 d) ids d))).
Proof.
  revert d. induction ids as [|k ids IH]; intros d; cbn [fold_left].
  - split; [|auto]. intros m. rewrite elem_of_nil. tauto.
  - destruct (IH (dict_set k 0 d)) as [A B]. split.
    + intros m. rewrite A, dict_set_keys, elem_of_cons. tauto.
    + intros Hnd. apply B, dict_set_NoDup, Hnd.
Qed.

Lemma zero_points_keys (ids : list Z) (m : Z) :
  m ∈ map fst (zero_points ids) <-> m ∈ ids.
Proof.
  unfold zero_points. rewrite (proj1 (zero_points_from ids [])).
  cbn [map]. rewrite elem_of_nil. tauto.
Qed.

Lemma zero_points_NoDup (ids : list Z) : NoDup (map fst (zero_points ids)).
Proof. apply (proj2 (zero_points_from ids [])). apply NoDup_nil_2. Qed.

Lemma lift_inv {A} (x : outcome A) (a : A) (s s' : qmla) :
  lift x s = (Ok a, s') -> x = Ok a /\ s' = s.
Proof. unfold lift. destruct x; intros E; inversion E; auto. Qed.

Lemma award_points_keys (pairs pts pts' : list (Z * Z)) (s s' : qmla) :
  award_points pairs pts s = (Ok pts', s') -> map fst pts' = map fst pts.
Proof.
  revert pts s.
  induction pairs as [|[m1 m2] pairs IH]; intros pts s; cbn [award_points].
  - intros E. inversion E. reflexivity.
  - destruct (decide (m1 = m2)); [apply IH|].
    intros H. apply bind_inv in H as (res & s1 & _ & H).
    apply bind_inv in H as (pts1 & s2 & E & H).
    apply lift_inv in E as [E ->]. apply IH in H. rewrite H.
    unfold dict_incr in E. destruct (dict_get res pts) as [v|] eqn:G;
      [|discriminate].
    inversion E. apply (dict_set_known _ _ _ _ G).
Qed.

Lemma keys_with_spec (m k : Z) (d : list (Z * Z)) :
  k ∈ keys_with m d <-> (k, m) ∈ d.
Proof.
  unfold keys_with. rewrite list_elem_of_fmap. split.
  - intros ([k' v] & -> & Hin). apply list_elem_of_filter in Hin as [E Hin].
    cbn in E. subst v. exact Hin.
  - intros Hin. exists (k, m). split; [reflexivity|].
    apply list_elem_of_filter. split; [reflexivity|exact Hin].
Qed.

Lemma keys_with_keys (m k : Z) (d : list (Z * Z)) :
  k ∈ keys_with m d -> k ∈ map fst d.
Proof.
  rewrite keys_with_spec. intros Hin. apply list_elem_of_fmap.
  exists (k, m). auto.
Qed.

Lemma dict_get_unique (k v : Z) (d : list (Z * Z)) :
  NoDup (map fst d) -> (k, v) ∈ d -> dict_get k d = Some v.
Proof.
  induction d as [|[k' v'] d IH]; cbn [dict_get map fst]; intros Hnd Hin.
  - apply elem_of_nil in Hin. destruct Hin.
  - apply NoDup_cons in Hnd as [Hout Hnd].
    apply elem_of_cons in Hin as [E|Hin].
    + inversion E. subst. destruct (decide (k' = k')); [reflexivity|congruence].
    + destruct (decide (k' = k)) as [->|Hne]; [|auto].
      exfalso. apply Hout. apply list_elem_of_fmap. exists (k, v). auto.
Qed.

Lemma argmax_top (d : list (Z * Z)) (k : Z) :
  argmax d = Ok k -> exists m, max_value d = Ok m /\ k ∈ keys_with m d.
Proof.
  unfold argmax. destruct (max_value d) as [m|e]; cbn [obind]; [|discriminate].
  destruct (keys_with m d) as [|k' l] eqn:E; [discriminate|].
  intros H. inversion H. subst k'. exists m. split; [reflexivity|].
  rewrite E. apply elem_of_cons. auto.
Qed.

Section Champion.

Variable Comparator : nat -> Z -> Z -> PyFloat.float.

(** A tie-break that returns names one of the models it was given. *)
Lemma tie_break_member (depth : nat) (l : list Z) (c : Z) (s s' : qmla) :
  compare_models_from_list Comparator depth l s = (Ok c, s') -> c ∈ l.
Proof.
  revert l c s s'.
  induction depth as [|depth IH]; intros l c s s';
    cbn [compare_models_from_list].
  - discriminate.
  - intros H. apply bind_inv in H as (pts & s1 & E1 & H).
    apply award_points_keys in E1.
    apply bind_inv in H as (m & s2 & E2 & H).
    apply lift_inv in E2 as [E2 ->].
    apply bind_inv in H as (champ & s3 & E3 & H).
    apply bind_inv in H as (s4 & s5 & _ & H).
    apply bind_inv in H as (nm & s6 & _ & H).
    inversion H. subst c s'.
    apply zero_points_keys. rewrite <- E1.
    destruct (1 <? Z.of_nat (length (keys_with m pts))).
    + apply bind_inv in E3 as (? & ? & _ & E3).
      apply bind_inv in E3 as (? & ? & _ & E3).
      apply IH in E3. apply (keys_with_keys _ _ _ E3).
    + apply lift_inv in E3 as [E3 _].
      apply argmax_top in E3 as (m' & _ & Hin). apply (keys_with_keys _ _ _ Hin).
Qed.

(** When it was given the top scorers, it names a top scorer. *)
Lemma champion_is_top (depth : nat) (pts : list (Z * Z)) (m c : Z)
  (s s' : qmla) :
  max_value pts = Ok m ->
  (if 1 <? Z.of_nat (length (keys_with m pts)) then
     get_bayes_factors_from_list Comparator (keys_with m pts) true true ;;
     compare_models_from_list Comparator depth (keys_with m pts)
   else lift (argmax pts)) s = (Ok c, s') ->
  c ∈ keys_with m pts.
Proof.
  intros Hm. destruct (1 <? Z.of_nat (length (keys_with m pts))).
  - intros H. apply bind_inv in H as (? & ? & _ & H).
    apply (tie_break_member _ _ _ _ _ H).
  - intros H. apply lift_inv in H as [H _].
    apply argmax_top in H as (m' & Hm' & Hin). congruence.
Qed.

End Champion.

Lemma keeps_crowned_fields (b champ : Z) (s s' : qmla) :
  BranchChampions s' = BranchChampions s ->
  ActiveBranchChampList s' = ActiveBranchChampList s ->
  branch_bayes_points s' = branch_bayes_points s ->
  keeps (crowned b champ) s s'.
Proof. intros E1 E2 _. unfold keeps, crowned. rewrite E1, E2. auto. Qed.

Lemma keeps_points_fields (b : Z) (pts : list (Z * Z)) (s s' : qmla) :
  BranchChampions s' = BranchChampions s ->
  ActiveBranchChampList s' = ActiveBranchChampList s ->
  branch_bayes_points s' = branch_bayes_points s ->
  keeps (fun s => branch_bayes_points s !! b = Some pts) s s'.
Proof. intros _ _ E. unfold keeps. rewrite E. auto. Qed.

Lemma remove_first_other (x y : Z) (l : list Z) :
  x <> y -> y ∈ l -> y ∈ remove_first x l.
Proof.
  intros Hne. induction l as [|z l IH]; cbn [remove_first]; [auto|].
  rewrite elem_of_cons. destruct (decide (z = x)) as [->|Hz].
  - intros [E|Hin]; [congruence|exact Hin].
  - rewrite elem_of_cons. tauto.
Qed.

(** Removing the losers of a ghost branch keeps the champion in. *)
Lemma losers_leave_champion (b champ : Z) (pts : list (Z * Z)) (l : list Z) :
  (forall x, x ∈ l -> x <> champ) ->
  frame (keeps (fun s => crowned b champ s
                         /\ branch_bayes_points s !! b = Some pts))
    (for_each l (fun losing_model_id =>
       update_status_by_id losing_model_id "Deactivated" ;;
       modify (fun s => s <| ActiveBranchChampList ::=
                               remove_first losing_model_id |>))).
Proof.
  induction l as [|x l IH]; intros Hl; cbn [for_each].
  - apply frame_ret, keeps_refl.
  - apply (frame_bind _ (keeps_trans _)); [|intros _; apply IH].
    + apply (frame_bind _ (keeps_trans _)); [|intros _].
      * intros s. unfold update_status_by_id, modify. cbn [snd].
        intros H. exact H.
      * apply frame_modify. intros s [[E1 E2] E3].
        split; [split|]; [exact E1| |exact E3].
        apply remove_first_other; [|exact E2].
        apply Hl, elem_of_cons. auto.
    + intros y Hy. apply Hl, elem_of_cons. auto.
Qed.

Ltac run_get H s0 :=
  let E := fresh "E" in
  let s1 := fresh "s" in
  apply bind_inv in H as (s0 & s1 & E & H); unfold get in E; inversion E;
  subst s0 s1; clear E.

Ltac run_item H v E :=
  let s1 := fresh "s" in
  apply bind_inv in H as (v & s1 & E & H); apply item_inv in E as [E ->].

Ltac run_lift H v E :=
  let s1 := fresh "s" in
  apply bind_inv in H as (v & s1 & E & H); apply lift_inv in E as [E ->].

Ltac run_modify H :=
  let E := fresh "E" in
  let u := fresh "u" in
  let s1 := fresh "s" in
  apply bind_inv in H as (u & s1 & E & H); unfold modify in E; inversion E;
  subst u s1; clear E.

Ltac run_frame H F s1 K :=
  let E := fresh "E" in
  let u := fresh "u" in
  apply bind_inv in H as (u & s1 & E & H);
  match type of E with
  | _ ?s = _ => pose proof (F s) as K; rewrite E in K; cbn [snd] in K
  end;
  clear E.

(** What a returning tournament has done. *)
Lemma tournament_outcome
  (Comparator : nat -> Z -> Z -> PyFloat.float) (depth : nat) (branchID : Z)
  (s s' : qmla) (models_points : list (Z * Z)) (champ_id : Z) :
  compare_all_models_in_branch Comparator depth branchID s
    = (Ok (models_points, champ_id), s') ->
  exists (ids : list Z) (best : Z),
    BranchModelIds s !! branchID = Some ids
    /\ map fst models_points = map fst (zero_points ids)
    /\ max_value models_points = Ok best
    /\ champ_id ∈ keys_with best models_points
    /\ BranchChampions s' !! branchID = Some champ_id
    /\ champ_id ∈ ActiveBranchChampList s'
    /\ branch_bayes_points s' !! branchID = Some models_points.
Proof.
  unfold compare_all_models_in_branch. intros H.
  run_get H s0. run_item H ids Eids.
  apply bind_inv in H as (pts & s1 & Eaward & H).
  apply award_points_keys in Eaward.
  run_lift H best Etop.
  apply bind_inv in H as (champ & s2 & Echamp & H).
  apply (champion_is_top _ _ _ _ _ _ _ Etop) in Echamp.
  run_get H s3. run_item H champ_name Ename. run_lift H qubits Equbits.
  run_modify H. run_modify H. run_get H s4.
  run_item H rule Erule. run_item H by_qubits Eby. run_modify H.
  set (P := crowned branchID champ).
  match type of H with
  | bind _ _ ?s0 = _ => assert (P s0) as C0
  end.
  { unfold P, crowned. destruct (decide _) as [Hin|Hout]; split;
      try apply lookup_insert_eq; try exact Hin.
    match goal with
    | |- _ ∈ ActiveBranchChampList (_ (_ ?z)) =>
        change (champ ∈ ActiveBranchChampList z ++ [champ])
    end.
    apply elem_of_app. right. apply list_elem_of_singleton. reflexivity. }
  assert (forall m v, frame (keeps P) (update_status_by_id m v)) as F1.
  { intros m v s0. unfold update_status_by_id, modify. cbn [snd].
    apply keeps_crowned_fields; reflexivity. }
  assert (forall n v, frame (keeps P) (update_status_by_name n v)) as F2.
  { intros n v s0. unfold update_status_by_name, modify. cbn [snd].
    apply keeps_crowned_fields; reflexivity. }
  run_frame H (frame_for_each (keeps P) (keeps_refl P) (keeps_trans P) ids
                 (fun model_id => update_status_by_id model_id "Deactivated")
                 (fun m => F1 m _)) s5 K.
  apply K in C0. clear K.
  run_get H s6. run_item H champ_name' Ename'.
  run_frame H (F2 champ_name' "Active"%string) s7 K. apply K in C0. clear K.
  assert (frame (keeps P) (record_ranking branchID (sorted_desc pts))) as F3.
  { unfold record_ranking.
    frame_go (keeps_refl P) (keeps_trans P) (keeps_crowned_fields branchID champ). }
  run_frame H F3 s8 K. apply K in C0. clear K.
  run_modify H. run_get H s9.
  apply bind_inv in H as (done & s10 & Etail & H).
  unfold ret in H. inversion H. subst models_points champ_id s'. clear H.
  match type of Etail with
  | _ ?s0 = _ =>
      assert (P s0 /\ branch_bayes_points s0 !! branchID = Some pts) as C1
  end.
  { split; [exact C0|apply lookup_insert_eq]. }
  assert (P s10 /\ branch_bayes_points s10 !! branchID = Some pts)
    as [[C2 C3] C4].
  { match type of Etail with
    | (if ?d then _ else _) _ = _ => destruct d as [Hg|Hg]
    end.
    - assert (forall y, y ∈ remove_dups (filter (fun m => m <> champ) ids) ->
                        y <> champ) as Hl.
      { intros y Hy. rewrite elem_of_remove_dups in Hy.
        apply list_elem_of_filter in Hy as [Hy _]. exact Hy. }
      match type of Etail with
      | _ ?z = _ =>
          pose proof (losers_leave_champion branchID champ pts _ Hl z) as K
      end.
      rewrite Etail in K. exact (K C1).
    - unfold ret in Etail. inversion Etail. subst. exact C1. }
  exists ids, best. repeat apply conj; assumption.
Qed.

(** X13: a tournament that returns hands back points for exactly the
    models of the branch and a champion that is one of them and has
    the largest number of points, also after a tie-break; the champion
    is stored as the champion of the branch and is among the active
    branch champions, and the points are stored as the points of the
    branch. *)
Theorem tournament_crowns_a_top_scorer
  (Comparator : nat -> Z -> Z -> PyFloat.float) (depth : nat) (branchID : Z)
  (s s' : qmla) (models_points : list (Z * Z)) (champ_id : Z) :
  compare_all_models_in_branch Comparator depth branchID s
    = (Ok (models_points, champ_id), s') ->
  exists (ids : list Z) (best : Z),
    BranchModelIds s !! branchID = Some ids
    /\ (forall m, m ∈ map fst models_points <-> m ∈ ids)
    /\ champ_id ∈ ids
    /\ max_value models_points = Ok best
    /\ dict_get champ_id models_points = Some best
    /\ BranchChampions s' !! branchID = Some champ_id
    /\ champ_id ∈ ActiveBranchChampList s'
    /\ branch_bayes_points s' !! branchID = Some models_points.
Proof.
  intros H.
  destruct (tournament_outcome _ _ _ _ _ _ _ H)
    as (ids & best & Eids & Ekeys & Ebest & Hchamp & E1 & E2 & E3).
  exists ids, best. pose proof (keys_with_keys _ _ _ Hchamp) as Hkey.
  repeat apply conj; try assumption.
  - intros m. rewrite Ekeys. apply zero_points_keys.
  - apply zero_points_keys. rewrite <- Ekeys. exact Hkey.
  - apply dict_get_unique; [|apply keys_with_spec, Hchamp].
    rewrite Ekeys. apply zero_points_NoDup.
Qed.

Lemma tournament_crowns_witness :
  compare_all_models_in_branch cyclic 5 0 decided
    = (Ok ([(0, 2); (1, 1); (2, 0)], 0),
       snd (compare_all_models_in_branch cyclic 5 0 decided))
  /\ exists (ids : list Z) (best : Z),
       BranchModelIds decided !! 0 = Some ids
       /\ (forall m, m ∈ map fst [(0, 2); (1, 1); (2, 0)] <-> m ∈ ids)
       /\ 0 ∈ ids
       /\ max_value [(0, 2); (1, 1); (2, 0)] = Ok best
       /\ dict_get 0 [(0, 2); (1, 1); (2, 0)] = Some best
       /\ BranchChampions
            (snd (compare_all_models_in_branch cyclic 5 0 decided)) !! 0
          = Some 0
       /\ 0 ∈ ActiveBranchChampList
                (snd (compare_all_models_in_branch cyclic 5 0 decided))
       /\ branch_bayes_points
            (snd (compare_all_models_in_branch cyclic 5 0 decided)) !! 0
          = Some [(0, 2); (1, 1); (2, 0)].
Proof.
  split; [vm_compute; reflexivity|].
  exact (tournament_crowns_a_top_scorer cyclic 5 0 decided _ _ 0
           ltac:(vm_compute; reflexivity)).
Defined.

(** ** The ranking *)

Lemma insert_desc_perm (kv : Z * Z) (l : list (Z * Z)) :
  insert_desc kv l ≡ₚ kv :: l.
Proof.
  induction l as [|kv' l IH]; cbn [insert_desc]; [reflexivity|].
  destruct (snd kv' <? snd kv); [reflexivity|].
  rewrite IH. apply Permutation_swap.
Qed.

Lemma insert_desc_sorted (kv : Z * Z) (l : list (Z * Z)) :
  StronglySorted (fun a c => snd c <= snd a) l ->
  StronglySorted (fun a c => snd c <= snd a) (insert_desc kv l).
Proof.
  induction l as [|kv' l IH]; cbn [insert_desc]; intros Hs.
  - apply SSorted_cons; [apply SSorted_nil|apply Forall_nil_2].
  - apply StronglySorted_inv in Hs as [Hs Hall].
    destruct (snd kv' <? snd kv) eqn:E.
    + apply Z.ltb_lt in E. apply SSorted_cons.
      * apply SSorted_cons; assumption.
      * apply Forall_cons. split; [lia|].
        eapply Forall_impl; [exact Hall|]. cbn beta. intros; lia.
    + apply Z.ltb_ge in E. apply SSorted_cons; [auto|].
      rewrite insert_desc_perm. apply Forall_cons. auto.
Qed.

Lemma sorted_pairs_from (d acc : list (Z * Z)) :
  fold_left (fun acc kv => insert_desc kv acc) d acc ≡ₚ d ++ acc
  /\ (StronglySorted (fun a c => snd c <= snd a) acc ->
      StronglySorted (fun a c => snd c <= snd a)
        (fold_left (fun acc kv => insert_desc kv acc) d acc)).
Proof.
  revert acc. induction d as [|kv d IH]; intros acc; cbn [fold_left].
  - split; [reflexivity|auto].
  - destruct (IH (insert_desc kv acc)) as [A B]. split.
    + rewrite A, insert_desc_perm. cbn [app].
      symmetry. apply Permutation_middle.
    + intros Hs. apply B, insert_desc_sorted, Hs.
Qed.

Lemma keys_by_points (pts l : list (Z * Z)) :
  (forall p, p ∈ l -> points_of pts (fst p) = snd p) ->
  StronglySorted (fun a c => snd c <= snd a) l ->
  by_points pts (map fst l).
Proof.
  unfold by_points. intros Hl Hs.
  induction Hs as [|p l Hs IH Hall]; cbn [map].
  - apply SSorted_nil.
  - apply SSorted_cons.
    + apply IH. intros q Hq. apply Hl, elem_of_cons. auto.
    + apply Forall_fmap. apply Forall_forall. intros q Hq.
      cbn [compose]. rewrite Forall_forall in Hall.
      rewrite (Hl p), (Hl q); [|apply elem_of_cons; auto..].
      apply Hall, Hq.
Qed.

Lemma points_of_unique (pts : list (Z * Z)) (k v : Z) :
  NoDup (map fst pts) -> (k, v) ∈ pts -> points_of pts k = v.
Proof.
  intros Hnd Hin. unfold points_of.
  rewrite (dict_get_unique _ _ _ Hnd Hin). reflexivity.
Qed.

Lemma sorted_desc_spec (pts : list (Z * Z)) :
  NoDup (map fst pts) ->
  sorted_desc pts ≡ₚ map fst pts /\ by_points pts (sorted_desc pts).
Proof.
  intros Hnd. unfold sorted_desc.
  destruct (sorted_pairs_from pts []) as [A B]. rewrite app_nil_r in A.
  split; [rewrite A; reflexivity|].
  apply keys_by_points; [|apply B, SSorted_nil].
  intros [k v] Hin. rewrite A in Hin. apply (points_of_unique _ _ _ Hnd Hin).
Qed.

Lemma fold_max_bound (l : list Z) (a : Z) :
  a <= fold_left Z.max l a /\ forall v, v ∈ l -> v <= fold_left Z.max l a.
Proof.
  revert a. induction l as [|x l IH]; intros a; cbn [fold_left].
  - split; [lia|]. intros v Hv. apply elem_of_nil in Hv. destruct Hv.
  - destruct (IH (Z.max a x)) as [A B]. split; [lia|].
    intros v Hv. apply elem_of_cons in Hv as [->|Hv]; [lia|auto].
Qed.

Lemma max_value_bound (d : list (Z * Z)) (m k v : Z) :
  max_value d = Ok m -> (k, v) ∈ d -> v <= m.
Proof.
  destruct d as [|[k0 v0] d]; cbn [max_value]; [discriminate|].
  intros E Hin. inversion E. destruct (fold_max_bound (map snd d) v0) as [A B].
  apply elem_of_cons in Hin as [Hin|Hin].
  - inversion Hin. subst. exact A.
  - apply B. apply list_elem_of_fmap. exists (k, v). auto.
Qed.

Lemma keys_have_points (pts : list (Z * Z)) (k : Z) :
  NoDup (map fst pts) -> k ∈ map fst pts -> (k, points_of pts k) ∈ pts.
Proof.
  intros Hnd Hk. apply list_elem_of_fmap in Hk as ([k' v] & -> & Hin).
  cbn [fst]. rewrite (points_of_unique _ _ _ Hnd Hin). exact Hin.
Qed.

(** The head of a ranking by points is a top scorer. *)
Lemma ranking_head_is_top (pts : list (Z * Z)) (l : list Z) (best champ : Z) :
  NoDup (map fst pts) -> l ≡ₚ map fst pts -> by_points pts l ->
  max_value pts = Ok best -> champ ∈ keys_with best pts ->
  exists h rest, l = h :: rest /\ h ∈ keys_with best pts.
Proof.
  intros Hnd Hperm Hs Hbest Hchamp.
  pose proof (proj1 (keys_with_spec _ _ _) Hchamp) as Hc.
  assert (champ ∈ l) as Hin.
  { rewrite Hperm. apply list_elem_of_fmap. exists (champ, best). auto. }
  destruct l as [|h rest]; [apply elem_of_nil in Hin; destruct Hin|].
  exists h, rest. split; [reflexivity|]. apply keys_with_spec.
  assert ((h, points_of pts h) ∈ pts) as Hh.
  { apply (keys_have_points _ _ Hnd). rewrite <- Hperm. apply elem_of_cons. auto. }
  pose proof (max_value_bound _ _ _ _ Hbest Hh) as Hle.
  assert (best <= points_of pts h) as Hge.
  { rewrite <- (points_of_unique _ _ _ Hnd Hc).
    apply elem_of_cons in Hin as [->|Hin]; [lia|].
    apply StronglySorted_inv in Hs as [_ Hall]. rewrite Forall_forall in Hall.
    apply Hall, Hin. }
  replace best with (points_of pts h) by lia. exact Hh.
Qed.

(** X14: the ranking that the first returning evaluation of a branch
    stores lists every model of the points table once, and no model
    comes before one with more points.  If a single model has the
    largest number of points, the champion is the first of the
    ranking. *)
Theorem first_ranking_is_by_points
  (Comparator : nat -> Z -> Z -> PyFloat.float) (depth : nat) (branchID : Z)
  (s s' : qmla) (models_points : list (Z * Z)) (champ_id : Z) :
  BranchBayesComputed s !! branchID = Some false ->
  compare_all_models_in_branch Comparator depth branchID s
    = (Ok (models_points, champ_id), s') ->
  exists (ranking : list Z),
    branch_rankings s' !! branchID = Some ranking
    /\ ranking ≡ₚ map fst models_points
    /\ by_points models_points ranking
    /\ (forall best, max_value models_points = Ok best ->
          length (keys_with best models_points) = 1%nat ->
          head ranking = Some champ_id).
Proof.
  intros Hflag Hrun.
  destruct (first_evaluation_records Comparator branchID depth s _ s' Hflag Hrun)
    as [E _]. cbn [fst] in E.
  destruct (tournament_outcome _ _ _ _ _ _ _ Hrun)
    as (ids & best & _ & Ekeys & Ebest & Hchamp & _).
  assert (NoDup (map fst models_points)) as Hnd.
  { rewrite Ekeys. apply zero_points_NoDup. }
  destruct (sorted_desc_spec models_points Hnd) as [Hperm Hs].
  exists (sorted_desc models_points). repeat apply conj; try assumption.
  intros best' Ebest' Hone. assert (best' = best) as -> by congruence.
  destruct (ranking_head_is_top _ _ _ _ Hnd Hperm Hs Ebest Hchamp)
    as (h & rest & -> & Hh).
  cbn [head]. f_equal.
  destruct (keys_with best models_points) as [|x [|y l]]; try discriminate.
  apply list_elem_of_singleton in Hh, Hchamp. congruence.
Qed.

Lemma first_ranking_witness :
  BranchBayesComputed decided !! 0 = Some false
  /\ compare_all_models_in_branch cyclic 5 0 decided
     = (Ok ([(0, 2); (1, 1); (2, 0)], 0),
        snd (compare_all_models_in_branch cyclic 5 0 decided))
  /\ exists (ranking : list Z),
       branch_rankings
         (snd (compare_all_models_in_branch cyclic 5 0 decided)) !! 0
       = Some ranking
       /\ ranking ≡ₚ map fst [(0, 2); (1, 1); (2, 0)]
       /\ by_points [(0, 2); (1, 1); (2, 0)] ranking
       /\ (forall best, max_value [(0, 2); (1, 1); (2, 0)] = Ok best ->
             length (keys_with best [(0, 2); (1, 1); (2, 0)]) = 1%nat ->
             head ranking = Some 0).
Proof.
  split; [vm_compute; reflexivity|]. split; [vm_compute; reflexivity|].
  exact (first_ranking_is_by_points cyclic 5 0 decided _ _ 0
           ltac:(vm_compute; reflexivity) ltac:(vm_compute; reflexivity)).
Defined.

(** ** One point for every pair *)

Lemma dict_incr_total (k : Z) (d d' : list (Z * Z)) :
  dict_incr k d = Ok d' -> total_points d' = total_points d + 1.
Proof.
  unfold dict_incr. destruct (dict_get k d) as [v|] eqn:G; [|discriminate].
  intros E. inversion E. subst d'. clear E. revert G.
  unfold total_points.
  induction d as [|[k' v'] d IH]; cbn [dict_get dict_set]; [discriminate|].
  destruct (decide (k' = k)) as [->|Hne].
  - intros E. inversion E. subst. cbn [map snd fold_right]. lia.
  - intros E. cbn [map snd fold_right]. rewrite (IH E). lia.
Qed.

Lemma off_diagonal_cons (a c : Z) (pairs : list (Z * Z)) :
  off_diagonal ((a, c) :: pairs)
  = if decide (a = c) then off_diagonal pairs else (a, c) :: off_diagonal pairs.
Proof.
  unfold off_diagonal. destruct (decide (a = c)) as [E|E].
  - apply filter_cons_False. cbn. intros H. apply H, E.
  - apply filter_cons_True. exact E.
Qed.

Lemma award_points_total (pairs pts pts' : list (Z * Z)) (s s' : qmla) :
  award_points pairs pts s = (Ok pts', s') ->
  total_points pts'
  = total_points pts + Z.of_nat (length (off_diagonal pairs)).
Proof.
  revert pts s.
  induction pairs as [|[m1 m2] pairs IH]; intros pts s; cbn [award_points].
  - intros E. inversion E. cbn. lia.
  - rewrite off_diagonal_cons. destruct (decide (m1 = m2)); [apply IH|].
    intros H. apply bind_inv in H as (res & s1 & _ & H).
    apply bind_inv in H as (pts1 & s2 & E & H).
    apply lift_inv in E as [E ->]. apply IH in H. rewrite H.
    rewrite (dict_incr_total _ _ _ E). cbn [length]. lia.
Qed.

Lemma dict_set_zero (k : Z) (d : list (Z * Z)) :
  Forall (fun p => snd p = 0) d ->
  Forall (fun p => snd p = 0) (dict_set k 0 d).
Proof.
  induction d as [|[k' v'] d IH]; cbn [dict_set]; intros Hall.
  - apply Forall_cons. split; [reflexivity|apply Forall_nil_2].
  - apply Forall_cons in Hall as [Hv Hall].
    destruct (decide (k' = k)); apply Forall_cons; auto.
Qed.

Lemma zero_points_total (ids : list Z) : total_points (zero_points ids) = 0.
Proof.
  assert (forall d, Forall (fun p => snd p = 0) d -> total_points d = 0) as Hz.
  { intros d. unfold total_points.
    induction 1 as [|[k v] d Hv Hall IH]; cbn [map snd fold_right];
      [reflexivity|]. cbn in Hv. lia. }
  apply Hz. unfold zero_points.
  assert (forall d, Forall (fun p => snd p = 0) d ->
            Forall (fun p => snd p = 0)
              (fold_left (fun d k => dict_set k 0 d) ids d)) as Hf.
  { induction ids as [|k ids IH]; intros d Hd; cbn [fold_left]; [exact Hd|].
    apply IH, dict_set_zero, Hd. }
  apply Hf, Forall_nil_2.
Qed.

Lemma off_diagonal_app (l1 l2 : list (Z * Z)) :
  off_diagonal (l1 ++ l2) = off_diagonal l1 ++ off_diagonal l2.
Proof. apply filter_app. Qed.

Lemma off_diagonal_row (a : Z) (l : list Z) :
  a ∉ l -> off_diagonal (map (pair a) l) = map (pair a) l.
Proof.
  induction l as [|x l IH]; intros Hout; [reflexivity|].
  cbn [map]. rewrite off_diagonal_cons.
  destruct (decide (a = x)) as [->|Hne].
  - exfalso. apply Hout, elem_of_cons. auto.
  - rewrite IH; [reflexivity|]. intros Hin. apply Hout, elem_of_cons. auto.
Qed.

(** A list of [n] different models has [n (n - 1) / 2] pairs. *)
Lemma distinct_pairs_count (l : list Z) :
  NoDup l ->
  2 * Z.of_nat (length (off_diagonal (index_pairs l)))
  = Z.of_nat (length l) * (Z.of_nat (length l) - 1).
Proof.
  induction 1 as [|a l Hout Hnd IH]; [reflexivity|].
  cbn [index_pairs map]. change ((a, a) :: ?x ++ ?y) with (((a, a) :: x) ++ y).
  rewrite off_diagonal_app, off_diagonal_cons.
  destruct (decide (a = a)) as [_|Hne]; [|congruence].
  rewrite (off_diagonal_row _ _ Hout).
  rewrite length_app, length_map. cbn [length]. lia.
Qed.

(** The points of a returning tournament are those of the two loops. *)
Lemma tournament_points
  (Comparator : nat -> Z -> Z -> PyFloat.float) (depth : nat) (branchID : Z)
  (s s' : qmla) (models_points : list (Z * Z)) (champ_id : Z) :
  compare_all_models_in_branch Comparator depth branchID s
    = (Ok (models_points, champ_id), s') ->
  exists ids s1,
    BranchModelIds s !! branchID = Some ids
    /\ award_points (index_pairs ids) (zero_points ids) s
       = (Ok models_points, s1).
Proof.
  unfold compare_all_models_in_branch. intros H.
  run_get H s0. run_item H ids Eids.
  apply bind_inv in H as (pts & s1 & Eaward & H).
  repeat (apply bind_inv in H as (? & ? & _ & H)).
  unfold ret in H. inversion H. subst. exists ids, s1. auto.
Qed.

(** X15: in a returning tournament every compared pair gives exactly
    one point: the points add up to the number of the pairs of
    different models that the two loops visit, which for a branch of
    [n] different models is [n (n - 1) / 2]. *)
Theorem tournament_gives_a_point_per_pair
  (Comparator : nat -> Z -> Z -> PyFloat.float) (depth : nat) (branchID : Z)
  (s s' : qmla) (models_points : list (Z * Z)) (champ_id : Z) :
  compare_all_models_in_branch Comparator depth branchID s
    = (Ok (models_points, champ_id), s') ->
  exists (ids : list Z),
    BranchModelIds s !! branchID = Some ids
    /\ total_points models_points
       = Z.of_nat (length (off_diagonal (index_pairs ids)))
    /\ (NoDup ids ->
        2 * total_points models_points
        = Z.of_nat (length ids) * (Z.of_nat (length ids) - 1)).
Proof.
  intros H. destruct (tournament_points _ _ _ _ _ _ _ H) as (ids & s1 & E & Ha).
  apply award_points_total in Ha. rewrite zero_points_total in Ha.
  exists ids. split; [exact E|]. split; [lia|].
  intros Hnd. rewrite Ha, Z.add_0_l. apply distinct_pairs_count, Hnd.
Qed.

Lemma tournament_gives_a_point_witness :
  compare_all_models_in_branch cyclic 5 0 decided
    = (Ok ([(0, 2); (1, 1); (2, 0)], 0),
       snd (compare_all_models_in_branch cyclic 5 0 decided))
  /\ exists (ids : list Z),
       BranchModelIds decided !! 0 = Some ids
       /\ total_points [(0, 2); (1, 1); (2, 0)]
          = Z.of_nat (length (off_diagonal (index_pairs ids)))
       /\ (NoDup ids ->
           2 * total_points [(0, 2); (1, 1); (2, 0)]
           = Z.of_nat (length ids) * (Z.of_nat (length ids) - 1)).
Proof.
  split; [vm_compute; reflexivity|].
  exact (tournament_gives_a_point_per_pair cyclic 5 0 decided _ _ 0
           ltac:(vm_compute; reflexivity)).
Defined.

Section Dispatch.

Variable Comparator : nat -> Z -> Z -> PyFloat.float.

Lemma dispatch_with_workers (b : Z) (pairs : list (Z * Z)) (s : qmla) :
  use_rq s = true ->
  exists s',
    dispatch_pairs Comparator b false pairs s = (Ok tt, s')
    /\ no_job_ran s s'
    /\ pairs_grow s s'
    /\ (forall p, p ∈ off_diagonal pairs ->
          unique_model_pair_identifier (fst p) (snd p)
            ∈ bayes_factor_pair_computed s')
    /\ bayes_count b s' + Z.of_nat (length (bayes_factor_pair_computed s'))
       = bayes_count b s + Z.of_nat (length (bayes_factor_pair_computed s))
         + Z.of_nat (length (off_diagonal pairs)).
Proof.
  revert s. induction pairs as [|[a c] pairs IH]; intros s Hrq.
  - exists s. cbn [dispatch_pairs]. split; [reflexivity|].
    split; [repeat split|]. split; [apply pairs_grow_refl|].
    split; [|cbn; lia]. intros p Hp. apply elem_of_nil in Hp. destruct Hp.
  - cbn [dispatch_pairs]. rewrite off_diagonal_cons.
    destruct (decide (a = c)) as [Hac|Hac].
    + destruct (IH s Hrq) as (s' & E & H1 & H2 & H3 & H4).
      exists s'. split; [|auto]. unfold bind, ret. exact E.
    + unfold bind at 1. unfold bind at 1. unfold get at 1.
      set (uid := unique_model_pair_identifier a c).
      destruct (bool_decide (uid ∈ bayes_factor_pair_computed s)) eqn:Hknown.
      * apply bool_decide_eq_true in Hknown. cbn [negb orb].
        unfold modify at 1.
        match goal with
        | |- context [dispatch_pairs _ _ _ _ ?z] => set (s1 := z)
        end.
        destruct (IH s1 Hrq) as (s' & E & (N1 & N2 & N3) & [G1 G2] & H3 & H4).
        exists s'. split; [exact E|].
        split; [repeat split; assumption|]. split; [split; auto|].
        split.
        { intros p Hp. apply elem_of_cons in Hp as [->|Hp]; [|auto].
          apply G1. exact Hknown. }
        { rewrite H4. cbn [length].
          assert (bayes_count b s1 = bayes_count b s + 1) as ->; [|
            change (bayes_factor_pair_computed s1)
              with (bayes_factor_pair_computed s); lia].
          unfold bayes_count.
          change (active_branches_bayes (redis s1))
            with (<[b := default 0 (active_branches_bayes (redis s) !! b) + 1]>
                    (active_branches_bayes (redis s))).
          rewrite lookup_insert_eq. reflexivity. }
      * apply bool_decide_eq_false in Hknown. cbn [negb orb].
        unfold get_pairwise_bayes_factor. fold uid.
        unfold bind at 1. unfold bind at 1. unfold modify at 1.
        destruct (decide (uid ∈ bayes_factor_pair_computed s)) as [Hin|_];
          [contradiction|].
        unfold bind at 1. unfold get at 1.
        match goal with
        | |- context [use_rq ?z] => change (use_rq z) with (use_rq s)
        end.
        rewrite Hrq. unfold ret at 1. unfold ret at 1.
        match goal with
        | |- context [dispatch_pairs _ _ _ _ ?z] => set (s1 := z)
        end.
        destruct (IH s1 Hrq) as (s' & E & (N1 & N2 & N3) & [G1 G2] & H3 & H4).
        exists s'. split; [exact E|].
        split; [repeat split; assumption|].
        destruct (pairs_grow_pair s uid Hknown) as [P1 P2].
        split; [split; auto|].
        split.
        { intros p Hp. apply elem_of_cons in Hp as [->|Hp]; [|auto].
          apply G1. change (uid ∈ bayes_factor_pair_computed s ++ [uid]).
          apply elem_of_app. right. apply list_elem_of_singleton. reflexivity. }
        { rewrite H4. cbn [length].
          change (bayes_count b s1) with (bayes_count b s).
          change (bayes_factor_pair_computed s1)
            with (bayes_factor_pair_computed s ++ [uid]).
          rewrite length_app. cbn [length]. lia. }
Qed.

End Dispatch.

(** X16: [get_bayes_factors_by_branch_id] with workers returns, runs no
    comparison itself, and treats each pair of different models of the
    branch in one of two ways: a pair not yet handed to the comparator
    is noted as handed over, a pair handed over before raises the
    completed count of the branch by one.  So the completed count and
    the number of new pairs add up to the number of pairs, and
    afterwards every pair of the branch is noted. *)
Theorem dispatch_queues_or_counts_each_pair
  (Comparator : nat -> Z -> Z -> PyFloat.float) (branchID : Z)
  (ids : list Z) (s : qmla) :
  use_rq s = true ->
  BranchModelIds s !! branchID = Some ids ->
  exists s',
    get_bayes_factors_by_branch_id Comparator branchID s = (Ok tt, s')
    /\ no_job_ran s s'
    /\ pairs_grow s s'
    /\ (forall p, p ∈ off_diagonal (index_pairs ids) ->
          unique_model_pair_identifier (fst p) (snd p)
            ∈ bayes_factor_pair_computed s')
    /\ bayes_count branchID s'
       + Z.of_nat (length (bayes_factor_pair_computed s'))
       = Z.of_nat (length (bayes_factor_pair_computed s))
         + Z.of_nat (length (off_diagonal (index_pairs ids))).
Proof.
  intros Hrq Hids. unfold get_bayes_factors_by_branch_id.
  unfold bind at 1. unfold get at 1.
  rewrite (bind_ok _ _ s ids s (item_ok _ _ _ s Hids)).
  unfold bind at 1. unfold modify at 1.
  match goal with
  | |- context [dispatch_pairs _ _ _ _ ?z] => set (s1 := z)
  end.
  destruct (dispatch_with_workers Comparator branchID (index_pairs ids) s1 Hrq)
    as (s' & E & H1 & H2 & H3 & H4).
  exists s'. repeat apply conj; try assumption; try apply H1; try apply H2.
  rewrite H4. replace (bayes_count branchID s1) with 0; [reflexivity|].
  unfold bayes_count.
  change (active_branches_bayes (redis s1))
    with (<[branchID := 0]> (active_branches_bayes (redis s))).
  rewrite lookup_insert_eq. reflexivity.
Qed.

Lemma dispatch_queues_witness :
  use_rq decided = true
  /\ BranchModelIds decided !! 0 = Some [0; 1; 2]
  /\ exists s',
       get_bayes_factors_by_branch_id silent 0 decided = (Ok tt, s')
       /\ no_job_ran decided s'
       /\ pairs_grow decided s'
       /\ (forall p, p ∈ off_diagonal (index_pairs [0; 1; 2]) ->
             unique_model_pair_identifier (fst p) (snd p)
               ∈ bayes_factor_pair_computed s')
       /\ bayes_count 0 s'
          + Z.of_nat (length (bayes_factor_pair_computed s'))
          = Z.of_nat (length (bayes_factor_pair_computed decided))
            + Z.of_nat (length (off_diagonal (index_pairs [0; 1; 2]))).
Proof.
  split; [reflexivity|]. split; [vm_compute; reflexivity|].
  exact (dispatch_queues_or_counts_each_pair silent 0 [0; 1; 2] decided
           eq_refl ltac:(vm_compute; reflexivity)).
Defined.

(** ** Polling a branch twice *)

Section Polling.

Variable Comparator : nat -> Z -> Z -> PyFloat.float.

Lemma same_learning_refl (s : qmla) : same_learning s s.
Proof. repeat split. Qed.

Lemma same_learning_trans (s1 s2 s3 : qmla) :
  same_learning s1 s2 -> same_learning s2 s3 -> same_learning s1 s3.
Proof.
  intros (A1 & A2 & A3) (B1 & B2 & B3). repeat split; congruence.
Qed.

Lemma same_learning_fields (s s' : qmla) :
  active_branches_learning_models (redis s')
    = active_branches_learning_models (redis s) ->
  NumModelsPerBranch s' = NumModelsPerBranch s ->
  BranchAllModelsLearned s' = BranchAllModelsLearned s ->
  same_learning s s'.
Proof. intros. repeat split; assumption. Qed.

Local Ltac go :=
  frame_go same_learning_refl same_learning_trans same_learning_fields.

Lemma sl_pairwise (a c : Z) (rjob : bool) (br : option Z) :
  frame same_learning (get_pairwise_bayes_factor Comparator a c rjob br).
Proof. unfold get_pairwise_bayes_factor, BayesFactorRemote. go. Qed.

Lemma sl_dispatch (br : Z) (rc : bool) (pairs : list (Z * Z)) :
  frame same_learning (dispatch_pairs Comparator br rc pairs).
Proof.
  induction pairs as [|[a c] pairs IH]; cbn [dispatch_pairs].
  - go.
  - pose proof sl_pairwise. go.
Qed.

Lemma sl_by_branch (br : Z) :
  frame same_learning (get_bayes_factors_by_branch_id Comparator br).
Proof. unfold get_bayes_factors_by_branch_id. pose proof sl_dispatch. go. Qed.

Lemma sl_instances (ids : list Z) :
  frame same_learning
    (for_each ids (fun mod_id => get_model_storage_instance_by_id mod_id ;; ret tt)).
Proof. unfold get_model_storage_instance_by_id. go. Qed.

(** A branch whose count is short, or that was handed over, is left
    alone. *)
Lemma poll_learning_idle (b learned num : Z) (s : qmla) :
  active_branches_learning_models (redis s) !! b = Some learned ->
  NumModelsPerBranch s !! b = Some num ->
  (learned =? num) = false \/ BranchAllModelsLearned s !! b = Some true ->
  poll_learning Comparator b s = (Ok tt, s).
Proof.
  intros E1 E2 Hcase. unfold poll_learning.
  unfold bind at 1. unfold get at 1.
  rewrite (bind_ok _ _ s learned s (item_ok _ _ _ s E1)).
  rewrite (bind_ok _ _ s num s (item_ok _ _ _ s E2)).
  destruct (learned =? num) eqn:E; [|reflexivity].
  destruct Hcase as [Hc|Hc]; [discriminate|].
  rewrite (bind_ok _ _ s true s (item_ok _ _ _ s Hc)). reflexivity.
Qed.

End Polling.

(** X17: polling the learning of a branch is idempotent: after a poll
    that returned, with or without handing the branch to the
    comparisons, a second poll returns and changes nothing, so a branch
    is handed over once. *)
Theorem poll_learning_hands_over_once
  (Comparator : nat -> Z -> Z -> PyFloat.float) (branchID : Z) (s s' : qmla) :
  poll_learning Comparator branchID s = (Ok tt, s') ->
  poll_learning Comparator branchID s' = (Ok tt, s').
Proof.
  intros H. pose proof H as Hrun. unfold poll_learning in H.
  run_get H s0. run_item H learned E1. run_item H num E2.
  destruct (learned =? num) eqn:E.
  - run_item H all_learned E3. destruct all_learned.
    + unfold ret in H. inversion H. subst s'. exact Hrun.
    + run_modify H. run_item H ids E4.
      run_frame H (sl_instances ids) s1 K1.
      pose proof (sl_by_branch Comparator branchID s1) as K2.
      rewrite H in K2. cbn [snd] in K2.
      destruct (same_learning_trans _ _ _ K1 K2) as (A1 & A2 & A3).
      apply (poll_learning_idle Comparator branchID learned num).
      * rewrite A1. exact E1.
      * rewrite A2. exact E2.
      * right. rewrite A3. apply lookup_insert_eq.
  - unfold ret in H. inversion H. subst s'. exact Hrun.
Qed.

Lemma poll_learning_once_witness :
  poll_learning silent 0 just_learned
    = (Ok tt, snd (poll_learning silent 0 just_learned))
  /\ poll_learning silent 0 (snd (poll_learning silent 0 just_learned))
     = (Ok tt, snd (poll_learning silent 0 just_learned)).
Proof.
  split; [vm_compute; reflexivity|].
  exact (poll_learning_hands_over_once silent 0 just_learned _
           ltac:(vm_compute; reflexivity)).
Defined.

(** ** The constituents of a name *)

(** X18: [get_constituent_names_from_name] returns on every name, and
    joining the terms it returns with the separator it cut at, the
    longest run of [P] for a name with [T], [P] or [M] and [+]
    otherwise, gives the name back. *)
Theorem constituents_join_back (name : string) :
  exists terms,
    get_constituent_names_from_name name = Ok terms
    /\ PyStr.join (constituent_separator name) terms = name.
Proof.
  unfold get_constituent_names_from_name, constituent_separator.
  destruct (existsb _ _).
  - unfold verbose_naming_mechanism_separate_terms, get_t_p_strings.
    pose proof (max_letter_occurs name "P"%char) as Hp.
    unfold find_max_letter in *. cbn [snd].
    set (p_str := grow_run _ name "P" "") in *.
    destruct (Nat.leb_spec (String.length p_str)
                (String.length (grow_run (S (String.length name)) name "T" "")))
      as [Hle|Hlt].
    + exists [name]. split; reflexivity.
    + destruct (Hp _ _ eq_refl) as [_ Hocc].
      destruct Hocc as [Hne _]; [lia|].
      rewrite (split_ok name p_str Hne). eexists. split; [reflexivity|].
      unfold PyStr.join. apply (join_split_from p_str name 0%nat Hne).
  - eexists. split; [reflexivity|].
    unfold PyStr.join. apply (join_split_from "+" name 0%nat). discriminate.
Qed.

(** ** Flat sums *)

Section FlatSums.

Local Open Scope nat_scope.

Lemma leb_trans (a b c : string) :
  String.leb a b = true -> String.leb b c = true -> String.leb a c = true.
Proof.
  unfold String.leb.
  destruct (String.compare a b) eqn:E1;
    destruct (String.compare b c) eqn:E2; intros H1 H2; try discriminate.
  - apply String.compare_eq_iff in E1. subst b. rewrite E2. reflexivity.
  - apply String.compare_eq_iff in E1. subst b. rewrite E2. reflexivity.
  - apply String.compare_eq_iff in E2. subst c. rewrite E1. reflexivity.
  - apply OrderedTypeEx.String_as_OT.cmp_lt in E1, E2.
    pose proof (OrderedTypeEx.String_as_OT.lt_trans _ _ _ E1 E2) as E3.
    apply OrderedTypeEx.String_as_OT.cmp_lt in E3.
    unfold OrderedTypeEx.String_as_OT.cmp in E3. rewrite E3. reflexivity.
Qed.

Lemma insert_sorted_perm (x : string) (l : list string) :
  PyStr.insert_sorted x l ≡ₚ x :: l.
Proof.
  induction l as [|y l IH]; cbn [PyStr.insert_sorted]; [reflexivity|].
  destruct (String.leb x y); [reflexivity|].
  rewrite IH. apply Permutation_swap.
Qed.

Lemma sorted_perm (l : list string) : PyStr.sorted l ≡ₚ l.
Proof.
  unfold PyStr.sorted. induction l as [|x l IH]; [reflexivity|].
  cbn [fold_right]. rewrite insert_sorted_perm, IH. reflexivity.
Qed.

Lemma insert_sorted_ascending (x : string) (l : list string) :
  StronglySorted (fun a b => String.leb a b = true) l ->
  StronglySorted (fun a b => String.leb a b = true) (PyStr.insert_sorted x l).
Proof.
  induction l as [|y l IH]; cbn [PyStr.insert_sorted]; intros Hs.
  - apply SSorted_cons; [apply SSorted_nil|apply Forall_nil_2].
  - apply StronglySorted_inv in Hs as [Hs Hall].
    destruct (String.leb x y) eqn:E.
    + apply SSorted_cons; [apply SSorted_cons; assumption|].
      apply Forall_cons. split; [exact E|].
      eapply Forall_impl; [exact Hall|]. cbn beta. intros z Hz.
      apply (leb_trans _ _ _ E Hz).
    + apply SSorted_cons; [auto|].
      rewrite insert_sorted_perm. apply Forall_cons. split; [|exact Hall].
      destruct (String.leb_total x y) as [H|H]; [congruence|exact H].
Qed.

Lemma sorted_ascending (l : list string) :
  StronglySorted (fun a b => String.leb a b = true) (PyStr.sorted l).
Proof.
  unfold PyStr.sorted. induction l as [|x l IH]; [apply SSorted_nil|].
  cbn [fold_right]. apply insert_sorted_ascending, IH.
Qed.

Lemma ascending_unique (l1 l2 : list string) :
  StronglySorted (fun a b => String.leb a b = true) l1 ->
  StronglySorted (fun a b => String.leb a b = true) l2 ->
  l1 ≡ₚ l2 -> l1 = l2.
Proof.
  revert l2. induction l1 as [|a l1 IH]; intros l2 H1 H2 Hp.
  - apply Permutation_nil_l in Hp. congruence.
  - destruct l2 as [|b l2]; [apply Permutation_nil_r in Hp; discriminate|].
    apply StronglySorted_inv in H1 as [H1 A1].
    apply StronglySorted_inv in H2 as [H2 A2].
    rewrite Forall_forall in A1, A2.
    assert (a = b) as ->.
    { assert (a ∈ b :: l2) as Ha by (rewrite <- Hp; apply elem_of_cons; auto).
      assert (b ∈ a :: l1) as Hb by (rewrite Hp; apply elem_of_cons; auto).
      apply elem_of_cons in Ha as [Ha|Ha]; [exact Ha|].
      apply elem_of_cons in Hb as [Hb|Hb]; [congruence|].
      apply String.leb_antisym; auto. }
    f_equal. apply IH; [assumption..|].
    apply (Permutation_cons_inv Hp).
Qed.

Lemma sorted_permuted (l l' : list string) :
  l ≡ₚ l' -> PyStr.sorted l = PyStr.sorted l'.
Proof.
  intros Hp. apply ascending_unique; [apply sorted_ascending..|].
  rewrite !sorted_perm. exact Hp.
Qed.

Lemma sorted_twice (l : list string) :
  PyStr.sorted (PyStr.sorted l) = PyStr.sorted l.
Proof. apply sorted_permuted, sorted_perm. Qed.

Lemma free_first (c a : ascii) (u r : string) :
  free_of c (String a r) = true ->
  String.prefix (String c u) (String a r) = false /\ free_of c r = true.
Proof.
  unfold free_of. cbn [list_ascii_of_string forallb String.prefix].
  intros H. apply andb_true_iff in H as [Ha Hr]. split; [|exact Hr].
  destruct (ascii_dec c a) as [->|_]; [|reflexivity].
  rewrite Ascii.eqb_refl in Ha. discriminate.
Qed.

Lemma free_contains (c : ascii) (u t : string) :
  free_of c t = true -> PyStr.contains t (String c u) = false.
Proof.
  induction t as [|a r IH]; intros H; [reflexivity|].
  apply free_first with (u := u) in H as [Hp Hr].
  cbn [PyStr.contains]. rewrite Hp, (IH Hr). reflexivity.
Qed.

Lemma free_append (c : ascii) (a b : string) :
  free_of c (a +:+ b) = free_of c a && free_of c b.
Proof.
  induction a as [|x a IH]; [reflexivity|].
  change (String x a +:+ b) with (String x (a +:+ b)).
  unfold free_of in *. cbn [list_ascii_of_string forallb].
  rewrite IH. apply andb_assoc.
Qed.

Lemma join_free (c : ascii) (l : list string) :
  Ascii.eqb "P" c = false ->
  forallb (free_of c) l = true -> free_of c (PyStr.join "P" l) = true.
Proof.
  intros Hc. unfold PyStr.join.
  induction l as [|t l IH]; intros H; [reflexivity|].
  cbn [forallb] in H. apply andb_true_iff in H as [Ht Hl].
  destruct l as [|t' l]; [exact Ht|].
  rewrite concat_cons by discriminate. rewrite !free_append, Ht, (IH Hl).
  unfold free_of at 1. cbn [list_ascii_of_string forallb]. rewrite Hc.
  reflexivity.
Qed.

Lemma max_letter_absent (s : string) (c : ascii) :
  PyStr.contains s (String c "") = false ->
  find_max_letter s (String c "") = (0, ""%string).
Proof.
  intros H. unfold find_max_letter. cbn [grow_run].
  change ("" +:+ String c "")%string with (String c "").
  destruct (PyStr.count s (String c "")) eqn:E; [reflexivity|].
  assert (0 < PyStr.count s (String c "")) as Hpos by lia.
  apply count_contains in Hpos. congruence.
Qed.

Lemma max_letter_single (s : string) (c : ascii) :
  PyStr.contains s (String c "") = true ->
  PyStr.contains s (String c (String c "")) = false ->
  find_max_letter s (String c "") = (1, String c "").
Proof.
  intros H1 H2. unfold find_max_letter.
  destruct (grow_run_longest s c (S (String.length s)) 0)
    as (n & E & Hocc & Hstop); [lia|intros k Hk; lia|].
  change (run_of c 0) with ""%string in E. rewrite E, run_of_length.
  assert (n = 1) as ->; [|reflexivity].
  destruct n as [|[|n]]; [|reflexivity|].
  - apply contains_count in H1; [|discriminate].
    change (run_of c 1) with (String c "") in Hstop. lia.
  - assert (0 < PyStr.count s (run_of c 2)) as Hpos by (apply Hocc; lia).
    apply count_contains in Hpos.
    change (run_of c 2) with (String c (String c "")) in Hpos. congruence.
Qed.

Lemma through_free_term (t s u : string) :
  free_of "P" t = true ->
  PyStr.contains (t +:+ s) (String "P" u) = PyStr.contains s (String "P" u).
Proof.
  induction t as [|a r IH]; intros H; [reflexivity|].
  change (String a r +:+ s) with (String a (r +:+ s)).
  destruct (free_first "P" a u r H) as [_ Hr].
  cbn [PyStr.contains]. rewrite (IH Hr).
  assert (String.prefix (String "P" u) (String a (r +:+ s)) = false) as ->;
    [|reflexivity].
  unfold free_of in H. cbn [list_ascii_of_string forallb] in H.
  apply andb_true_iff in H as [Ha _]. cbn [String.prefix].
  destruct (ascii_dec "P" a) as [<-|_]; [discriminate Ha|reflexivity].
Qed.

Lemma split_through_free_term (t s h : string) (tl : list string) :
  free_of "P" t = true ->
  PyStr.split_from 0 "P" s = h :: tl ->
  PyStr.split_from 0 "P" (t +:+ s) = (t +:+ h) :: tl.
Proof.
  intros Ht Hs. induction t as [|a r IH]; [exact Hs|].
  change (String a r +:+ s) with (String a (r +:+ s)).
  destruct (free_first "P" a "" r Ht) as [_ Hr].
  cbn [PyStr.split_from].
  assert (String.prefix "P" (String a (r +:+ s)) = false) as ->.
  { unfold free_of in Ht. cbn [list_ascii_of_string forallb] in Ht.
    apply andb_true_iff in Ht as [Ha _]. cbn [String.prefix].
    destruct (ascii_dec "P" a) as [<-|_]; [discriminate Ha|reflexivity]. }
  rewrite (IH Hr). reflexivity.
Qed.

Lemma append_empty (t : string) : (t +:+ "")%string = t.
Proof.
  induction t as [|a r IH]; [reflexivity|].
  change (String a r +:+ "")%string with (String a (r +:+ "")).
  rewrite IH. reflexivity.
Qed.

Lemma plain_parts (t : string) :
  plain_term t = true ->
  t <> ""%string /\ free_of "T" t = true /\ free_of "P" t = true
  /\ free_of "M" t = true.
Proof.
  unfold plain_term. intros H.
  apply andb_true_iff in H as [H Hm]. apply andb_true_iff in H as [H Hp].
  apply andb_true_iff in H as [H Ht]. repeat split; try assumption.
  intros ->. discriminate H.
Qed.

(** A flat sum of plain terms starts with no [P], has no two [P] in a
    row, and is cut at its [P] into its terms. *)
Lemma flat_sum_shape (l : list string) :
  l <> [] -> forallb plain_term l = true ->
  String.prefix "P" (PyStr.join "P" l) = false
  /\ PyStr.contains (PyStr.join "P" l) "PP" = false
  /\ PyStr.split_from 0 "P" (PyStr.join "P" l) = l.
Proof.
  unfold PyStr.join.
  induction l as [|t l IH]; intros Hne H; [congruence|].
  cbn [forallb] in H. apply andb_true_iff in H as [Ht Hl].
  destruct (plain_parts t Ht) as (Hnon & _ & Hp & _).
  assert (forall s, String.prefix "P" (t +:+ s) = false) as Hfirst.
  { intros s. destruct t as [|a r]; [congruence|].
    change (String a r +:+ s) with (String a (r +:+ s)).
    unfold free_of in Hp. cbn [list_ascii_of_string forallb] in Hp.
    apply andb_true_iff in Hp as [Ha _]. cbn [String.prefix].
    destruct (ascii_dec "P" a) as [<-|_]; [discriminate Ha|reflexivity]. }
  destruct l as [|t' l].
  - cbn [String.concat]. split; [|split].
    + rewrite <- (append_empty t). apply Hfirst.
    + apply free_contains, Hp.
    + rewrite <- (append_empty t) at 1.
      rewrite (split_through_free_term t "" "" [] Hp eq_refl).
      rewrite append_empty. reflexivity.
  - destruct (IH ltac:(discriminate) Hl) as (I1 & I2 & I3).
    rewrite concat_cons by discriminate.
    set (rest := String.concat "P" (t' :: l)) in *.
    split; [apply Hfirst|]. split.
    + rewrite (through_free_term t _ "P" Hp).
      change ("P" +:+ rest)%string with (String "P" rest).
      cbn [PyStr.contains String.prefix].
      destruct (ascii_dec "P" "P") as [_|Hx]; [|congruence].
      change (String.prefix "P" rest || PyStr.contains rest "PP" = false).
      rewrite I1, I2. reflexivity.
    + rewrite (split_through_free_term t ("P" +:+ rest) "" (t' :: l) Hp).
      * rewrite append_empty. reflexivity.
      * change ("P" +:+ rest)%string with (String "P" rest).
        cbn [PyStr.split_from String.prefix].
        destruct (ascii_dec "P" "P") as [_|Hx]; [|congruence].
        destruct rest; cbn [String.length Nat.sub]; rewrite I3; reflexivity.
Qed.

Lemma flat_sum_has_separator (t t' : string) (l : list string) :
  free_of "P" t = true ->
  PyStr.contains (PyStr.join "P" (t :: t' :: l)) "P" = true.
Proof.
  intros Hp. unfold PyStr.join. rewrite concat_cons by discriminate.
  rewrite (through_free_term t _ "" Hp).
  set (rest := String.concat "P" (t' :: l)).
  change ("P" +:+ rest)%string with (String "P" rest).
  cbn [PyStr.contains String.prefix].
  destruct (ascii_dec "P" "P") as [_|Hx]; [|congruence].
  destruct rest; reflexivity.
Qed.

Lemma plain_free (c : ascii) (l : list string) :
  (forall t, plain_term t = true -> free_of c t = true) ->
  forallb plain_term l = true -> forallb (free_of c) l = true.
Proof.
  intros Hc H. apply forallb_forall. intros t Ht.
  rewrite forallb_forall in H. apply Hc, H, Ht.
Qed.

(** [alph] on a flat sum sorts its terms. *)
Lemma flat_sum_alph (l : list string) :
  l <> [] -> forallb plain_term l = true ->
  alph (PyStr.join "P" l) = Ok (PyStr.join "P" (PyStr.sorted l)).
Proof.
  intros Hne H.
  destruct (flat_sum_shape l Hne H) as (_ & Hpp & Hsplit).
  assert (find_max_letter (PyStr.join "P" l) "T" = (0, ""%string)) as Et.
  { apply max_letter_absent, free_contains, join_free; [reflexivity|].
    apply (plain_free "T"); [|exact H]. intros t Ht. apply (plain_parts t Ht). }
  assert (find_max_letter (PyStr.join "P" l) "M" = (0, ""%string)) as Em.
  { apply max_letter_absent, free_contains, join_free; [reflexivity|].
    apply (plain_free "M"); [|exact H]. intros t Ht. apply (plain_parts t Ht). }
  unfold alph. cbn [alph_fuel]. rewrite Et, Em.
  destruct l as [|t [|t' l]]; [congruence| |].
  - cbn [forallb] in H. apply andb_true_iff in H as [Ht _].
    destruct (plain_parts t Ht) as (_ & _ & Hp & _).
    change (PyStr.join "P" [t]) with t in *.
    rewrite (max_letter_absent t "P" (free_contains "P" "" t Hp)).
    reflexivity.
  - assert (free_of "P" t = true) as Hp.
    { cbn [forallb] in H. apply andb_true_iff in H as [Ht _].
      apply (plain_parts t Ht). }
    rewrite (max_letter_single _ "P" (flat_sum_has_separator t t' l Hp) Hpp).
    cbn [Nat.eqb Nat.ltb Nat.leb andb orb].
    change (PyStr.split (PyStr.join "P" (t :: t' :: l)) "P")
      with (Ok (PyStr.split_from 0 "P" (PyStr.join "P" (t :: t' :: l)))).
    rewrite Hsplit. reflexivity.
Qed.

Lemma sorted_plain (l : list string) :
  l <> [] -> forallb plain_term l = true ->
  PyStr.sorted l <> [] /\ forallb plain_term (PyStr.sorted l) = true.
Proof.
  intros Hne H. split.
  - intros E. pose proof (sorted_perm l) as Hp. rewrite E in Hp.
    apply Permutation_nil_l in Hp. congruence.
  - apply forallb_forall. intros t Ht. rewrite forallb_forall in H.
    apply H. apply sorted_in. exact Ht.
Qed.

End FlatSums.

(** X19: on a flat sum, terms without [T], [P] and [M] joined by single
    [P], [alph] returns the sum of the sorted terms; the result is a
    fixed point of [alph], and two sums of the same terms in different
    orders get the same canonical name. *)
Theorem alph_sorts_flat_sums (l l' : list string) :
  l <> [] -> forallb plain_term l = true ->
  alph (PyStr.join "P" l) = Ok (PyStr.join "P" (PyStr.sorted l))
  /\ alph (PyStr.join "P" (PyStr.sorted l))
     = Ok (PyStr.join "P" (PyStr.sorted l))
  /\ (l ≡ₚ l' -> alph (PyStr.join "P" l') = alph (PyStr.join "P" l)).
Proof.
  intros Hne H. split; [apply flat_sum_alph; assumption|]. split.
  - destruct (sorted_plain l Hne H) as [Hne' H'].
    rewrite (flat_sum_alph _ Hne' H'), sorted_twice. reflexivity.
  - intros Hp. rewrite (flat_sum_alph l Hne H).
    rewrite flat_sum_alph.
    + rewrite (sorted_permuted _ _ Hp). reflexivity.
    + intros ->. apply Permutation_nil_r in Hp. congruence.
    + apply forallb_forall. intros t Ht. rewrite forallb_forall in H.
      apply H. apply list_elem_of_In. rewrite Hp.
      apply list_elem_of_In. exact Ht.
Qed.

Lemma alph_sorts_flat_sums_witness :
  ["z"; "x"; "y"]%string <> []
  /\ forallb plain_term ["z"; "x"; "y"]%string = true
  /\ alph (PyStr.join "P" ["z"; "x"; "y"]%string)
     = Ok (PyStr.join "P" (PyStr.sorted ["z"; "x"; "y"]%string))
  /\ alph (PyStr.join "P" (PyStr.sorted ["z"; "x"; "y"]%string))
     = Ok (PyStr.join "P" (PyStr.sorted ["z"; "x"; "y"]%string))
  /\ (["z"; "x"; "y"]%string ≡ₚ ["y"; "z"; "x"]%string ->
      alph (PyStr.join "P" ["y"; "z"; "x"]%string)
      = alph (PyStr.join "P" ["z"; "x"; "y"]%string)).
Proof.
  split; [discriminate|]. split; [reflexivity|].
  exact (alph_sorts_flat_sums ["z"; "x"; "y"]%string ["y"; "z"; "x"]%string
           ltac:(discriminate) eq_refl).
Defined.

(** ** The champion of the champions *)

Lemma insert_id_desc_perm (k : Z) (l : list Z) :
  insert_id_desc k l ≡ₚ k :: l.
Proof.
  induction l as [|k' l IH]; cbn [insert_id_desc]; [reflexivity|].
  destruct (k' <? k); [reflexivity|].
  rewrite IH. apply Permutation_swap.
Qed.

Lemma insert_id_desc_sorted (k : Z) (l : list Z) :
  StronglySorted (fun a c => c <= a) l ->
  StronglySorted (fun a c => c <= a) (insert_id_desc k l).
Proof.
  induction l as [|k' l IH]; cbn [insert_id_desc]; intros Hs.
  - apply SSorted_cons; [apply SSorted_nil|apply Forall_nil_2].
  - apply StronglySorted_inv in Hs as [Hs Hall].
    destruct (k' <? k) eqn:E.
    + apply Z.ltb_lt in E. apply SSorted_cons.
      * apply SSorted_cons; assumption.
      * apply Forall_cons. split; [lia|].
        eapply Forall_impl; [exact Hall|]. cbn beta. intros; lia.
    + apply Z.ltb_ge in E. apply SSorted_cons; [auto|].
      rewrite insert_id_desc_perm. apply Forall_cons. auto.
Qed.

Lemma sorted_ids_desc_spec (d : list (Z * Z)) :
  sorted_ids_desc d ≡ₚ map fst d
  /\ StronglySorted (fun a c => c <= a) (sorted_ids_desc d).
Proof.
  unfold sorted_ids_desc.
  assert (forall acc,
    fold_left (fun acc kv => insert_id_desc (fst kv) acc) d acc
      ≡ₚ map fst d ++ acc
    /\ (StronglySorted (fun a c => c <= a) acc ->
        StronglySorted (fun a c => c <= a)
          (fold_left (fun acc kv => insert_id_desc (fst kv) acc) d acc)))
    as Hgen.
  { induction d as [|kv d IH]; intros acc; cbn [fold_left map].
    - split; [reflexivity|auto].
    - destruct (IH (insert_id_desc (fst kv) acc)) as [A B]. split.
      + rewrite A, insert_id_desc_perm. cbn [app].
        symmetry. apply Permutation_middle.
      + intros Hs. apply B, insert_id_desc_sorted, Hs. }
  destruct (Hgen []) as [A B]. rewrite app_nil_r in A.
  split; [exact A|apply B, SSorted_nil].
Qed.

Lemma names_of_inv (ids : list Z) (names : list string) (s s' : qmla) :
  names_of ids s = (Ok names, s') ->
  s' = s /\ Forall2 (fun m n => model_name_id_map s !! m = Some n) ids names.
Proof.
  revert names s'. induction ids as [|m ids IH]; intros names s' H;
    cbn [names_of] in H.
  - unfold ret in H. inversion H. split; [reflexivity|apply Forall2_nil_2].
  - run_get H s0. run_item H n En.
    apply bind_inv in H as (ns & s1 & E & H).
    apply IH in E as [-> E]. unfold ret in H. inversion H. subst.
    split; [reflexivity|]. constructor; assumption.
Qed.

Lemma named_rows_active (name : string) (d : list row) (r : row) :
  r ∈ map (fun r => if decide (row_Name r = name)
                    then set_status "Active" r else r) d ->
  row_Name r = name -> row_Status r = "Active"%string.
Proof.
  intros Hin Hname. apply list_elem_of_fmap in Hin as (r0 & -> & _).
  destruct (decide (row_Name r0 = name)); [reflexivity|contradiction].
Qed.

(** X20: the last part of [perform_final_bayes_comparisons], when it
    returns, names as champion an active model with the largest
    number of points in the table of points that its two loops award
    to the active models after their comparisons were computed again,
    by the name the agent maps its id to, and hands back the names of
    the active models in their order; every row of that name is
    [Active] afterwards and nothing is registered.
    [ranked_champions] lists the compared ids from the largest id to
    the smallest, whatever their points. *)
Theorem final_champion_is_a_top_active_model
  (Comparator : nat -> Z -> Z -> PyFloat.float) (depth : nat) (s s' : qmla)
  (champ_name : string) (branch_champ_names : list string)
  (ranked_champions : list Z) :
  final_champion_comparison Comparator depth s
    = (Ok (champ_name, branch_champ_names, ranked_champions), s') ->
  exists (champ_id : Z) (points : list (Z * Z)) (best : Z),
    fst (award_points (index_pairs (all_active_model_ids (db s)))
           (zero_points (all_active_model_ids (db s)))
           (snd (get_bayes_factors_from_list Comparator
                   (all_active_model_ids (db s)) true true s)))
    = Ok points
    /\ champ_id ∈ all_active_model_ids (db s)
    /\ model_name_id_map s !! champ_id = Some champ_name
    /\ (forall m, m ∈ map fst points <-> m ∈ all_active_model_ids (db s))
    /\ max_value points = Ok best
    /\ dict_get champ_id points = Some best
    /\ Forall2 (fun m n => model_name_id_map s !! m = Some n)
         (all_active_model_ids (db s)) branch_champ_names
    /\ ranked_champions ≡ₚ map fst points
    /\ StronglySorted (fun a c => c <= a) ranked_champions
    /\ (forall r, r ∈ db s' -> row_Name r = champ_name ->
          row_Status r = "Active"%string)
    /\ same_registry s s'.
Proof.
  unfold final_champion_comparison. intros H.
  run_get H s0.
  set (active := all_active_model_ids (db s)) in *.
  apply bind_inv in H as (u & s1 & Elist & H).
  pose proof (tt_from_list Comparator same_registry same_registry_refl
                same_registry_trans
                (fun s p _ => same_registry_pair s p) (fun s s' _ _ E => E)
                active true true s) as K1.
  rewrite Elist in K1. cbn [snd] in K1.
  apply bind_inv in H as (pts & s2 & Eaward & H).
  assert (fst (award_points (index_pairs active) (zero_points active)
                 (snd (get_bayes_factors_from_list Comparator active
                         true true s))) = Ok pts) as Etable.
  { rewrite Elist. cbn [snd]. rewrite Eaward. reflexivity. }
  pose proof (tt_award same_registry same_registry_refl same_registry_trans
                same_registry_rows (fun s s' _ _ E => E)
                (index_pairs active) (zero_points active) s1) as K2.
  rewrite Eaward in K2. cbn [snd] in K2.
  apply award_points_keys in Eaward.
  run_lift H best Ebest.
  apply bind_inv in H as (champ & s3 & Echamp & H).
  assert (champ ∈ keys_with best pts /\ same_registry s2 s3) as [Hchamp K3].
  { destruct (1 <? Z.of_nat (length (keys_with best pts))).
    - split; [apply (tie_break_member _ _ _ _ _ _ Echamp)|].
      pose proof (tt_from_models Comparator same_registry same_registry_refl
                    same_registry_trans same_registry_rows
                    (fun s p _ => same_registry_pair s p)
                    (fun s s' _ _ E => E) depth (keys_with best pts) s2) as K.
      rewrite Echamp in K. exact K.
    - apply lift_inv in Echamp as [Echamp ->].
      split; [|apply same_registry_refl].
      apply argmax_top in Echamp as (m' & Hm' & Hin). congruence. }
  run_get H s4. run_item H name Ename.
  apply bind_inv in H as (names & s5 & Enames & H).
  apply names_of_inv in Enames as [-> Enames].
  run_modify H. unfold ret in H. inversion H.
  subst champ_name branch_champ_names ranked_champions s'. clear H.
  pose proof (same_registry_trans _ _ _ K1
                (same_registry_trans _ _ _ K2 K3)) as K.
  assert (model_name_id_map s3 = model_name_id_map s) as Emap
    by apply K.
  rewrite Emap in Ename, Enames.
  destruct (sorted_ids_desc_spec pts) as [Hperm Hsorted].
  pose proof (keys_with_keys _ _ _ Hchamp) as Hkey.
  exists champ, pts, best.
  repeat match goal with |- _ /\ _ => split end; try assumption.
  - apply zero_points_keys. rewrite <- Eaward. exact Hkey.
  - intros m. rewrite Eaward. apply zero_points_keys.
  - apply dict_get_unique; [|apply keys_with_spec, Hchamp].
    rewrite Eaward. apply zero_points_NoDup.
  - intros r Hr. apply (named_rows_active name (db s3) r Hr).
  - apply (same_registry_trans _ _ _ K). apply same_registry_rows.
    rewrite map_map. apply map_ext. intros r.
    destruct (decide _); reflexivity.
Qed.

Lemma final_champion_witness :
  final_champion_comparison favours_lower 5 parent_and_child
    = (Ok ("x"%string, ["x"; "y"]%string, [1; 0]),
       snd (final_champion_comparison favours_lower 5 parent_and_child))
  /\ exists (champ_id : Z) (points : list (Z * Z)) (best : Z),
       fst (award_points
              (index_pairs (all_active_model_ids (db parent_and_child)))
              (zero_points (all_active_model_ids (db parent_and_child)))
              (snd (get_bayes_factors_from_list favours_lower
                      (all_active_model_ids (db parent_and_child))
                      true true parent_and_child)))
       = Ok points
       /\ champ_id ∈ all_active_model_ids (db parent_and_child)
       /\ model_name_id_map parent_and_child !! champ_id = Some "x"%string
       /\ (forall m, m ∈ map fst points
                     <-> m ∈ all_active_model_ids (db parent_and_child))
       /\ max_value points = Ok best
       /\ dict_get champ_id points = Some best
       /\ Forall2 (fun m n => model_name_id_map parent_and_child !! m = Some n)
            (all_active_model_ids (db parent_and_child)) ["x"; "y"]%string
       /\ [1; 0] ≡ₚ map fst points
       /\ StronglySorted (fun a c => c <= a) [1; 0]
       /\ (forall r,
             r ∈ db (snd (final_champion_comparison favours_lower 5
                            parent_and_child)) ->
             row_Name r = "x"%string -> row_Status r = "Active"%string)
       /\ same_registry parent_and_child
            (snd (final_champion_comparison favours_lower 5 parent_and_child)).
Proof.
  split; [vm_compute; reflexivity|].
  exact (final_champion_is_a_top_active_model favours_lower 5
           parent_and_child _ _ _ _ ltac:(vm_compute; reflexivity)).
Defined.

(** ** Where the failure flag is not looked at *)

Section Blind.










End Blind.



Section BlindMethods.

Variable Comparator : nat -> Z -> Z -> PyFloat.float.























End BlindMethods.

Section BlindLoop.

Variable Comparator : nat -> Z -> Z -> PyFloat.float.
Variable workers : nat -> redis_databases -> redis_databases.
Hypothesis workers_leave_flag : forall n v r,
  workers n (r <| any_job_failed := v |>)
  = (workers n r) <| any_job_failed := v |>.




End BlindLoop.





